(** * cluster-probe: the network connectivity test orchestrator (package nettest)

    A shallow embedding of [pkg/nettest]: the orchestrator [Run], the pod
    provisioning and readiness code, DNS endpoint discovery and the five
    connectivity tests.  The Kubernetes API server, the remote exec helper
    [ExecInPod], the clock, the contexts (when one ends, and with which
    error) and the Go runtime (goroutine scheduling, map iteration order)
    are the environment: the code is written against an interface [Env]
    and every statement about the code holds for every implementation of
    it.  A small in-memory cluster, [FakeCluster], gives concrete runs.

    Not modelled: the diagnostic lines written to stderr when [verbose] is
    set, and wall-clock time: a poll is given the number of ticks that fit
    before its deadline, which bounds its tries, and the environment says
    at each wait whether the context has ended before. *)

From Stdlib Require Import ZArith NArith String Ascii List Lia Permutation.
From stdpp Require Import base tactics option list gmap strings pretty.
Import ListNotations.
Local Open Scope string_scope.
Local Open Scope list_scope.
Local Open Scope nat_scope.
Local Open Scope stdpp_scope.

(** ** Go values *)

(** A Go [error]: its [Error()] text and, for errors of the API machinery,
    the status reason that [errors.IsAlreadyExists] and [errors.IsNotFound]
    inspect (they look through [%w] wrapping). *)
Inductive StatusReason :=
| ReasonUnknown | ReasonAlreadyExists | ReasonNotFound | ReasonForbidden.

Record error := { err_Error : string; err_Reason : StatusReason }.

Inductive result (A : Type) :=
| Ok (a : A)
| Err (e : error).
Arguments Ok {A} a.
Arguments Err {A} e.

Definition IsAlreadyExists (e : error) : bool :=
  match err_Reason e with ReasonAlreadyExists => true | _ => false end.

Definition IsNotFound (e : error) : bool :=
  match err_Reason e with ReasonNotFound => true | _ => false end.

(** [fmt.Errorf("<prefix>: %w", err)] and [fmt.Errorf("<text>")]. *)
Definition Errorf_w (prefix : string) (e : error) : error :=
  {| err_Error := prefix +:+ err_Error e; err_Reason := err_Reason e |}.

Definition Errorf (text : string) : error :=
  {| err_Error := text; err_Reason := ReasonUnknown |}.

(** Go's [int] is 64 bits wide here; [x++] wraps. *)
Definition wrap64 (z : Z) : Z := ((z + 2 ^ 63) mod 2 ^ 64 - 2 ^ 63)%Z.
Definition MaxInt : Z := (2 ^ 63 - 1)%Z.

(** A [context.Context] as the code builds them. *)
Inductive context :=
| ctx_Caller
| ctx_Background
| ctx_WithTimeout (parent : context) (seconds : nat).

(** ** The fragments of the Kubernetes API types the package reads *)

Module corev1.

Record NodeCondition := { Type_ : string; Status : string }.
Definition NodeReady : string := "Ready".
Definition ConditionTrue : string := "True".
Definition ConditionFalse : string := "False".
Definition ConditionUnknown : string := "Unknown".

Record NodeAddress := { AddrType : string; Address : string }.
Definition NodeInternalIP : string := "InternalIP".

Record Node := {
  Node_Name : string;
  Node_Conditions : list NodeCondition;
  Node_Addresses : list NodeAddress }.

Record ContainerStatus := { Ready : bool }.
Definition PodRunning : string := "Running".
Definition PodPending : string := "Pending".

Record PodStatus := {
  Phase : string;
  ContainerStatuses : list ContainerStatus;
  PodIP : string }.

Record Container := {
  Container_Name : string; Image : string; Command : list string }.
Record Toleration := { Operator : string }.
Definition TolerationOpExists : string := "Exists".
Definition RestartPolicyNever : string := "Never".

Record PodSpec := {
  NodeName : string;
  RestartPolicy : string;
  Containers : list Container;
  Tolerations : list Toleration }.

Record Pod := {
  Pod_Name : string;
  Pod_Namespace : string;
  Pod_Labels : list (string * string);
  Spec : PodSpec;
  Pod_Status : PodStatus }.

Record Namespace := {
  Namespace_Name : string;
  Namespace_Labels : list (string * string) }.

Record EndpointAddress := { IP : string }.
Record EndpointSubset := { Addresses : list EndpointAddress }.
Record Endpoints := { Subsets : list EndpointSubset }.

Definition emptyStatus : PodStatus :=
  {| Phase := ""; ContainerStatuses := []; PodIP := "" |}.

End corev1.

Inductive DeletionPropagation := DeletePropagationForeground.

(** ** pkg/nettest: constants and records *)

Definition testNamespace : string := "cluster-probe-nettest".
Definition testPodPrefix : string := "nettest-".
Definition testImage : string := "busybox:1.36".
Definition testListenPort : N := 8080.

Record TestPod := { Name : string; NodeName : string; PodIP : string }.

Record TestResult := {
  SourceNode : string;
  SourcePod : string;
  TestType : string;
  Target : string;
  Success : bool;
  Error : string }.

Record TestSummary := { Total : Z; Passed : Z; Failed : Z }.

Record NetworkTestReport := {
  Timestamp : Z;
  NodeCount : Z;
  PodCount : Z;
  TestResults : list TestResult;
  Summary : TestSummary }.

(** [len(s)] of a slice, as a Go [int]. *)
Definition len {A} (l : list A) : Z := Z.of_nat (length l).

(** ** Pure helpers *)

(** One iteration of the loop of [sanitizeNodeName]; [c + 32] is byte
    arithmetic. *)
Definition sanitizeByte (c : ascii) : ascii :=
  let n := N_of_ascii c in
  if ((97 <=? n) && (n <=? 122) || (48 <=? n) && (n <=? 57) || (n =? 45))%N
  then c
  else if ((65 <=? n) && (n <=? 90))%N
       then ascii_of_N ((n + 32) mod 256)
       else "-"%char.

Fixpoint sanitizeBytes (name : string) : string :=
  match name with
  | EmptyString => EmptyString
  | String c rest => String (sanitizeByte c) (sanitizeBytes rest)
  end.

Definition sanitizeNodeName (name : string) : string :=
  let result := sanitizeBytes name in
  if 50 <? String.length result then substring 0 50 result else result.

(** The name [CreateTestPods] gives the pod of a node. *)
Definition podNameFor (nodeName : string) : string :=
  testPodPrefix +:+ sanitizeNodeName nodeName.

(** The inner loop of [filterReadyNodes]: does some condition have type
    Ready and status True (the loop breaks at the first one). *)
Fixpoint hasReadyCondition (conds : list corev1.NodeCondition) : bool :=
  match conds with
  | [] => false
  | cond :: rest =>
      if bool_decide (corev1.Type_ cond = corev1.NodeReady)
         && bool_decide (corev1.Status cond = corev1.ConditionTrue)
      then true
      else hasReadyCondition rest
  end.

Definition filterReadyNodes (nodes : list corev1.Node) : list corev1.Node :=
  fold_left
    (fun ready node =>
       if hasReadyCondition (corev1.Node_Conditions node)
       then ready ++ [node] else ready)
    nodes [].

(** [containsSubstring]: [i] runs from 0 to [len(s)-len(substr)]. *)
Fixpoint containsSubstringFrom (s substr : string) (i steps : nat) : bool :=
  match steps with
  | O => false
  | S k =>
      if String.eqb (substring i (String.length substr) s) substr then true
      else containsSubstringFrom s substr (S i) k
  end.

Definition containsSubstring (s substr : string) : bool :=
  containsSubstringFrom s substr 0 (S (String.length s) - String.length substr).

Definition contains (s substr : string) : bool :=
  (String.length substr <=? String.length s)
  && (String.eqb s substr
      || (0 <? String.length s) && containsSubstring s substr).

Definition containsDNSComponent (name : string) : bool :=
  contains name "coredns" || contains name "kube-dns".

(** The first address of type InternalIP of a node, if any. *)
Fixpoint firstInternalIP (addrs : list corev1.NodeAddress) : option string :=
  match addrs with
  | [] => None
  | addr :: rest =>
      if bool_decide (corev1.AddrType addr = corev1.NodeInternalIP)
      then Some (corev1.Address addr)
      else firstInternalIP rest
  end.

Definition GetNodeInternalIPs (nodes : list corev1.Node) : gmap string string :=
  fold_left
    (fun nodeIPs node =>
       match firstInternalIP (corev1.Node_Addresses node) with
       | Some a => <[corev1.Node_Name node := a]> nodeIPs
       | None => nodeIPs
       end)
    nodes ∅.

(** The tally at the end of [Run]. *)
Definition tally (s : TestSummary) (r : TestResult) : TestSummary :=
  let s := {| Total := wrap64 (Total s + 1);
              Passed := Passed s; Failed := Failed s |} in
  if Success r
  then {| Total := Total s; Passed := wrap64 (Passed s + 1);
          Failed := Failed s |}
  else {| Total := Total s; Passed := Passed s;
          Failed := wrap64 (Failed s + 1) |}.

Definition summarize (results : list TestResult) : TestSummary :=
  fold_left tally results {| Total := 0; Passed := 0; Failed := 0 |}.

(** The addresses of an Endpoints object, in order. *)
Definition appendEndpointIPs (dnsIPs : list string) (ep : corev1.Endpoints)
  : list string :=
  fold_left
    (fun acc subset =>
       fold_left (fun acc addr => acc ++ [corev1.IP addr])
                 (corev1.Addresses subset) acc)
    (corev1.Subsets ep) dnsIPs.

(** The scan over the kube-system pods of [DiscoverCoreDNSPods]. *)
Definition appendDNSPodIPs (dnsIPs : list string) (pods : list corev1.Pod)
  : list string :=
  fold_left
    (fun acc pod =>
       if containsDNSComponent (corev1.Pod_Name pod)
          && bool_decide (corev1.Phase (corev1.Pod_Status pod) = corev1.PodRunning)
          && negb (bool_decide (corev1.PodIP (corev1.Pod_Status pod) = ""))
       then acc ++ [corev1.PodIP (corev1.Pod_Status pod)]
       else acc)
    pods dnsIPs.

(** The order in which the Go runtime visits a collection it does not
    order (the entries of a map, goroutines reaching a lock): the next
    element is placed at a position taken from a stream of choices.  Every
    permutation arises from some stream. *)
Fixpoint shuffle {A} (choices : list nat) (l : list A) : list A :=
  match l with
  | [] => []
  | x :: rest =>
      let r := shuffle (tl choices) rest in
      let k := hd 0 choices `mod` S (length r) in
      take k r ++ x :: drop k r
  end.

(** ** The environment: API server, exec helper, clock *)

(** The calls the package makes, as they appear in a run's trace. *)
Inductive Call :=
| CallNamespacesCreate (ns : corev1.Namespace)
| CallNamespacesDelete (name : string) (propagation : DeletionPropagation)
| CallNamespacesGet (name : string)
| CallNodesList
| CallPodsCreate (namespace : string) (pod : corev1.Pod)
| CallPodsGet (namespace name : string)
| CallPodsList (namespace : string)
| CallEndpointsGet (namespace name : string)
| CallExecInPod (podName namespace : string) (cmd : list string).

Record Event := { ev_ctx : context; ev_call : Call; ev_err : option error }.

(** [kubernetes.Interface] restricted to the calls used, the exec helper
    [ExecInPod] (stdout, stderr, error) and [time.Now], over a state [W] of
    the outside world that each call may read and change.  [Context_Wait]
    is the wait of a poll loop between two tries ([select] on the
    context's [Done] channel and the timer, then [ctx.Err()]): the error of
    the context when it has ended, by its deadline or by cancellation, or
    nothing when the tick came first. *)
Class Env (W : Type) := {
  Namespaces_Create : context -> corev1.Namespace -> W -> option error * W;
  Namespaces_Delete :
    context -> string -> DeletionPropagation -> W -> option error * W;
  Namespaces_Get : context -> string -> W -> option error * W;
  Nodes_List : context -> W -> result (list corev1.Node) * W;
  Pods_Create : context -> string -> corev1.Pod -> W -> option error * W;
  Pods_Get : context -> string -> string -> W -> result corev1.Pod * W;
  Pods_List : context -> string -> W -> result (list corev1.Pod) * W;
  Endpoints_Get :
    context -> string -> string -> W -> result corev1.Endpoints * W;
  Exec_In_Pod :
    context -> string -> string -> list string -> W ->
    (string * string * option error) * W;
  time_Now : W -> Z * W;
  Context_Wait : context -> W -> option error * W }.

Definition result_err {A} (r : result A) : option error :=
  match r with Ok _ => None | Err e => Some e end.

(** [context.DeadlineExceeded] and [context.Canceled], the errors of a
    context that has ended. *)
Definition DeadlineExceeded : error :=
  {| err_Error := "context deadline exceeded"; err_Reason := ReasonUnknown |}.

Definition Canceled : error :=
  {| err_Error := "context canceled"; err_Reason := ReasonUnknown |}.

Section Nettest.

Context {W : Type} `{Env W}.

(** The state a run threads: the world, the calls made so far (oldest
    first) and the runtime's pending ordering choices. *)
Record St := { world : W; trace : list Event; sched : list nat }.

Definition M (A : Type) : Type := St -> A * St.

Definition ret {A} (a : A) : M A := fun st => (a, st).

Definition bind {A B} (m : M A) (f : A -> M B) : M B :=
  fun st => let '(a, st1) := m st in f a st1.

Notation "'do' x <- m ; k" := (bind m (fun x => k))
  (at level 10, x pattern, m at level 100, k at level 200).

(** An environment call, recorded in the trace with the error it
    returned. *)
Definition logged {A} (ctx : context) (c : Call) (errOf : A -> option error)
           (op : W -> A * W) : M A :=
  fun st =>
    let '(a, w) := op (world st) in
    (a, {| world := w;
           trace := trace st ++
                    [{| ev_ctx := ctx; ev_call := c; ev_err := errOf a |}];
           sched := sched st |}).

Definition NamespacesCreate ctx ns : M (option error) :=
  logged ctx (CallNamespacesCreate ns) id (Namespaces_Create ctx ns).
Definition NamespacesDelete ctx name prop : M (option error) :=
  logged ctx (CallNamespacesDelete name prop) id
         (Namespaces_Delete ctx name prop).
Definition NamespacesGet ctx name : M (option error) :=
  logged ctx (CallNamespacesGet name) id (Namespaces_Get ctx name).
Definition NodesList ctx : M (result (list corev1.Node)) :=
  logged ctx CallNodesList result_err (Nodes_List ctx).
Definition PodsCreate ctx namespace pod : M (option error) :=
  logged ctx (CallPodsCreate namespace pod) id (Pods_Create ctx namespace pod).
Definition PodsGet ctx namespace name : M (result corev1.Pod) :=
  logged ctx (CallPodsGet namespace name) result_err
         (Pods_Get ctx namespace name).
Definition PodsList ctx namespace : M (result (list corev1.Pod)) :=
  logged ctx (CallPodsList namespace) result_err (Pods_List ctx namespace).
Definition EndpointsGet ctx namespace name : M (result corev1.Endpoints) :=
  logged ctx (CallEndpointsGet namespace name) result_err
         (Endpoints_Get ctx namespace name).
Definition ExecInPod ctx podName namespace cmd
  : M (string * string * option error) :=
  logged ctx (CallExecInPod podName namespace cmd) snd
         (Exec_In_Pod ctx podName namespace cmd).
Definition Now : M Z :=
  fun st => let '(t, w) := time_Now (world st) in
            (t, {| world := w; trace := trace st; sched := sched st |}).

(** The order the runtime picks for [l]; uses up one choice per element. *)
Definition runtimeOrder {A} (l : list A) : M (list A) :=
  fun st => (shuffle (sched st) l,
             {| world := world st; trace := trace st;
                sched := drop (length l) (sched st) |}).

(** [for _, x := range l { acc = body(x, acc) }] *)
Fixpoint for_range {A B} (l : list A) (body : A -> B -> M B) (acc : B) : M B :=
  match l with
  | [] => ret acc
  | x :: rest => do acc1 <- body x acc; for_range rest body acc1
  end.

(** The wait between two tries of a poll; it is no API call and leaves
    no event. *)
Definition ContextWait (ctx : context) : M (option error) :=
  fun st => let '(done, w) := Context_Wait ctx (world st) in
            (done, {| world := w; trace := trace st; sched := sched st |}).

(** *** k8s.io/apimachinery/pkg/util/wait

    The loop of [PollUntilContextCancel] and [PollUntilContextTimeout]
    under the context [ctx]: before each try it waits for the next tick
    or the end of [ctx], and returns the error of [ctx] when that came
    first; otherwise [cond] is tried, and the loop goes on until [cond]
    holds or fails.  [ticks] is the number of ticks that fit before the
    deadline of [ctx]: once they are used up the deadline has passed, and
    the wait returns the context's error, [DeadlineExceeded] unless the
    environment gives another.  With [immediate], [cond] is tried once
    before the first wait, whatever the state of the context.  [s] is
    what the condition closure captures and may update.  Returns the
    error, the captured state and the ticks left. *)
Fixpoint pollTicks {S} (ctx : context) (ticks : nat)
         (cond : S -> M (bool * option error * S)) (s : S)
  : M (option error * S * nat) :=
  match ticks with
  | O =>
      do done <- ContextWait ctx;
      ret (Some (default DeadlineExceeded done), s, O)
  | Datatypes.S k =>
      do done <- ContextWait ctx;
      match done with
      | Some e => ret (Some e, s, k)
      | None =>
          do (ok, err, s1) <- cond s;
          match err with
          | Some e => ret (Some e, s1, k)
          | None => if ok then ret (None, s1, k) else pollTicks ctx k cond s1
          end
      end
  end.

Definition pollUntil {S} (ctx : context) (ticks : nat) (immediate : bool)
           (cond : S -> M (bool * option error * S)) (s : S)
  : M (option error * S * nat) :=
  if immediate then
    do (ok, err, s1) <- cond s;
    match err with
    | Some e => ret (Some e, s1, ticks)
    | None => if ok then ret (None, s1, ticks) else pollTicks ctx ticks cond s1
    end
  else pollTicks ctx ticks cond s.

(** *** pods.go *)

Definition EnsureNamespace (ctx : context) : M (option error) :=
  let ns := {| corev1.Namespace_Name := testNamespace;
               corev1.Namespace_Labels :=
                 [("app.kubernetes.io/name", "cluster-probe");
                  ("app.kubernetes.io/component", "network-test")] |} in
  do err <- NamespacesCreate ctx ns;
  match err with
  | Some e =>
      if negb (IsAlreadyExists e)
      then ret (Some (Errorf_w "failed to create namespace: " e))
      else ret None
  | None => ret None
  end.

Definition testPodObject (node : corev1.Node) (podName : string) : corev1.Pod :=
  {| corev1.Pod_Name := podName;
     corev1.Pod_Namespace := testNamespace;
     corev1.Pod_Labels :=
       [("app.kubernetes.io/name", "cluster-probe");
        ("app.kubernetes.io/component", "network-test");
        ("cluster-probe/node", corev1.Node_Name node)];
     corev1.Spec :=
       {| corev1.NodeName := corev1.Node_Name node;
          corev1.RestartPolicy := corev1.RestartPolicyNever;
          corev1.Containers :=
            [{| corev1.Container_Name := "nettest";
                corev1.Image := testImage;
                corev1.Command := ["sleep"; "3600"] |}];
          corev1.Tolerations :=
            [{| corev1.Operator := corev1.TolerationOpExists |}] |};
     corev1.Pod_Status := corev1.emptyStatus |}.

Fixpoint CreateTestPods_from (ctx : context) (nodes : list corev1.Node)
         (testPods : list TestPod) : M (result (list TestPod)) :=
  match nodes with
  | [] => ret (Ok testPods)
  | node :: rest =>
      let podName := testPodPrefix +:+ sanitizeNodeName (corev1.Node_Name node) in
      let pod := testPodObject node podName in
      let next :=
        CreateTestPods_from ctx rest
          (testPods ++ [{| Name := podName;
                           NodeName := corev1.Node_Name node;
                           PodIP := "" |}]) in
      do err <- PodsCreate ctx testNamespace pod;
      match err with
      | Some e =>
          if IsAlreadyExists e then next
          else ret (Err (Errorf_w ("failed to create pod on node "
                                     +:+ corev1.Node_Name node +:+ ": ") e))
      | None => next
      end
  end.

Definition CreateTestPods (ctx : context) (nodes : list corev1.Node)
  : M (result (list TestPod)) :=
  CreateTestPods_from ctx nodes [].

(** The loop over the container statuses in the readiness condition. *)
Fixpoint allContainersReady (css : list corev1.ContainerStatus) : bool :=
  match css with
  | [] => true
  | cs :: rest => if negb (corev1.Ready cs) then false else allContainersReady rest
  end.

(** The condition closure of [WaitForPodsReady]; it captures [pod]. *)
Definition podReadyCond (ctx : context) (pod : TestPod)
  : M (bool * option error * TestPod) :=
  do r <- PodsGet ctx testNamespace (Name pod);
  match r with
  | Err _ => ret (false, None, pod)
  | Ok p =>
      if negb (bool_decide (corev1.Phase (corev1.Pod_Status p) = corev1.PodRunning))
      then ret (false, None, pod)
      else if negb (allContainersReady
                      (corev1.ContainerStatuses (corev1.Pod_Status p)))
      then ret (false, None, pod)
      else ret (true, None,
                {| Name := Name pod; NodeName := NodeName pod;
                   PodIP := corev1.PodIP (corev1.Pod_Status p) |})
  end.

(** The loop of [WaitForPodsReady]: one deadline for all pods, polls two
    seconds apart.  The slice is updated in place; the updated slice is
    returned next to the error. *)
Fixpoint WaitForPodsReady_from (timeoutCtx : context) (pods : list TestPod)
         (ticks : nat) : M (option error * list TestPod) :=
  match pods with
  | [] => ret (None, [])
  | pod :: rest =>
      do (err, pod1, ticks1) <-
        pollUntil timeoutCtx ticks true (podReadyCond timeoutCtx) pod;
      match err with
      | Some e =>
          ret (Some (Errorf_w ("pod " +:+ Name pod1
                                 +:+ " failed to become ready: ") e),
               pod1 :: rest)
      | None =>
          do (err1, rest1) <- WaitForPodsReady_from timeoutCtx rest ticks1;
          ret (err1, pod1 :: rest1)
      end
  end.

Definition WaitForPodsReady (ctx : context) (pods : list TestPod)
           (timeout : nat) : M (option error * list TestPod) :=
  let timeoutCtx := ctx_WithTimeout ctx timeout in
  WaitForPodsReady_from timeoutCtx pods (timeout / 2).

Definition CleanupTestPods (ctx : context) : M (option error) :=
  let propagation := DeletePropagationForeground in
  do err <- NamespacesDelete ctx testNamespace propagation;
  match err with
  | Some e =>
      if negb (IsNotFound e)
      then ret (Some (Errorf_w "failed to delete namespace: " e))
      else ret None
  | None =>
      do _ <- pollUntil (ctx_WithTimeout ctx 30) (30 / 1) true
             (fun _ : unit =>
                do err1 <- NamespacesGet (ctx_WithTimeout ctx 30) testNamespace;
                ret (match err1 with Some e1 => IsNotFound e1 | None => false end,
                     None, tt))
             tt;
      ret None
  end.

(** The second of sleep that ends [StartListeners] is not modelled. *)
Definition StartListeners (ctx : context) (pods : list TestPod) : M unit :=
  for_range pods
    (fun pod _ =>
       let cmd := ["sh"; "-c"; "nc -l -p " +:+ pretty testListenPort +:+ " &"] in
       do _ <- ExecInPod ctx (Name pod) testNamespace cmd;
       ret tt)
    tt.

(** *** tests.go *)

Definition TestCoreDNSConnectivity (ctx : context) (pod : TestPod)
           (dnsIPs : list string) : M (list TestResult) :=
  for_range dnsIPs
    (fun ip results =>
       let cmd := ["nc"; "-z"; "-w"; "3"; ip; "53"] in
       do (_, _, err) <- ExecInPod ctx (Name pod) testNamespace cmd;
       let result := {| SourceNode := NodeName pod;
                        SourcePod := Name pod;
                        TestType := "coredns";
                        Target := ip +:+ ":53";
                        Success := bool_decide (err = None);
                        Error := match err with
                                 | Some e => err_Error e
                                 | None => ""
                                 end |} in
       ret (results ++ [result]))
    [].

Definition TestDNSResolution (ctx : context) (pod : TestPod) : M TestResult :=
  let cmd := ["nslookup"; "github.com"] in
  do (_, _, err) <- ExecInPod ctx (Name pod) testNamespace cmd;
  let result := {| SourceNode := NodeName pod;
                   SourcePod := Name pod;
                   TestType := "dns";
                   Target := "github.com";
                   Success := bool_decide (err = None);
                   Error := match err with
                            | Some e => err_Error e
                            | None => ""
                            end |} in
  ret result.

Definition TestExternalTCP (ctx : context) (pod : TestPod) : M TestResult :=
  let cmd := ["nc"; "-z"; "-w"; "5"; "github.com"; "443"] in
  do (_, _, err) <- ExecInPod ctx (Name pod) testNamespace cmd;
  let result := {| SourceNode := NodeName pod;
                   SourcePod := Name pod;
                   TestType := "external-tcp";
                   Target := "github.com:443";
                   Success := bool_decide (err = None);
                   Error := match err with
                            | Some e => err_Error e
                            | None => ""
                            end |} in
  ret result.

(** The entries of [nodeIPs] are visited in an order the runtime picks. *)
Definition TestKubeletConnectivity (ctx : context) (pod : TestPod)
           (nodeIPs : gmap string string) : M (list TestResult) :=
  do entries <- runtimeOrder (map_to_list nodeIPs);
  for_range entries
    (fun '(nodeName, nodeIP) results =>
       if bool_decide (nodeName = NodeName pod) then ret results
       else
         let cmd := ["nc"; "-z"; "-w"; "3"; nodeIP; "10250"] in
         do (_, _, err) <- ExecInPod ctx (Name pod) testNamespace cmd;
         let result := {| SourceNode := NodeName pod;
                          SourcePod := Name pod;
                          TestType := "kubelet";
                          Target := nodeIP +:+ ":10250 (" +:+ nodeName +:+ ")";
                          Success := bool_decide (err = None);
                          Error := match err with
                                   | Some e => err_Error e
                                   | None => ""
                                   end |} in
         ret (results ++ [result]))
    [].

Definition TestPodToPod (ctx : context) (sourcePod : TestPod)
           (allPods : list TestPod) : M (list TestResult) :=
  for_range allPods
    (fun targetPod results =>
       if bool_decide (Name targetPod = Name sourcePod) then ret results
       else
         let cmd := ["nc"; "-z"; "-w"; "3"; PodIP targetPod;
                     pretty testListenPort] in
         do (_, _, err) <- ExecInPod ctx (Name sourcePod) testNamespace cmd;
         let result := {| SourceNode := NodeName sourcePod;
                          SourcePod := Name sourcePod;
                          TestType := "pod-to-pod";
                          Target := PodIP targetPod +:+ ":"
                                    +:+ pretty testListenPort
                                    +:+ " (" +:+ NodeName targetPod +:+ ")";
                          Success := bool_decide (err = None);
                          Error := match err with
                                   | Some e => err_Error e
                                   | None => ""
                                   end |} in
         ret (results ++ [result]))
    [].

(** *** network.go *)

(** The loop over the service names of [DiscoverCoreDNSPods]; the flag
    tells whether the loop returned from the function. *)
Fixpoint discoverViaServices (ctx : context) (serviceNames : list string)
         (dnsIPs : list string) : M (bool * list string) :=
  match serviceNames with
  | [] => ret (false, dnsIPs)
  | name :: rest =>
      do r <- EndpointsGet ctx "kube-system" name;
      match r with
      | Err _ => discoverViaServices ctx rest dnsIPs
      | Ok endpoints =>
          let dnsIPs := appendEndpointIPs dnsIPs endpoints in
          if 0 <? length dnsIPs then ret (true, dnsIPs)
          else discoverViaServices ctx rest dnsIPs
      end
  end.

Definition DiscoverCoreDNSPods (ctx : context) : M (result (list string)) :=
  let serviceNames := ["kube-dns"; "coredns"; "rke2-coredns-rke2-coredns"] in
  do (returned, dnsIPs) <- discoverViaServices ctx serviceNames [];
  if returned : bool then ret (Ok dnsIPs)
  else
    do r <- PodsList ctx "kube-system";
    match r with
    | Err e => ret (Err (Errorf_w "failed to list kube-system pods: " e))
    | Ok pods =>
        let dnsIPs := appendDNSPodIPs dnsIPs pods in
        if length dnsIPs =? 0 then ret (Err (Errorf "no CoreDNS pods found"))
        else ret (Ok dnsIPs)
    end.

Definition RunPodTests (ctx : context) (pod : TestPod)
           (coreDNSIPs : list string) (nodeIPs : gmap string string)
           (allPods : list TestPod) : M (list TestResult) :=
  let results := [] in
  do r <- TestCoreDNSConnectivity ctx pod coreDNSIPs;
  let results := results ++ r in
  do r <- TestDNSResolution ctx pod;
  let results := results ++ [r] in
  do r <- TestExternalTCP ctx pod;
  let results := results ++ [r] in
  do r <- TestKubeletConnectivity ctx pod nodeIPs;
  let results := results ++ r in
  do r <- TestPodToPod ctx pod allPods;
  let results := results ++ r in
  ret results.

(** One goroutine per pod; each appends its results under the mutex when
    it is done.  The goroutines share nothing else, so a run is given by
    the order in which they get to append, which the runtime picks; the
    probes of a goroutine are run when its turn comes. *)
Definition RunAllTests (ctx : context) (pods : list TestPod)
           (coreDNSIPs : list string) (nodeIPs : gmap string string)
  : M (list TestResult) :=
  do order <- runtimeOrder pods;
  for_range order
    (fun p results =>
       do podResults <- RunPodTests ctx p coreDNSIPs nodeIPs pods;
       ret (results ++ podResults))
    [].

(** [Run] from the [defer] on: what the deferred cleanup guards. *)
Definition Run_guarded (ctx : context) (readyNodes : list corev1.Node)
           (testPods : list TestPod) (report : NetworkTestReport)
  : M (result NetworkTestReport) :=
  do (err, testPods) <- WaitForPodsReady ctx testPods 90;
  match err with
  | Some e => ret (Err (Errorf_w "pods failed to become ready: " e))
  | None =>
      let report := {| Timestamp := Timestamp report;
                       NodeCount := NodeCount report;
                       PodCount := len testPods;
                       TestResults := TestResults report;
                       Summary := Summary report |} in
      do r <- DiscoverCoreDNSPods ctx;
      let coreDNSIPs := match r with Ok ips => ips | Err _ => [] end in
      let nodeIPs := GetNodeInternalIPs readyNodes in
      do _ <- StartListeners ctx testPods;
      do results <- RunAllTests ctx testPods coreDNSIPs nodeIPs;
      let report := {| Timestamp := Timestamp report;
                       NodeCount := NodeCount report;
                       PodCount := PodCount report;
                       TestResults := results;
                       Summary := fold_left tally results (Summary report) |} in
      ret (Ok report)
  end.

Definition Run (ctx : context) : M (result NetworkTestReport) :=
  do now <- Now;
  let report := {| Timestamp := now; NodeCount := 0; PodCount := 0;
                   TestResults := [];
                   Summary := {| Total := 0; Passed := 0; Failed := 0 |} |} in
  do err <- EnsureNamespace ctx;
  match err with
  | Some e => ret (Err (Errorf_w "failed to create namespace: " e))
  | None =>
      do _ <- CleanupTestPods ctx;
      do r <- NodesList ctx;
      match r with
      | Err e => ret (Err (Errorf_w "failed to list nodes: " e))
      | Ok nodes =>
          let readyNodes := filterReadyNodes nodes in
          let report := {| Timestamp := Timestamp report;
                           NodeCount := len readyNodes;
                           PodCount := PodCount report;
                           TestResults := TestResults report;
                           Summary := Summary report |} in
          if (len readyNodes =? 0)%Z
          then ret (Err (Errorf "no ready nodes found in cluster"))
          else
            do r <- CreateTestPods ctx readyNodes;
            match r with
            | Err e =>
                do _ <- CleanupTestPods ctx;
                ret (Err (Errorf_w "failed to create test pods: " e))
            | Ok testPods =>
                do r <- Run_guarded ctx readyNodes testPods report;
                let cleanupCtx := ctx_WithTimeout ctx_Background 30 in
                do _ <- CleanupTestPods cleanupCtx;
                ret r
            end
      end
  end.

End Nettest.

Arguments St W : clear implicits.
Arguments M W A : clear implicits.

(** ** pkg/probe/result.go *)

Module probe.

(** [type Severity int], with the constants of the [iota] block. *)
Definition SeverityOK : Z := 0.
Definition SeverityWarning : Z := 1.
Definition SeverityCritical : Z := 2.

Definition Severity_String (s : Z) : string :=
  if (s =? SeverityOK)%Z then "OK"
  else if (s =? SeverityWarning)%Z then "WARNING"
  else if (s =? SeverityCritical)%Z then "CRITICAL"
  else "UNKNOWN".

Record Result := {
  CheckName : string;
  Severity : Z;
  Message : string;
  Details : list string;
  Remediation : string }.

Record CheckResult := {
  Check_Name : string;
  Tier : Z;
  Results : list Result }.

Definition MaxSeverity (cr : CheckResult) : Z :=
  fold_left (fun max r => if (max <? Severity r)%Z then Severity r else max)
            (Results cr) SeverityOK.

End probe.

(** ** cmd: what the caller does with the report of [Run] *)

Definition ExitOK : Z := 0.
Definition ExitWarning : Z := 1.
Definition ExitCritical : Z := 2.
Definition ExitNoConnect : Z := 3.
Definition ExitInternalErr : Z := 4.

Definition getNetworkRemediation (testType : string) : string :=
  if bool_decide (testType = "coredns")
  then "Check CoreDNS pod status and network policies: kubectl get pods -n kube-system -l k8s-app=kube-dns"
  else if bool_decide (testType = "dns")
  then "Verify DNS resolution works and external DNS is reachable"
  else if bool_decide (testType = "external-tcp")
  then "Check firewall rules and network egress policies for external connectivity"
  else if bool_decide (testType = "kubelet")
  then "Verify node-to-node connectivity and firewall rules allow port 10250"
  else if bool_decide (testType = "pod-to-pod")
  then "Check CNI plugin status and network policies between namespaces"
  else "Check network configuration and policies".

Definition typeNames : gmap string string :=
  list_to_map [("coredns", "CoreDNS Connectivity");
               ("dns", "DNS Resolution");
               ("external-tcp", "External TCP Connectivity");
               ("kubelet", "Kubelet Connectivity");
               ("pod-to-pod", "Pod-to-Pod Connectivity")].

Definition typeOrder : list string :=
  ["coredns"; "dns"; "external-tcp"; "kubelet"; "pod-to-pod"].

(** [byType[tr.TestType] = append(byType[tr.TestType], tr)] for every
    result; a missing key reads as the empty slice. *)
Definition groupByType (results : list TestResult) : gmap string (list TestResult) :=
  fold_left
    (fun byType tr =>
       <[TestType tr := default [] (byType !! TestType tr) ++ [tr]]> byType)
    results ∅.

(** The loop over the results of one type: the two counters and the
    check being filled. *)
Definition checkOutcome (testType : string)
           (acc : Z * Z * probe.CheckResult) (tr : TestResult)
  : Z * Z * probe.CheckResult :=
  let '(passed, failed, checkResult) := acc in
  if Success tr then (wrap64 (passed + 1), failed, checkResult)
  else
    (passed, wrap64 (failed + 1),
     {| probe.Check_Name := probe.Check_Name checkResult;
        probe.Tier := probe.Tier checkResult;
        probe.Results :=
          probe.Results checkResult
          ++ [{| probe.CheckName := probe.Check_Name checkResult;
                 probe.Severity := probe.SeverityCritical;
                 probe.Message :=
                   default "" (typeNames !! testType) +:+ ": "
                   +:+ SourceNode tr +:+ " -> " +:+ Target tr +:+ " failed";
                 probe.Details := [Error tr];
                 probe.Remediation := getNetworkRemediation testType |}] |}).

Definition convertNetworkReport (r : NetworkTestReport) : list probe.CheckResult :=
  let byType := groupByType (TestResults r) in
  fold_left
    (fun results testType =>
       match byType !! testType with
       | None => results
       | Some typeResults =>
           let checkResult :=
             {| probe.Check_Name := "network-test-" +:+ testType;
                probe.Tier := 4;
                probe.Results := [] |} in
           let '(passed, failed, checkResult) :=
             fold_left (checkOutcome testType) typeResults (0%Z, 0%Z, checkResult) in
           let checkResult :=
             if (failed =? 0)%Z && (0 <? passed)%Z
             then {| probe.Check_Name := probe.Check_Name checkResult;
                     probe.Tier := probe.Tier checkResult;
                     probe.Results :=
                       probe.Results checkResult
                       ++ [{| probe.CheckName := probe.Check_Name checkResult;
                              probe.Severity := probe.SeverityOK;
                              probe.Message :=
                                default "" (typeNames !! testType) +:+ ": "
                                +:+ pretty passed +:+ "/" +:+ pretty passed
                                +:+ " tests passed";
                              probe.Details := [];
                              probe.Remediation := "" |}] |}
             else checkResult in
           results ++ [checkResult]
       end)
    typeOrder [].

(** [runNetworkTest] from the call of [Run] on: the exit status, given
    what [Run] returned and whether writing the report failed. *)
Definition runNetworkTest_exit (runResult : result NetworkTestReport)
           (writeErr : option error) : Z :=
  match runResult with
  | Err _ => ExitInternalErr
  | Ok testReport =>
      match writeErr with
      | Some _ => ExitInternalErr
      | None =>
          if (0 <? Failed (Summary testReport))%Z then ExitCritical else ExitOK
      end
  end.

(** ** An in-memory cluster

    A reference behaviour of the API server for the objects the package
    touches, in the manner of client-go's fake clientset, with the
    namespace life cycle of a real cluster: a deleted namespace is
    Terminating until its content is gone, then absent; pods can be
    created only in an Active namespace.  Contexts are never cancelled. *)

Inductive NsPhase :=
| NsAbsent
| NsActive
| NsTerminating (pollsLeft : nat).

Record FakeCluster := {
  fc_namespace : NsPhase;          (* the namespace [testNamespace] *)
  fc_createDenied : bool;          (* the caller may not create namespaces *)
  fc_finalizeAfter : nat;          (* Gets a deleted namespace still answers *)
  fc_nodes : result (list corev1.Node);
  fc_pods : list corev1.Pod;       (* the pods of [testNamespace] *)
  fc_kubelet : string -> corev1.PodStatus;  (* status reported for a pod *)
  fc_endpoints : list (string * corev1.Endpoints);   (* of kube-system *)
  fc_systemPods : result (list corev1.Pod);          (* of kube-system *)
  fc_exec : string -> list string -> option error;   (* outcome of a command *)
  fc_now : Z }.

Definition fc_update (w : FakeCluster) (ns : NsPhase) (pods : list corev1.Pod)
  : FakeCluster :=
  {| fc_namespace := ns; fc_createDenied := fc_createDenied w;
     fc_finalizeAfter := fc_finalizeAfter w; fc_nodes := fc_nodes w;
     fc_pods := pods; fc_kubelet := fc_kubelet w;
     fc_endpoints := fc_endpoints w; fc_systemPods := fc_systemPods w;
     fc_exec := fc_exec w; fc_now := fc_now w |}.

Definition apiError (reason : StatusReason) (text : string) : error :=
  {| err_Error := text; err_Reason := reason |}.

Definition fc_Namespaces_Create (ns : corev1.Namespace) (w : FakeCluster)
  : option error * FakeCluster :=
  if fc_createDenied w
  then (Some (apiError ReasonForbidden "namespaces is forbidden"), w)
  else if negb (bool_decide (corev1.Namespace_Name ns = testNamespace))
  then (None, w)
  else match fc_namespace w with
       | NsAbsent => (None, fc_update w NsActive (fc_pods w))
       | _ => (Some (apiError ReasonAlreadyExists "namespace already exists"), w)
       end.

Definition fc_Namespaces_Delete (name : string) (w : FakeCluster)
  : option error * FakeCluster :=
  if negb (bool_decide (name = testNamespace))
  then (Some (apiError ReasonNotFound "namespace not found"), w)
  else match fc_namespace w with
       | NsAbsent => (Some (apiError ReasonNotFound "namespace not found"), w)
       | NsActive =>
           (None, fc_update w (NsTerminating (fc_finalizeAfter w)) (fc_pods w))
       | NsTerminating k => (None, w)
       end.

Definition fc_Namespaces_Get (name : string) (w : FakeCluster)
  : option error * FakeCluster :=
  if negb (bool_decide (name = testNamespace))
  then (Some (apiError ReasonNotFound "namespace not found"), w)
  else match fc_namespace w with
       | NsAbsent => (Some (apiError ReasonNotFound "namespace not found"), w)
       | NsActive => (None, w)
       | NsTerminating O =>
           (Some (apiError ReasonNotFound "namespace not found"),
            fc_update w NsAbsent [])
       | NsTerminating (S k) => (None, fc_update w (NsTerminating k) (fc_pods w))
       end.

Definition fc_findPod (name : string) (pods : list corev1.Pod)
  : option corev1.Pod :=
  find (fun p => bool_decide (corev1.Pod_Name p = name)) pods.

Definition fc_Pods_Create (namespace : string) (pod : corev1.Pod)
           (w : FakeCluster) : option error * FakeCluster :=
  if negb (bool_decide (namespace = testNamespace))
  then (Some (apiError ReasonNotFound "namespace not found"), w)
  else match fc_namespace w with
       | NsAbsent => (Some (apiError ReasonNotFound "namespace not found"), w)
       | NsTerminating _ =>
           (Some (apiError ReasonForbidden "namespace is being terminated"), w)
       | NsActive =>
           match fc_findPod (corev1.Pod_Name pod) (fc_pods w) with
           | Some _ => (Some (apiError ReasonAlreadyExists "pod already exists"), w)
           | None =>
               let stored :=
                 {| corev1.Pod_Name := corev1.Pod_Name pod;
                    corev1.Pod_Namespace := corev1.Pod_Namespace pod;
                    corev1.Pod_Labels := corev1.Pod_Labels pod;
                    corev1.Spec := corev1.Spec pod;
                    corev1.Pod_Status := fc_kubelet w (corev1.Pod_Name pod) |} in
               (None, fc_update w NsActive (fc_pods w ++ [stored]))
           end
       end.

Definition fc_Pods_Get (namespace name : string) (w : FakeCluster)
  : result corev1.Pod * FakeCluster :=
  if negb (bool_decide (namespace = testNamespace))
  then (Err (apiError ReasonNotFound "pod not found"), w)
  else match fc_findPod name (fc_pods w) with
       | Some p => (Ok p, w)
       | None => (Err (apiError ReasonNotFound "pod not found"), w)
       end.

Definition fc_Pods_List (namespace : string) (w : FakeCluster)
  : result (list corev1.Pod) * FakeCluster :=
  if bool_decide (namespace = "kube-system") then (fc_systemPods w, w)
  else if bool_decide (namespace = testNamespace) then (Ok (fc_pods w), w)
  else (Ok [], w).

Definition fc_Endpoints_Get (namespace name : string) (w : FakeCluster)
  : result corev1.Endpoints * FakeCluster :=
  match
    (if bool_decide (namespace = "kube-system")
     then find (fun e => bool_decide (fst e = name)) (fc_endpoints w)
     else None)
  with
  | Some e => (Ok (snd e), w)
  | None => (Err (apiError ReasonNotFound "endpoints not found"), w)
  end.

#[global] Instance FakeCluster_Env : Env FakeCluster := {|
  Namespaces_Create := fun _ => fc_Namespaces_Create;
  Namespaces_Delete := fun _ name _ => fc_Namespaces_Delete name;
  Namespaces_Get := fun _ => fc_Namespaces_Get;
  Nodes_List := fun _ w => (fc_nodes w, w);
  Pods_Create := fun _ => fc_Pods_Create;
  Pods_Get := fun _ => fc_Pods_Get;
  Pods_List := fun _ => fc_Pods_List;
  Endpoints_Get := fun _ => fc_Endpoints_Get;
  Exec_In_Pod := fun _ podName _ cmd w => (("", "", fc_exec w podName cmd), w);
  time_Now := fun w => (fc_now w, w);
  Context_Wait := fun _ w => (None, w) |}.

Definition start {W} (w : W) (choices : list nat) : St W :=
  {| world := w; trace := []; sched := choices |}.

(** Some clusters. *)

Definition readyNode (name ip : string) : corev1.Node :=
  {| corev1.Node_Name := name;
     corev1.Node_Conditions :=
       [{| corev1.Type_ := "MemoryPressure"; corev1.Status := "False" |};
        {| corev1.Type_ := corev1.NodeReady; corev1.Status := corev1.ConditionTrue |}];
     corev1.Node_Addresses :=
       [{| corev1.AddrType := "Hostname"; corev1.Address := name |};
        {| corev1.AddrType := corev1.NodeInternalIP; corev1.Address := ip |}] |}.

Definition runningStatus (ip : string) : corev1.PodStatus :=
  {| corev1.Phase := corev1.PodRunning;
     corev1.ContainerStatuses := [{| corev1.Ready := true |}];
     corev1.PodIP := ip |}.

Definition kubeDNS : corev1.Endpoints :=
  {| corev1.Subsets :=
       [{| corev1.Addresses := [{| corev1.IP := "10.42.0.2" |};
                                {| corev1.IP := "10.42.1.2" |}] |}] |}.

Definition twoNodes : list corev1.Node :=
  [readyNode "node-a" "192.168.0.1"; readyNode "node-b" "192.168.0.2"].

(** Two ready nodes, cluster DNS behind the kube-dns service, no
    diagnostic namespace left over, every probe succeeds. *)
Definition freshCluster : FakeCluster :=
  {| fc_namespace := NsAbsent;
     fc_createDenied := false;
     fc_finalizeAfter := 2;
     fc_nodes := Ok twoNodes;
     fc_pods := [];
     fc_kubelet := fun name => runningStatus ("10.1.0." +:+ name);
     fc_endpoints := [("kube-dns", kubeDNS)];
     fc_systemPods := Ok [];
     fc_exec := fun _ _ => None;
     fc_now := 1700000000 |}.

(** The same cluster for a caller that may not create namespaces. *)
Definition deniedCluster : FakeCluster :=
  {| fc_namespace := NsAbsent;
     fc_createDenied := true;
     fc_finalizeAfter := 2;
     fc_nodes := Ok twoNodes;
     fc_pods := [];
     fc_kubelet := fun name => runningStatus ("10.1.0." +:+ name);
     fc_endpoints := [("kube-dns", kubeDNS)];
     fc_systemPods := Ok [];
     fc_exec := fun _ _ => None;
     fc_now := 1700000000 |}.

(** A cluster whose diagnostic namespace is active, without any
    cluster-DNS service or pod; connections to a node agent fail. *)
Definition noDNSCluster : FakeCluster :=
  {| fc_namespace := NsActive;
     fc_createDenied := false;
     fc_finalizeAfter := 2;
     fc_nodes := Ok twoNodes;
     fc_pods := [];
     fc_kubelet := fun name => runningStatus ("10.1.0." +:+ name);
     fc_endpoints := [];
     fc_systemPods := Ok [];
     fc_exec := fun _ cmd =>
                  if bool_decide (last cmd = Some "10250")
                  then Some (apiError ReasonUnknown
                                      "command terminated with exit code 1")
                  else None;
     fc_now := 1700000000 |}.

(** A cluster in which the pod of node-a is Running and reports neither
    container statuses nor an IP. *)
Definition barePod : corev1.Pod :=
  {| corev1.Pod_Name := "nettest-node-a";
     corev1.Pod_Namespace := testNamespace;
     corev1.Pod_Labels := [];
     corev1.Spec := {| corev1.NodeName := "node-a";
                       corev1.RestartPolicy := corev1.RestartPolicyNever;
                       corev1.Containers := [];
                       corev1.Tolerations := [] |};
     corev1.Pod_Status := {| corev1.Phase := corev1.PodRunning;
                             corev1.ContainerStatuses := [];
                             corev1.PodIP := "" |} |}.

Definition barePodCluster : FakeCluster :=
  {| fc_namespace := NsActive;
     fc_createDenied := false;
     fc_finalizeAfter := 2;
     fc_nodes := Ok twoNodes;
     fc_pods := [barePod];
     fc_kubelet := fun name => runningStatus ("10.1.0." +:+ name);
     fc_endpoints := [];
     fc_systemPods := Ok [];
     fc_exec := fun _ _ => None;
     fc_now := 1700000000 |}.

(** The in-memory cluster seen by a caller that may not delete
    namespaces: every other call is passed on. *)
Record KeptCluster := { kept : FakeCluster }.

Definition keep {A} (op : FakeCluster -> A * FakeCluster) (w : KeptCluster)
  : A * KeptCluster :=
  let '(a, w1) := op (kept w) in (a, {| kept := w1 |}).

#[global] Instance KeptCluster_Env : Env KeptCluster := {|
  Namespaces_Create := fun ctx ns => keep (Namespaces_Create ctx ns);
  Namespaces_Delete := fun _ _ _ w =>
    (Some (apiError ReasonForbidden "namespaces is forbidden"), w);
  Namespaces_Get := fun ctx name => keep (Namespaces_Get ctx name);
  Nodes_List := fun ctx => keep (Nodes_List ctx);
  Pods_Create := fun ctx namespace pod => keep (Pods_Create ctx namespace pod);
  Pods_Get := fun ctx namespace name => keep (Pods_Get ctx namespace name);
  Pods_List := fun ctx namespace => keep (Pods_List ctx namespace);
  Endpoints_Get := fun ctx namespace name => keep (Endpoints_Get ctx namespace name);
  Exec_In_Pod := fun ctx podName namespace cmd =>
    keep (Exec_In_Pod ctx podName namespace cmd);
  time_Now := keep time_Now;
  Context_Wait := fun ctx => keep (Context_Wait ctx) |}.

(** A cluster whose kube-dns service has an Endpoints object without any
    address, no other DNS service, a cluster-DNS pod that is not running
    and a running pod that is no DNS pod. *)
Definition systemPod (name phase ip : string) : corev1.Pod :=
  {| corev1.Pod_Name := name;
     corev1.Pod_Namespace := "kube-system";
     corev1.Pod_Labels := [];
     corev1.Spec := {| corev1.NodeName := "node-a";
                       corev1.RestartPolicy := "Always";
                       corev1.Containers := [];
                       corev1.Tolerations := [] |};
     corev1.Pod_Status := {| corev1.Phase := phase;
                             corev1.ContainerStatuses := [];
                             corev1.PodIP := ip |} |}.

Definition emptyDNSCluster : FakeCluster :=
  {| fc_namespace := NsActive;
     fc_createDenied := false;
     fc_finalizeAfter := 2;
     fc_nodes := Ok twoNodes;
     fc_pods := [];
     fc_kubelet := fun name => runningStatus ("10.1.0." +:+ name);
     fc_endpoints := [("kube-dns", {| corev1.Subsets :=
                                        [{| corev1.Addresses := [] |}] |})];
     fc_systemPods := Ok [systemPod "coredns-5d78c9869d-abcde" "Pending" "";
                          systemPod "metrics-server-0" corev1.PodRunning
                                    "10.42.0.9"];
     fc_exec := fun _ _ => None;
     fc_now := 1700000000 |}.

(** Two ready nodes that report the same internal IP. *)
Definition sameIPNodes : list corev1.Node :=
  [readyNode "node-a" "10.0.0.1"; readyNode "node-b" "10.0.0.1"].

(** The in-memory cluster seen by a caller whose context has been
    cancelled: every wait of a poll ends at once with [Canceled], and
    the reads of a pod fail with it. *)
Record CancelledCluster := { cancelled : FakeCluster }.

Definition abandon {A} (op : FakeCluster -> A * FakeCluster)
           (w : CancelledCluster) : A * CancelledCluster :=
  let '(a, w1) := op (cancelled w) in (a, {| cancelled := w1 |}).

#[global] Instance CancelledCluster_Env : Env CancelledCluster := {|
  Namespaces_Create := fun ctx ns => abandon (Namespaces_Create ctx ns);
  Namespaces_Delete := fun ctx name prop => abandon (Namespaces_Delete ctx name prop);
  Namespaces_Get := fun ctx name => abandon (Namespaces_Get ctx name);
  Nodes_List := fun ctx => abandon (Nodes_List ctx);
  Pods_Create := fun ctx namespace pod => abandon (Pods_Create ctx namespace pod);
  Pods_Get := fun _ _ _ w => (Err Canceled, w);
  Pods_List := fun ctx namespace => abandon (Pods_List ctx namespace);
  Endpoints_Get := fun ctx namespace name => abandon (Endpoints_Get ctx namespace name);
  Exec_In_Pod := fun ctx podName namespace cmd =>
    abandon (Exec_In_Pod ctx podName namespace cmd);
  time_Now := abandon time_Now;
  Context_Wait := fun _ w => (Some Canceled, w) |}.

(** A run on two ready nodes without cluster DNS, the kubelet ports
    closed, by a caller that may not delete namespaces. *)
Definition keptStart : St KeptCluster :=
  start {| kept := noDNSCluster |} [1; 0; 1].

(** A report with a passed test, a failed one and one of a type the
    caller does not know. *)
Definition mixedReport : NetworkTestReport :=
  {| Timestamp := 0; NodeCount := 1; PodCount := 1;
     TestResults :=
       [{| SourceNode := "node-a"; SourcePod := "nettest-node-a";
           TestType := "dns"; Target := "github.com";
           Success := true; Error := "" |};
        {| SourceNode := "node-a"; SourcePod := "nettest-node-a";
           TestType := "kubelet"; Target := "192.168.0.2:10250 (node-b)";
           Success := false; Error := "connection refused" |};
        {| SourceNode := "node-a"; SourcePod := "nettest-node-a";
           TestType := "icmp"; Target := "192.168.0.2";
           Success := false; Error := "timeout" |}];
     Summary := {| Total := 3; Passed := 1; Failed := 2 |} |}.

(** The name of a call, for reading traces. *)
Definition callName (c : Call) : string :=
  match c with
  | CallNamespacesCreate _ => "Namespaces.Create"
  | CallNamespacesDelete _ _ => "Namespaces.Delete"
  | CallNamespacesGet _ => "Namespaces.Get"
  | CallNodesList => "Nodes.List"
  | CallPodsCreate _ _ => "Pods.Create"
  | CallPodsGet _ _ => "Pods.Get"
  | CallPodsList _ => "Pods.List"
  | CallEndpointsGet _ _ => "Endpoints.Get"
  | CallExecInPod _ _ _ => "ExecInPod"
  end.

Definition outcome (e : Event) : string * option StatusReason :=
  (callName (ev_call e), option_map err_Reason (ev_err e)).

Definition isNamespacesDelete (e : Event) : bool :=
  match ev_call e with CallNamespacesDelete _ _ => true | _ => false end.

Definition isCreate (e : Event) : bool :=
  match ev_call e with
  | CallNamespacesCreate _ | CallPodsCreate _ _ => true
  | _ => false
  end.

(** ** Vocabulary of the statements *)

(** The bytes allowed in a derived pod name: [a-z0-9-]. *)
Definition isPodNameByte (c : ascii) : bool :=
  existsb (Ascii.eqb c)
          (list_ascii_of_string "abcdefghijklmnopqrstuvwxyz0123456789-").

Fixpoint allBytes (P : ascii -> bool) (s : string) : bool :=
  match s with
  | EmptyString => true
  | String c rest => P c && allBytes P rest
  end.

(** The pod record [CreateTestPods] returns for a node. *)
Definition testPodFor (node : corev1.Node) : TestPod :=
  {| Name := podNameFor (corev1.Node_Name node);
     NodeName := corev1.Node_Name node;
     PodIP := "" |}.

(** A node condition saying Ready is True. *)
Definition isReadyTrue (cond : corev1.NodeCondition) : Prop :=
  corev1.Type_ cond = corev1.NodeReady
  /\ corev1.Status cond = corev1.ConditionTrue.

(** [sub] occurs in [s]. *)
Definition hasSubstring (sub s : string) : Prop :=
  exists pre post, s = pre +:+ sub +:+ post.

(** A kube-system pod the fallback scan of the DNS discovery takes: its
    name contains a DNS component, it is running and has an IP. *)
Definition isDNSPod (pod : corev1.Pod) : Prop :=
  (hasSubstring "coredns" (corev1.Pod_Name pod)
   \/ hasSubstring "kube-dns" (corev1.Pod_Name pod))
  /\ corev1.Phase (corev1.Pod_Status pod) = corev1.PodRunning
  /\ corev1.PodIP (corev1.Pod_Status pod) <> "".

Definition countSuccess (b : bool) (results : list TestResult) : Z :=
  len (List.filter (fun r => Bool.eqb (Success r) b) results).

(** ** Probes

    What a connectivity test does for one target: the command it runs in
    the source pod and the type and target text of the result. *)

Record Probe := { p_cmd : list string; p_type : string; p_target : string }.

Definition probeResult (pod : TestPod) (p : Probe) (err : option error)
  : TestResult :=
  {| SourceNode := NodeName pod;
     SourcePod := Name pod;
     TestType := p_type p;
     Target := p_target p;
     Success := bool_decide (err = None);
     Error := match err with Some e => err_Error e | None => "" end |}.

Definition execEvent (ctx : context) (pod : TestPod) (p : Probe)
           (err : option error) : Event :=
  {| ev_ctx := ctx;
     ev_call := CallExecInPod (Name pod) testNamespace (p_cmd p);
     ev_err := err |}.

Definition coreDNSProbe (ip : string) : Probe :=
  {| p_cmd := ["nc"; "-z"; "-w"; "3"; ip; "53"];
     p_type := "coredns";
     p_target := ip +:+ ":53" |}.

Definition dnsProbe : Probe :=
  {| p_cmd := ["nslookup"; "github.com"];
     p_type := "dns";
     p_target := "github.com" |}.

Definition tcpProbe : Probe :=
  {| p_cmd := ["nc"; "-z"; "-w"; "5"; "github.com"; "443"];
     p_type := "external-tcp";
     p_target := "github.com:443" |}.

Definition kubeletProbe (entry : string * string) : Probe :=
  {| p_cmd := ["nc"; "-z"; "-w"; "3"; entry.2; "10250"];
     p_type := "kubelet";
     p_target := entry.2 +:+ ":10250 (" +:+ entry.1 +:+ ")" |}.

Definition podProbe (target : TestPod) : Probe :=
  {| p_cmd := ["nc"; "-z"; "-w"; "3"; PodIP target; "8080"];
     p_type := "pod-to-pod";
     p_target := PodIP target +:+ ":8080 (" +:+ NodeName target +:+ ")" |}.

(** The node entries other than the pod's own node, and the pods other
    than the pod itself. *)
Definition otherNodes (pod : TestPod) (entries : list (string * string))
  : list (string * string) :=
  List.filter (fun e => negb (bool_decide (e.1 = NodeName pod))) entries.

Definition otherPods (pod : TestPod) (allPods : list TestPod) : list TestPod :=
  List.filter (fun t => negb (bool_decide (Name t = Name pod))) allPods.

(** The probes of one pod, in the order they are run, given the order
    [entries] in which the node map is visited. *)
Definition podProbes (pod : TestPod) (coreDNSIPs : list string)
           (entries : list (string * string)) (allPods : list TestPod)
  : list Probe :=
  map coreDNSProbe coreDNSIPs
  ++ [dnsProbe; tcpProbe]
  ++ map kubeletProbe (otherNodes pod entries)
  ++ map podProbe (otherPods pod allPods).

(** A trace in which the namespace was deleted and nothing was created
    since. *)
Fixpoint reclaimed (t : list Event) : bool :=
  match t with
  | [] => false
  | e :: rest =>
      isNamespacesDelete e && forallb (fun e1 => negb (isCreate e1)) rest
      || reclaimed rest
  end.

Definition isNamespacesCreate (e : Event) : bool :=
  match ev_call e with CallNamespacesCreate _ => true | _ => false end.

Definition isNamespacesGet (e : Event) : bool :=
  match ev_call e with CallNamespacesGet _ => true | _ => false end.

Definition isPodsCreate (e : Event) : bool :=
  match ev_call e with CallPodsCreate _ _ => true | _ => false end.

(** A creation the code goes on after: no error, or AlreadyExists. *)
Definition accepted (e : Event) : bool :=
  match ev_err e with
  | None => true
  | Some err => IsAlreadyExists err
  end.

Definition isOk {A} (r : result A) : bool :=
  match r with Ok _ => true | Err _ => false end.

(** [r] is the result of some probe of [pod]'s sequence. *)
Definition resultOf (pods : list TestPod) (coreDNSIPs : list string)
           (nodeIPs : gmap string string) (r : TestResult) : Prop :=
  exists pod choices probe err,
    In pod pods
    /\ In probe (podProbes pod coreDNSIPs
                           (shuffle choices (map_to_list nodeIPs)) pods)
    /\ r = probeResult pod probe err.

Definition createCall (node : corev1.Node) : Call :=
  CallPodsCreate testNamespace
                 (testPodObject node (podNameFor (corev1.Node_Name node))).

Definition getEvent ctx (pod : TestPod) (err : option error) : Event :=
  {| ev_ctx := ctx;
     ev_call := CallPodsGet testNamespace (Name pod);
     ev_err := err |}.

Definition withIP (pod : TestPod) (ip : string) : TestPod :=
  {| Name := Name pod; NodeName := NodeName pod; PodIP := ip |}.

Definition serviceNames : list string :=
  ["kube-dns"; "coredns"; "rke2-coredns-rke2-coredns"].

(** Nothing after [EnsureNamespace] creates a namespace. *)
Definition notNamespacesCreate (e : Event) : Prop := isNamespacesCreate e = false.

(** Statements about computations in [M]. *)

Section Vocabulary.

Context {W : Type} `{Env W}.
Implicit Types (st : St W) (ctx : context) (pod : TestPod).

(** The events a computation added to the trace. *)
Definition since (st st' : St W) : list Event :=
  drop (length (trace st)) (trace st').

Definition emits {A} (P : Event -> Prop) (m : M W A) : Prop :=
  forall st, exists evs,
    trace (m st).2 = trace st ++ evs /\ Forall P evs.

(** Run one probe from [pod] and append its result. *)
Definition runProbe ctx pod (p : Probe) (results : list TestResult)
  : M W (list TestResult) :=
  fun st =>
    let '(out, w) :=
      Exec_In_Pod ctx (Name pod) testNamespace (p_cmd p) (world st) in
    (results ++ [probeResult pod p out.2],
     {| world := w;
        trace := trace st ++ [execEvent ctx pod p out.2];
        sched := sched st |}).

(** [out] is what running [probes] from [pod] gives when started with
    results [acc] in state [st] and the commands end with [errs]. *)
Definition ran ctx pod (probes : list Probe) (errs : list (option error))
           (acc : list TestResult) st (out : list TestResult * St W) : Prop :=
  length errs = length probes
  /\ out.1 = acc ++ zip_with (probeResult pod) probes errs
  /\ trace out.2 = trace st ++ zip_with (execEvent ctx pod) probes errs.

End Vocabulary.

(** ** Vocabulary for the node-IP map and for the caller's checks *)

Definition isInternalIP (a : corev1.NodeAddress) : Prop :=
  corev1.AddrType a = corev1.NodeInternalIP.

(** The results of one test type, in the order of the report. *)
Definition ofType (ty : string) (results : list TestResult) : list TestResult :=
  List.filter (fun r => bool_decide (TestType r = ty)) results.

Definition hasType (ty : string) (results : list TestResult) : bool :=
  existsb (fun r => bool_decide (TestType r = ty)) results.

Definition failedTests (results : list TestResult) : list TestResult :=
  List.filter (fun r => negb (Success r)) results.

(** The entry a check gets for a failed test. *)
Definition failureOf (ty : string) (tr : TestResult) : probe.Result :=
  {| probe.CheckName := "network-test-" +:+ ty;
     probe.Severity := probe.SeverityCritical;
     probe.Message :=
       default "" (typeNames !! ty) +:+ ": "
       +:+ SourceNode tr +:+ " -> " +:+ Target tr +:+ " failed";
     probe.Details := [Error tr];
     probe.Remediation := getNetworkRemediation ty |}.

(** The entry a check gets when all [n] tests of its type passed. *)
Definition passedSummary (ty : string) (n : Z) : probe.Result :=
  {| probe.CheckName := "network-test-" +:+ ty;
     probe.Severity := probe.SeverityOK;
     probe.Message :=
       default "" (typeNames !! ty) +:+ ": "
       +:+ pretty n +:+ "/" +:+ pretty n +:+ " tests passed";
     probe.Details := [];
     probe.Remediation := "" |}.

(** The check for the tests [trs] of type [ty]: one critical entry per
    failed test, in order, or else the summary entry. *)
Definition checkFor (ty : string) (trs : list TestResult) : probe.CheckResult :=
  {| probe.Check_Name := "network-test-" +:+ ty;
     probe.Tier := 4;
     probe.Results :=
       map (failureOf ty) (failedTests trs)
       ++ (if forallb Success trs then [passedSummary ty (len trs)] else []) |}.

(** A read of the diagnostic namespace, and whether it found it gone. *)
Definition namespaceGet (ctx : context) (err : option error) : Event :=
  {| ev_ctx := ctx; ev_call := CallNamespacesGet testNamespace; ev_err := err |}.

Definition reportsNotFound (err : option error) : bool :=
  match err with Some e => IsNotFound e | None => false end.

(** The command [StartListeners] runs in a pod. *)
Definition listenerEvent (ctx : context) (pod : TestPod) (err : option error)
  : Event :=
  {| ev_ctx := ctx;
     ev_call := CallExecInPod (Name pod) testNamespace
                              ["sh"; "-c"; "nc -l -p 8080 &"];
     ev_err := err |}.

(** What identifies a result apart from its outcome, and the same for
    the probe of a pod it comes from. *)
Definition resultKey (r : TestResult) : string * string * string * string :=
  (SourcePod r, SourceNode r, TestType r, Target r).

Definition probeKey (pod : TestPod) (p : Probe)
  : string * string * string * string :=
  (Name pod, NodeName pod, p_type p, p_target p).

(** The context a context was derived from. *)
Fixpoint rootOf (c : context) : context :=
  match c with
  | ctx_WithTimeout parent _ => rootOf parent
  | _ => c
  end.

(** A read of the endpoints of a kube-system service. *)
Definition endpointsGet (ctx : context) (name : string) (err : option error)
  : Event :=
  {| ev_ctx := ctx; ev_call := CallEndpointsGet "kube-system" name;
     ev_err := err |}.

(** All the addresses of an Endpoints object, subset by subset. *)
Definition endpointIPs (ep : corev1.Endpoints) : list string :=
  flat_map (fun subset => map corev1.IP (corev1.Addresses subset))
           (corev1.Subsets ep).

(** An event whose context was derived from [ctx]'s root: ending that
    root ends the call. *)
Definition rooted (ctx : context) (e : Event) : Prop :=
  rootOf (ev_ctx e) = rootOf ctx.

Section Paths.

Context {W : Type} `{Env W}.

(** [cause] is the error of the context [c] when a poll under it gave
    up: the context's deadline, or what the environment reported when the
    context ended. *)
Definition contextEnded (c : context) (cause : error) : Prop :=
  cause = DeadlineExceeded \/ exists w, (Context_Wait c w).1 = Some cause.

(** The lookup of cluster DNS by service name, told from the answers of
    the API alone.  The endpoints of the names are read in order, each
    read from the world the one before left; the first answer that holds
    an address ends the lookup and gives all the addresses of that
    object; a read that fails or an answer without address moves on to
    the next name.  [ServiceLookup ctx names w errs found w'] : from the
    world [w] the reads gave the errors [errs], one per name read, found
    [found] and left the world [w']. *)
Inductive ServiceLookup (ctx : context)
  : list string -> W -> list (option error) -> option (list string) -> W -> Prop :=
| lookup_exhausted w :
    ServiceLookup ctx [] w [] None w
| lookup_found name rest w ep w1 :
    Endpoints_Get ctx "kube-system" name w = (Ok ep, w1) ->
    endpointIPs ep <> [] ->
    ServiceLookup ctx (name :: rest) w [None] (Some (endpointIPs ep)) w1
| lookup_no_address name rest w ep w1 errs found w2 :
    Endpoints_Get ctx "kube-system" name w = (Ok ep, w1) ->
    endpointIPs ep = [] ->
    ServiceLookup ctx rest w1 errs found w2 ->
    ServiceLookup ctx (name :: rest) w (None :: errs) found w2
| lookup_failed name rest w e w1 errs found w2 :
    Endpoints_Get ctx "kube-system" name w = (Err e, w1) ->
    ServiceLookup ctx rest w1 errs found w2 ->
    ServiceLookup ctx (name :: rest) w (Some e :: errs) found w2.

(** The paths through [Run]: where it returns and what each step
    before that returned. *)
Inductive RunPath (ctx : context) (st : St W) : result NetworkTestReport -> St W -> Prop :=
| path_namespace now s0 e s1 :
    Now st = (now, s0) ->
    EnsureNamespace ctx s0 = (Some e, s1) ->
    RunPath ctx st (Err (Errorf_w "failed to create namespace: " e)) s1
| path_list now s0 s1 c s2 e s3 :
    Now st = (now, s0) ->
    EnsureNamespace ctx s0 = (None, s1) ->
    CleanupTestPods ctx s1 = (c, s2) ->
    NodesList ctx s2 = (Err e, s3) ->
    RunPath ctx st (Err (Errorf_w "failed to list nodes: " e)) s3
| path_no_nodes now s0 s1 c s2 nodes s3 :
    Now st = (now, s0) ->
    EnsureNamespace ctx s0 = (None, s1) ->
    CleanupTestPods ctx s1 = (c, s2) ->
    NodesList ctx s2 = (Ok nodes, s3) ->
    filterReadyNodes nodes = [] ->
    RunPath ctx st (Err (Errorf "no ready nodes found in cluster")) s3
| path_create now s0 s1 c s2 nodes s3 e s4 c' s5 :
    Now st = (now, s0) ->
    EnsureNamespace ctx s0 = (None, s1) ->
    CleanupTestPods ctx s1 = (c, s2) ->
    NodesList ctx s2 = (Ok nodes, s3) ->
    filterReadyNodes nodes <> [] ->
    CreateTestPods ctx (filterReadyNodes nodes) s3 = (Err e, s4) ->
    CleanupTestPods ctx s4 = (c', s5) ->
    RunPath ctx st (Err (Errorf_w "failed to create test pods: " e)) s5
| path_guarded now s0 s1 c s2 nodes s3 pods0 s4 r s5 c' s6 :
    Now st = (now, s0) ->
    EnsureNamespace ctx s0 = (None, s1) ->
    CleanupTestPods ctx s1 = (c, s2) ->
    NodesList ctx s2 = (Ok nodes, s3) ->
    filterReadyNodes nodes <> [] ->
    CreateTestPods ctx (filterReadyNodes nodes) s3 = (Ok pods0, s4) ->
    Run_guarded ctx (filterReadyNodes nodes) pods0
                {| Timestamp := now;
                   NodeCount := len (filterReadyNodes nodes);
                   PodCount := 0; TestResults := [];
                   Summary := {| Total := 0; Passed := 0; Failed := 0 |} |}
                s4
    = (r, s5) ->
    CleanupTestPods (ctx_WithTimeout ctx_Background 30) s5 = (c', s6) ->
    RunPath ctx st r s6.

End Paths.

(** The critical entries of a list of checks, as the report shows them. *)
Definition criticalEntries (checks : list probe.CheckResult) : list probe.Result :=
  List.filter (fun r => (probe.Severity r =? probe.SeverityCritical)%Z)
              (flat_map probe.Results checks).

Definition defaultRemediation : string :=
  "Check network configuration and policies".

(** * Proofs *)

(** ** sanitizeNodeName *)

Lemma sanitizeByte_valid c : isPodNameByte (sanitizeByte c) = true.
Proof. destruct c as [[] [] [] [] [] [] [] []]; vm_compute; reflexivity. Qed.

Lemma sanitizeByte_fixes_valid c : isPodNameByte c = true -> sanitizeByte c = c.
Proof.
  destruct c as [[] [] [] [] [] [] [] []]; vm_compute;
    first [reflexivity | discriminate].
Qed.

Lemma sanitizeBytes_valid name : allBytes isPodNameByte (sanitizeBytes name) = true.
Proof.
  induction name as [|c rest IH]; simpl; [reflexivity|].
  rewrite sanitizeByte_valid, IH; reflexivity.
Qed.

Lemma sanitizeBytes_length name :
  String.length (sanitizeBytes name) = String.length name.
Proof. induction name as [|c rest IH]; simpl; congruence. Qed.

Lemma sanitizeBytes_fixes_valid name :
  allBytes isPodNameByte name = true -> sanitizeBytes name = name.
Proof.
  induction name as [|c rest IH]; simpl; [reflexivity|].
  intros [Hc Hrest]%andb_prop.
  rewrite (sanitizeByte_fixes_valid c Hc), (IH Hrest); reflexivity.
Qed.

Lemma allBytes_prefix P n s :
  allBytes P s = true -> allBytes P (substring 0 n s) = true.
Proof.
  revert n; induction s as [|c rest IH]; intros [|n] Hs; simpl; try reflexivity.
  simpl in Hs. apply andb_prop in Hs as [Hc Hrest].
  rewrite Hc; simpl. apply IH, Hrest.
Qed.

Lemma prefix_length n s :
  String.length (substring 0 n s) = Nat.min n (String.length s).
Proof.
  revert n; induction s as [|c rest IH]; intros [|n]; simpl; try reflexivity.
  rewrite IH; reflexivity.
Qed.

Lemma sanitizeNodeName_valid name :
  allBytes isPodNameByte (sanitizeNodeName name) = true.
Proof.
  unfold sanitizeNodeName.
  destruct (50 <? String.length (sanitizeBytes name)).
  - apply allBytes_prefix, sanitizeBytes_valid.
  - apply sanitizeBytes_valid.
Qed.

Lemma sanitizeNodeName_length name :
  String.length (sanitizeNodeName name) = Nat.min 50 (String.length name).
Proof.
  unfold sanitizeNodeName.
  destruct (Nat.ltb_spec 50 (String.length (sanitizeBytes name))) as [Hlt|Hle].
  - rewrite prefix_length, sanitizeBytes_length. reflexivity.
  - rewrite sanitizeBytes_length in *. lia.
Qed.

Lemma sanitizeNodeName_fixes_valid name :
  allBytes isPodNameByte name = true -> String.length name <= 50 ->
  sanitizeNodeName name = name.
Proof.
  intros Hvalid Hlen. unfold sanitizeNodeName.
  rewrite (sanitizeBytes_fixes_valid name Hvalid).
  destruct (Nat.ltb_spec 50 (String.length name)); [lia | reflexivity].
Qed.

Lemma append_inj_r (p a b : string) : p +:+ a = p +:+ b -> a = b.
Proof. induction p as [|c p IH]; simpl; [auto | intros [= E]; auto]. Qed.

(** C3, as the code has it: every derived name consists of bytes of
    [a-z0-9-] only and is at most 50 bytes long (the node name's length when
    that is smaller); upper-case letters become lower-case and a byte
    outside the set becomes a dash.  The derivation is not injective in
    general; it is on node names that are themselves made of [a-z0-9-] and
    at most 50 bytes long, which it leaves unchanged, so that distinct such
    nodes get distinct pod names. *)
Theorem sanitizeNodeName_valid_bounded :
  (forall name,
      allBytes isPodNameByte (sanitizeNodeName name) = true
      /\ String.length (sanitizeNodeName name)
         = Nat.min 50 (String.length name)
      /\ allBytes isPodNameByte (podNameFor name) = true)
  /\ sanitizeNodeName "ABCDEFGHIJKLMNOPQRSTUVWXYZ" = "abcdefghijklmnopqrstuvwxyz"
  /\ sanitizeNodeName "ip_10.0.0.1/x y" = "ip-10-0-0-1-x-y"
  /\ (forall a b,
         allBytes isPodNameByte a = true -> String.length a <= 50 ->
         allBytes isPodNameByte b = true -> String.length b <= 50 ->
         a <> b -> podNameFor a <> podNameFor b).
Proof.
  split; [|split; [reflexivity|split; [reflexivity|]]].
  - intros name. split; [apply sanitizeNodeName_valid|].
    split; [apply sanitizeNodeName_length|].
    unfold podNameFor, testPodPrefix. simpl. apply sanitizeNodeName_valid.
  - intros a b Ha La Hb Lb Hne Heq. apply Hne.
    unfold podNameFor in Heq. apply append_inj_r in Heq.
    rewrite (sanitizeNodeName_fixes_valid a Ha La) in Heq.
    rewrite (sanitizeNodeName_fixes_valid b Hb Lb) in Heq.
    exact Heq.
Qed.

Lemma sanitizeNodeName_valid_bounded_witness :
  podNameFor "node-a" <> podNameFor "node-b".
Proof.
  apply (proj2 (proj2 (proj2 sanitizeNodeName_valid_bounded)) "node-a" "node-b").
  - reflexivity.
  - simpl; lia.
  - reflexivity.
  - simpl; lia.
  - discriminate.
Defined.

(** C3 as stated fails: two distinct node names, both legal in a cluster,
    are given the same pod name. *)
Lemma sanitizeNodeName_not_injective :
  "node.1" <> "node-1" /\ podNameFor "node.1" = podNameFor "node-1".
Proof. split; [discriminate | reflexivity]. Qed.

(** ** filterReadyNodes *)

Lemma hasReadyCondition_spec conds :
  hasReadyCondition conds = true <-> exists cond, In cond conds /\ isReadyTrue cond.
Proof.
  unfold isReadyTrue. induction conds as [|c rest IH]; simpl.
  - split; [discriminate | intros (? & [] & _)].
  - destruct (bool_decide_reflect (corev1.Type_ c = corev1.NodeReady)) as [Ht|Ht];
      destruct (bool_decide_reflect (corev1.Status c = corev1.ConditionTrue))
        as [Hs|Hs]; simpl.
    + split; [intros _; exists c; auto | reflexivity].
    + rewrite IH. split; intros (x & Hin & Hx); [exists x; tauto|].
      destruct Hin as [->|Hin]; [tauto | exists x; tauto].
    + rewrite IH. split; intros (x & Hin & Hx); [exists x; tauto|].
      destruct Hin as [->|Hin]; [tauto | exists x; tauto].
    + rewrite IH. split; intros (x & Hin & Hx); [exists x; tauto|].
      destruct Hin as [->|Hin]; [tauto | exists x; tauto].
Qed.

Lemma filterReadyNodes_from nodes ready :
  fold_left
    (fun ready node =>
       if hasReadyCondition (corev1.Node_Conditions node)
       then ready ++ [node] else ready)
    nodes ready
  = ready ++ List.filter (fun node => hasReadyCondition (corev1.Node_Conditions node))
                         nodes.
Proof.
  revert ready; induction nodes as [|node rest IH]; intros ready; simpl.
  - rewrite app_nil_r; reflexivity.
  - rewrite IH.
    destruct (hasReadyCondition (corev1.Node_Conditions node)); [|reflexivity].
    rewrite <- app_assoc; reflexivity.
Qed.

(** C8: the ready nodes are the input nodes, in order, that carry a
    condition of type Ready with status True.  A node all of whose Ready
    conditions are False or Unknown, or that carries no Ready condition, is
    left out. *)
Theorem filterReadyNodes_keeps_exactly_ready nodes :
  filterReadyNodes nodes
  = List.filter (fun node => hasReadyCondition (corev1.Node_Conditions node)) nodes
  /\ (forall node,
         In node (filterReadyNodes nodes)
         <-> In node nodes
             /\ exists cond, In cond (corev1.Node_Conditions node) /\ isReadyTrue cond)
  /\ (forall node,
         (forall cond, In cond (corev1.Node_Conditions node) ->
                       corev1.Type_ cond = corev1.NodeReady ->
                       corev1.Status cond <> corev1.ConditionTrue) ->
         ~ In node (filterReadyNodes nodes)).
Proof.
  assert (Heq : filterReadyNodes nodes
                = List.filter (fun node => hasReadyCondition (corev1.Node_Conditions node))
                              nodes).
  { unfold filterReadyNodes. rewrite filterReadyNodes_from. reflexivity. }
  assert (Hin : forall node,
             In node (filterReadyNodes nodes)
             <-> In node nodes
                 /\ exists cond, In cond (corev1.Node_Conditions node) /\ isReadyTrue cond).
  { intros node. rewrite Heq, filter_In, hasReadyCondition_spec. reflexivity. }
  split; [exact Heq|]. split; [exact Hin|].
  intros node Hnone Hnode. apply Hin in Hnode as (_ & cond & Hc & Ht & Hs).
  exact (Hnone cond Hc Ht Hs).
Qed.

Lemma filterReadyNodes_keeps_exactly_ready_witness :
  ~ In {| corev1.Node_Name := "node-c";
          corev1.Node_Conditions :=
            [{| corev1.Type_ := corev1.NodeReady;
                corev1.Status := corev1.ConditionUnknown |}];
          corev1.Node_Addresses := [] |}
       (filterReadyNodes
          [readyNode "node-a" "192.168.0.1";
           {| corev1.Node_Name := "node-c";
              corev1.Node_Conditions :=
                [{| corev1.Type_ := corev1.NodeReady;
                    corev1.Status := corev1.ConditionUnknown |}];
              corev1.Node_Addresses := [] |}]).
Proof.
  apply (proj2 (proj2 (filterReadyNodes_keeps_exactly_ready _))).
  simpl. intros cond [<-|[]] _. simpl. discriminate.
Defined.

(** ** Substrings *)

Lemma string_app_cons c (a b : string) : String c a +:+ b = String c (a +:+ b).
Proof. reflexivity. Qed.

Lemma string_app_nil_l (b : string) : "" +:+ b = b.
Proof. reflexivity. Qed.

Lemma string_app_length (a b : string) :
  String.length (a +:+ b) = String.length a + String.length b.
Proof.
  induction a as [|c a IH]; [reflexivity|].
  rewrite string_app_cons. simpl. rewrite IH. reflexivity.
Qed.

Lemma string_app_nil_r (a : string) : a +:+ "" = a.
Proof.
  induction a as [|c a IH]; [reflexivity|].
  rewrite string_app_cons, IH. reflexivity.
Qed.

Lemma substring_prefix_app (sub post : string) :
  substring 0 (String.length sub) (sub +:+ post) = sub.
Proof.
  induction sub as [|c sub IH].
  - rewrite string_app_nil_l. destruct post; reflexivity.
  - rewrite string_app_cons. simpl. rewrite IH. reflexivity.
Qed.

Lemma substring_skip_app (pre rest : string) n :
  substring (String.length pre) n (pre +:+ rest) = substring 0 n rest.
Proof.
  induction pre as [|c pre IH]; [reflexivity|].
  rewrite string_app_cons. simpl. exact IH.
Qed.

Lemma substring_prefix_split (s : string) : forall sub,
  substring 0 (String.length sub) s = sub -> exists post, s = sub +:+ post.
Proof.
  induction s as [|c s IH]; intros [|d sub]; simpl; intros Hsub.
  - exists "". reflexivity.
  - discriminate.
  - exists (String c s). reflexivity.
  - injection Hsub as -> Hrest. destruct (IH sub Hrest) as (post & ->).
    exists post. reflexivity.
Qed.

Lemma substring_split (s : string) : forall i sub,
  substring i (String.length sub) s = sub -> hasSubstring sub s.
Proof.
  unfold hasSubstring.
  induction s as [|c s IH]; intros i sub Hsub.
  - assert (sub = "") as -> by (destruct i, sub; simpl in Hsub; congruence).
    exists "", "". reflexivity.
  - destruct i as [|i].
    + destruct (substring_prefix_split _ _ Hsub) as (post & Hs).
      exists "", post. exact Hs.
    + simpl in Hsub. destruct (IH i sub Hsub) as (pre & post & ->).
      exists (String c pre), post. reflexivity.
Qed.

Lemma containsSubstringFrom_spec s sub steps : forall i,
  containsSubstringFrom s sub i steps = true
  <-> exists j, i <= j < i + steps
                /\ substring j (String.length sub) s = sub.
Proof.
  induction steps as [|k IH]; intros i; simpl.
  - split; [discriminate | intros (j & Hj & _); lia].
  - destruct (String.eqb_spec (substring i (String.length sub) s) sub) as [Heq|Hne].
    + split; [intros _; exists i; split; [lia | exact Heq] | reflexivity].
    + rewrite IH. split; intros (j & Hj & Hsub).
      * exists j. split; [lia | exact Hsub].
      * exists j. split; [|exact Hsub].
        destruct (Nat.eq_dec j i) as [->|]; [contradiction | lia].
Qed.

(** [contains] decides whether [substr] occurs in [s]. *)
Lemma contains_spec s substr : contains s substr = true <-> hasSubstring substr s.
Proof.
  unfold contains, containsSubstring. split.
  - intros [Hlen Hfound]%andb_prop.
    apply orb_prop in Hfound as [Heq|[_ Hloop]%andb_prop].
    + apply String.eqb_eq in Heq as ->. exists "", "".
      rewrite string_app_nil_l. symmetry. apply string_app_nil_r.
    + apply containsSubstringFrom_spec in Hloop as (j & _ & Hsub).
      eapply substring_split, Hsub.
  - intros (pre & post & ->).
    rewrite !string_app_length.
    apply andb_true_intro. split; [apply Nat.leb_le; lia|].
    destruct (String.eqb_spec (pre +:+ substr +:+ post) substr) as [Heq|Hne];
      [reflexivity|]. simpl.
    apply andb_true_intro. split.
    + apply Nat.ltb_lt.
      destruct pre, substr, post; simpl in *; try lia.
      exfalso. apply Hne. reflexivity.
    + apply containsSubstringFrom_spec. exists (String.length pre). split; [lia|].
      rewrite substring_skip_app. apply substring_prefix_app.
Qed.

Lemma appendDNSPodIPs_spec pods : forall dnsIPs ip,
  In ip (appendDNSPodIPs dnsIPs pods)
  <-> In ip dnsIPs
      \/ exists pod, In pod pods /\ isDNSPod pod
                      /\ ip = corev1.PodIP (corev1.Pod_Status pod).
Proof.
  unfold appendDNSPodIPs.
  induction pods as [|pod rest IH]; intros dnsIPs ip; simpl.
  - split; [auto | intros [H|(? & [] & _)]; exact H].
  - rewrite IH.
    assert (Hpod :
              containsDNSComponent (corev1.Pod_Name pod)
              && bool_decide (corev1.Phase (corev1.Pod_Status pod) = corev1.PodRunning)
              && negb (bool_decide (corev1.PodIP (corev1.Pod_Status pod) = ""))
              = true <-> isDNSPod pod).
    { unfold isDNSPod, containsDNSComponent.
      rewrite !andb_true_iff, orb_true_iff, !contains_spec, negb_true_iff,
        bool_decide_eq_true, bool_decide_eq_false. tauto. }
    destruct (containsDNSComponent (corev1.Pod_Name pod)
              && bool_decide (corev1.Phase (corev1.Pod_Status pod) = corev1.PodRunning)
              && negb (bool_decide (corev1.PodIP (corev1.Pod_Status pod) = ""))).
    + rewrite in_app_iff. simpl. split.
      * intros [[H|[<-|[]]]|(p & Hp & Hd & ->)]; [auto| |].
        -- right. exists pod. split; [auto|]. split; [apply Hpod|]; reflexivity.
        -- right. exists p. auto.
      * intros [H|(p & [<-|Hp] & Hd & ->)]; [auto|auto|].
        right. exists p. auto.
    + split.
      * intros [H|(p & Hp & Hd & ->)]; [auto|]. right. exists p. auto.
      * intros [H|(p & [<-|Hp] & Hd & ->)]; [auto| |].
        -- apply Hpod in Hd. discriminate.
        -- right. exists p. auto.
Qed.

(** ** The tally *)

Lemma wrap64_small z : (- 2 ^ 63 <= z <= MaxInt)%Z -> wrap64 z = z.
Proof.
  unfold wrap64, MaxInt. intros Hz.
  rewrite Z.mod_small by lia. lia.
Qed.

Lemma countSuccess_cons b r results :
  countSuccess b (r :: results)
  = ((if Bool.eqb (Success r) b then 1 else 0) + countSuccess b results)%Z.
Proof.
  unfold countSuccess, len. simpl.
  destruct (Bool.eqb (Success r) b); simpl length; lia.
Qed.

Lemma countSuccess_bounds b results :
  (0 <= countSuccess b results <= len results)%Z.
Proof.
  induction results as [|r rest IH].
  - unfold countSuccess, len; simpl; lia.
  - rewrite countSuccess_cons. unfold len in *. simpl length.
    destruct (Bool.eqb (Success r) b); lia.
Qed.

Lemma countSuccess_total results :
  (countSuccess true results + countSuccess false results = len results)%Z.
Proof.
  induction results as [|r rest IH].
  - reflexivity.
  - rewrite !countSuccess_cons. unfold len in *. simpl length.
    destruct (Success r); simpl; lia.
Qed.

Lemma tally_all results : forall s,
  (0 <= Total s)%Z -> (0 <= Passed s)%Z -> (0 <= Failed s)%Z ->
  (Total s + len results <= MaxInt)%Z ->
  (Passed s + len results <= MaxInt)%Z ->
  (Failed s + len results <= MaxInt)%Z ->
  fold_left tally results s
  = {| Total := Total s + len results;
       Passed := Passed s + countSuccess true results;
       Failed := Failed s + countSuccess false results |}.
Proof.
  induction results as [|r rest IH]; intros [t p f]; simpl; intros Ht Hp Hf Bt Bp Bf.
  - unfold countSuccess, len; simpl. f_equal; lia.
  - unfold len in *. simpl length in *.
    rewrite !countSuccess_cons.
    unfold tally; simpl.
    rewrite (wrap64_small (t + 1)) by (unfold MaxInt in *; lia).
    destruct (Success r); simpl.
    + rewrite (wrap64_small (p + 1)) by (unfold MaxInt in *; lia).
      rewrite IH; simpl; try lia. f_equal; lia.
    + rewrite (wrap64_small (f + 1)) by (unfold MaxInt in *; lia).
      rewrite IH; simpl; try lia. f_equal; lia.
Qed.

Section Proofs.

Context {W : Type} `{Env W}.
Implicit Types (st : St W) (ctx : context) (pod : TestPod).

Local Abbreviation emits := (@emits W).
Local Abbreviation ran := (@ran W).
Local Abbreviation since := (@since W).

Lemma since_app st st' evs : trace st' = trace st ++ evs -> since st st' = evs.
Proof. unfold since. intros ->. apply drop_app_length. Qed.

Lemma for_range_ext {A B} (f g : A -> B -> M W B) :
  (forall x acc st, f x acc st = g x acc st) ->
  forall l acc st, for_range l f acc st = for_range l g acc st.
Proof.
  intros Hfg l; induction l as [|x rest IH]; intros acc st; simpl; [reflexivity|].
  unfold bind. rewrite Hfg. destruct (g x acc st) as [acc1 st1]. apply IH.
Qed.

(** *** Computations only add to the trace *)

Lemma emits_ret {A} P (a : A) : emits P (ret a).
Proof. intros st. exists []. simpl. rewrite app_nil_r. auto. Qed.

Lemma emits_bind {A B} P (m : M W A) (f : A -> M W B) :
  emits P m -> (forall a, emits P (f a)) -> emits P (bind m f).
Proof.
  intros Hm Hf st. unfold bind.
  destruct (Hm st) as (evs1 & E1 & F1).
  destruct (m st) as [a st1]; simpl in E1.
  destruct (Hf a st1) as (evs2 & E2 & F2).
  exists (evs1 ++ evs2). rewrite E2, E1, app_assoc.
  split; [reflexivity | apply Forall_app; auto].
Qed.

Lemma emits_logged {A} (P : Event -> Prop) ctx c (errOf : A -> option error) op :
  (forall err, P {| ev_ctx := ctx; ev_call := c; ev_err := err |}) ->
  emits P (logged ctx c errOf op).
Proof.
  intros HP st. unfold logged. destruct (op (world st)) as [a w]. simpl.
  eexists; split; [reflexivity|]. constructor; auto.
Qed.

Lemma emits_Now P : emits P Now.
Proof.
  intros st. unfold Now. destruct (time_Now (world st)) as [t w]. simpl.
  exists []. rewrite app_nil_r; auto.
Qed.

Lemma emits_runtimeOrder {A} P (l : list A) : emits P (runtimeOrder l).
Proof. intros st. exists []. simpl. rewrite app_nil_r; auto. Qed.

Lemma emits_for_range {A B} P (body : A -> B -> M W B) l :
  (forall x acc, emits P (body x acc)) -> forall acc, emits P (for_range l body acc).
Proof.
  intros Hb. induction l as [|x rest IH]; intros acc; simpl.
  - apply emits_ret.
  - apply emits_bind; auto.
Qed.

Lemma emits_ContextWait P ctx : emits P (ContextWait ctx).
Proof.
  intros st. exists []. unfold ContextWait.
  destruct (Context_Wait ctx (world st)). simpl. rewrite app_nil_r; auto.
Qed.

Lemma emits_pollTicks {S} P ctx (cond : S -> M W (bool * option error * S)) ticks :
  (forall s, emits P (cond s)) -> forall s, emits P (pollTicks ctx ticks cond s).
Proof.
  intros Hc. induction ticks as [|k IH]; intros s; simpl.
  - apply emits_bind; [apply emits_ContextWait|]. intros done. apply emits_ret.
  - apply emits_bind; [apply emits_ContextWait|]. intros done.
    destruct done; [apply emits_ret|].
    apply emits_bind; [apply Hc|]. intros [[ok err] s1].
    destruct err; [apply emits_ret|]. destruct ok; [apply emits_ret | apply IH].
Qed.

Lemma emits_pollUntil {S} P ctx (cond : S -> M W (bool * option error * S))
      ticks immediate :
  (forall s, emits P (cond s)) ->
  forall s, emits P (pollUntil ctx ticks immediate cond s).
Proof.
  intros Hc s. unfold pollUntil. destruct immediate.
  - apply emits_bind; [apply Hc|]. intros [[ok err] s1].
    destruct err; [apply emits_ret|].
    destruct ok; [apply emits_ret | apply emits_pollTicks, Hc].
  - apply emits_pollTicks, Hc.
Qed.

Lemma emits_mono {A} (P Q : Event -> Prop) (m : M W A) :
  (forall e, P e -> Q e) -> emits P m -> emits Q m.
Proof.
  intros HPQ Hm st. destruct (Hm st) as (evs & E & F).
  exists evs; split; [exact E | eapply Forall_impl; eauto].
Qed.

(** *** The loops of the connectivity tests *)

Lemma ran_nil ctx pod acc st : ran ctx pod [] [] acc st (acc, st).
Proof. unfold ran; simpl. rewrite !app_nil_r. auto. Qed.

Lemma ran_app ctx pod ps1 ps2 errs1 errs2 acc st out1 out2 :
  ran ctx pod ps1 errs1 acc st out1 ->
  ran ctx pod ps2 errs2 out1.1 out1.2 out2 ->
  ran ctx pod (ps1 ++ ps2) (errs1 ++ errs2) acc st out2.
Proof.
  intros (L1 & R1 & T1) (L2 & R2 & T2). unfold ran.
  rewrite !length_app, !zip_with_app by (symmetry; assumption).
  rewrite R2, R1, T2, T1, !app_assoc. auto.
Qed.

Lemma runProbe_ran ctx pod p acc st :
  exists err, ran ctx pod [p] [err] acc st (runProbe ctx pod p acc st)
              /\ sched (runProbe ctx pod p acc st).2 = sched st.
Proof.
  unfold runProbe.
  destruct (Exec_In_Pod ctx (Name pod) testNamespace (p_cmd p) (world st))
    as [out w].
  exists out.2. unfold ran; simpl. auto.
Qed.

Lemma probe_loop ctx pod {T} (skip : T -> bool) (probe : T -> Probe)
      (body : T -> list TestResult -> M W (list TestResult)) :
  (forall t results st,
      body t results st
      = if skip t then (results, st) else runProbe ctx pod (probe t) results st) ->
  forall l acc st, exists errs,
    ran ctx pod (map probe (List.filter (fun t => negb (skip t)) l)) errs acc st
        (for_range l body acc st)
    /\ sched (for_range l body acc st).2 = sched st.
Proof.
  intros Hbody l. induction l as [|t rest IH]; intros acc st; simpl.
  - exists []. split; [apply ran_nil | reflexivity].
  - unfold bind. rewrite Hbody. destruct (skip t); simpl.
    + apply IH.
    + destruct (runProbe_ran ctx pod (probe t) acc st) as (err & Hr & Hs).
      destruct (runProbe ctx pod (probe t) acc st) as [acc1 st1].
      destruct (IH acc1 st1) as (errs & Hrest & Hs1).
      exists ([err] ++ errs). split.
      * change (probe t :: map probe (List.filter (fun t0 => negb (skip t0)) rest))
          with ([probe t] ++ map probe (List.filter (fun t0 => negb (skip t0)) rest)).
        eapply ran_app; [exact Hr | exact Hrest].
      * rewrite Hs1. exact Hs.
Qed.

Lemma port_text : pretty testListenPort = "8080".
Proof. reflexivity. Qed.

Lemma filter_all {A} (l : list A) : List.filter (fun _ => negb false) l = l.
Proof. induction l as [|x l IH]; [reflexivity|]. cbn. f_equal. exact IH. Qed.

(** The body of a test loop is [runProbe] on the entries not skipped. *)
Ltac probe_body :=
  let t := fresh "t" in
  intros t ? ?;
  try match type of t with (_ * _)%type => destruct t end; simpl;
  try match goal with
      | |- context [bool_decide ?P] => destruct (bool_decide P); simpl
      end;
  try reflexivity;
  unfold bind, ExecInPod, logged, runProbe, ret; simpl;
  rewrite ?port_text;
  match goal with
  | |- context [Exec_In_Pod ?a ?b ?c ?d ?e] =>
      destruct (Exec_In_Pod a b c d e) as [[[? ?] ?] ?]; simpl
  end;
  reflexivity.

Ltac by_probe_loop ctx pod skip probe l acc st :=
  match goal with
  | |- context [for_range l ?body acc st] =>
      destruct (probe_loop ctx pod skip probe body ltac:(probe_body) l acc st)
        as (?errs & ?Hran & ?Hsched)
  end.

Lemma TestCoreDNSConnectivity_ran ctx pod dnsIPs st :
  exists errs,
    ran ctx pod (map coreDNSProbe dnsIPs) errs [] st
        (TestCoreDNSConnectivity ctx pod dnsIPs st)
    /\ sched (TestCoreDNSConnectivity ctx pod dnsIPs st).2 = sched st.
Proof.
  unfold TestCoreDNSConnectivity.
  by_probe_loop ctx pod (fun _ : string => false) coreDNSProbe dnsIPs
                (@nil TestResult) st.
  rewrite filter_all in Hran. eauto.
Qed.

Lemma TestDNSResolution_ran ctx pod acc st :
  exists err,
    ran ctx pod [dnsProbe] [err] acc st
        (let '(r, st1) := TestDNSResolution ctx pod st in (acc ++ [r], st1))
    /\ sched (TestDNSResolution ctx pod st).2 = sched st.
Proof.
  destruct (runProbe_ran ctx pod dnsProbe acc st) as (err & Hr & Hs).
  exists err. revert Hr Hs.
  unfold TestDNSResolution, bind, ExecInPod, logged, runProbe, ret; simpl.
  destruct (Exec_In_Pod ctx (Name pod) testNamespace
                        ["nslookup"; "github.com"] (world st))
    as [[[? ?] ?] ?]; simpl.
  auto.
Qed.

Lemma TestExternalTCP_ran ctx pod acc st :
  exists err,
    ran ctx pod [tcpProbe] [err] acc st
        (let '(r, st1) := TestExternalTCP ctx pod st in (acc ++ [r], st1))
    /\ sched (TestExternalTCP ctx pod st).2 = sched st.
Proof.
  destruct (runProbe_ran ctx pod tcpProbe acc st) as (err & Hr & Hs).
  exists err. revert Hr Hs.
  unfold TestExternalTCP, bind, ExecInPod, logged, runProbe, ret; simpl.
  destruct (Exec_In_Pod ctx (Name pod) testNamespace
                        ["nc"; "-z"; "-w"; "5"; "github.com"; "443"] (world st))
    as [[[? ?] ?] ?]; simpl.
  auto.
Qed.

Lemma TestKubeletConnectivity_ran ctx pod nodeIPs st :
  exists errs,
    ran ctx pod
        (map kubeletProbe
             (otherNodes pod (shuffle (sched st) (map_to_list nodeIPs))))
        errs [] st
        (TestKubeletConnectivity ctx pod nodeIPs st)
    /\ sched (TestKubeletConnectivity ctx pod nodeIPs st).2
       = drop (size nodeIPs) (sched st).
Proof.
  unfold TestKubeletConnectivity, bind, runtimeOrder.
  set (st1 := {| world := world st; trace := trace st;
                 sched := drop (length (map_to_list nodeIPs)) (sched st) |}).
  by_probe_loop ctx pod
                (fun e : string * string => bool_decide (e.1 = NodeName pod))
                kubeletProbe (shuffle (sched st) (map_to_list nodeIPs))
                (@nil TestResult) st1.
  exists errs. split; [exact Hran|].
  rewrite Hsched. simpl. rewrite length_map_to_list. reflexivity.
Qed.

Lemma TestPodToPod_ran ctx pod allPods st :
  exists errs,
    ran ctx pod (map podProbe (otherPods pod allPods)) errs [] st
        (TestPodToPod ctx pod allPods st)
    /\ sched (TestPodToPod ctx pod allPods st).2 = sched st.
Proof.
  unfold TestPodToPod.
  by_probe_loop ctx pod (fun t : TestPod => bool_decide (Name t = Name pod))
                podProbe allPods (@nil TestResult) st.
  eauto.
Qed.

Lemma ran_acc ctx pod ps errs acc st r st1 :
  ran ctx pod ps errs [] st (r, st1) ->
  ran ctx pod ps errs acc st (acc ++ r, st1).
Proof. intros (L & R & T). simpl in *. subst r. unfold ran; simpl. auto. Qed.

(** [RunPodTests] runs the probes of [podProbes], all of them and in that
    order, whatever the commands return. *)
Lemma RunPodTests_ran ctx pod coreDNSIPs nodeIPs allPods st :
  exists errs,
    ran ctx pod
        (podProbes pod coreDNSIPs (shuffle (sched st) (map_to_list nodeIPs))
                   allPods)
        errs [] st
        (RunPodTests ctx pod coreDNSIPs nodeIPs allPods st)
    /\ sched (RunPodTests ctx pod coreDNSIPs nodeIPs allPods st).2
       = drop (size nodeIPs) (sched st).
Proof.
  unfold RunPodTests, bind, podProbes.
  destruct (TestCoreDNSConnectivity_ran ctx pod coreDNSIPs st) as (e1 & R1 & S1).
  destruct (TestCoreDNSConnectivity ctx pod coreDNSIPs st) as [r1 st1].
  destruct (TestDNSResolution_ran ctx pod ([] ++ r1) st1) as (e2 & R2 & S2).
  destruct (TestDNSResolution ctx pod st1) as [r2 st2].
  destruct (TestExternalTCP_ran ctx pod (([] ++ r1) ++ [r2]) st2) as (e3 & R3 & S3).
  destruct (TestExternalTCP ctx pod st2) as [r3 st3].
  destruct (TestKubeletConnectivity_ran ctx pod nodeIPs st3) as (e4 & R4 & S4).
  destruct (TestKubeletConnectivity ctx pod nodeIPs st3) as [r4 st4].
  destruct (TestPodToPod_ran ctx pod allPods st4) as (e5 & R5 & S5).
  destruct (TestPodToPod ctx pod allPods st4) as [r5 st5].
  simpl in *.
  assert (Hs3 : sched st3 = sched st) by congruence.
  rewrite Hs3 in R4.
  exists (e1 ++ [e2] ++ [e3] ++ e4 ++ e5). split.
  - apply (ran_app ctx pod _ _ e1 _ _ _ (r1, st1) _ R1).
    apply (ran_app ctx pod [dnsProbe] _ [e2] _ _ _ (r1 ++ [r2], st2) _ R2).
    apply (ran_app ctx pod [tcpProbe] _ [e3] _ _ _
                   ((r1 ++ [r2]) ++ [r3], st3) _ R3).
    apply (ran_app ctx pod _ _ e4 _ _ _ (((r1 ++ [r2]) ++ [r3]) ++ r4, st4) _
                   (ran_acc _ _ _ _ _ _ _ _ R4)).
    apply ran_acc, R5.
  - simpl. rewrite S5, S4, Hs3. reflexivity.
Qed.

(** *** Lists *)

Lemma map_zip_with_l {A B C D} (f : A -> B -> C) (g : C -> D) (h : A -> D) l k :
  (forall x y, g (f x y) = h x) -> length k = length l ->
  map g (zip_with f l k) = map h l.
Proof.
  intros Hg. revert k; induction l as [|x l IH]; intros [|y k] Hlen;
    simpl in *; try discriminate; [reflexivity|].
  rewrite Hg, IH by lia. reflexivity.
Qed.

Lemma Forall2_zip_with {A B C D} (R : C -> D -> Prop)
      (f : A -> B -> C) (g : A -> B -> D) l k :
  (forall x y, R (f x y) (g x y)) ->
  Forall2 R (zip_with f l k) (zip_with g l k).
Proof.
  intros HR. revert k; induction l as [|x l IH]; intros [|y k]; simpl;
    constructor; auto.
Qed.

Lemma shuffle_Permutation {A} (l : list A) : forall choices,
  shuffle choices l ≡ₚ l.
Proof.
  induction l as [|x rest IH]; intros choices; simpl; [reflexivity|].
  rewrite <- Permutation_middle, take_drop. constructor. apply IH.
Qed.

(** Every order is the choice of some stream. *)
Lemma shuffle_complete {A} (l : list A) : forall l',
  l' ≡ₚ l -> exists choices, shuffle choices l = l'.
Proof.
  induction l as [|x rest IH]; intros l' Hperm.
  - apply Permutation_nil_r in Hperm as ->. exists []. reflexivity.
  - assert (Hx : x ∈ l') by (rewrite Hperm; left).
    apply list_elem_of_split in Hx as (l1 & l2 & ->).
    rewrite <- Permutation_middle in Hperm.
    apply Permutation_cons_inv in Hperm.
    destruct (IH (l1 ++ l2) Hperm) as (choices & Hrest).
    exists (length l1 :: choices). cbn [shuffle hd tl]. rewrite Hrest.
    rewrite Nat.mod_small by (rewrite length_app; lia).
    rewrite take_app_length, drop_app_length. reflexivity.
Qed.

Lemma shuffle_In {A} choices (l : list A) x : In x (shuffle choices l) <-> In x l.
Proof.
  split; apply Permutation_in;
    [apply shuffle_Permutation | symmetry; apply shuffle_Permutation].
Qed.

Lemma filter_Permutation' {A} (f : A -> bool) l l' :
  l ≡ₚ l' -> List.filter f l ≡ₚ List.filter f l'.
Proof.
  induction 1 as [|x l l' _ IH|x y l|l l' l'' _ IH1 _ IH2]; simpl.
  - reflexivity.
  - destruct (f x); [constructor|]; exact IH.
  - destruct (f x), (f y); try reflexivity. constructor.
  - etransitivity; eauto.
Qed.

Lemma filter_every {A} (f : A -> bool) l :
  (forall x, In x l -> f x = true) -> List.filter f l = l.
Proof.
  induction l as [|x l IH]; simpl; intros Hall; [reflexivity|].
  rewrite (Hall x) by auto. f_equal. apply IH. auto.
Qed.

Lemma otherNodes_entries pod (nodeIPs : gmap string string) :
  otherNodes pod (map_to_list nodeIPs)
  ≡ₚ map_to_list (delete (NodeName pod) nodeIPs).
Proof.
  assert (Hkeep : otherNodes pod (map_to_list (delete (NodeName pod) nodeIPs))
                  = map_to_list (delete (NodeName pod) nodeIPs)).
  { apply filter_every. intros [k v] Hin.
    apply list_elem_of_In, elem_of_map_to_list in Hin. simpl.
    destruct (bool_decide_reflect (k = NodeName pod)) as [->|]; [|reflexivity].
    rewrite lookup_delete_eq in Hin. discriminate. }
  destruct (nodeIPs !! NodeName pod) as [ip|] eqn:Hlook.
  - unfold otherNodes.
    rewrite (filter_Permutation' _ _ _
               (symmetry (map_to_list_delete nodeIPs (NodeName pod) ip Hlook))).
    simpl. rewrite bool_decide_true by reflexivity. simpl.
    fold (otherNodes pod (map_to_list (delete (NodeName pod) nodeIPs))).
    rewrite Hkeep. reflexivity.
  - rewrite delete_id in * by assumption. rewrite Hkeep. reflexivity.
Qed.

Lemma otherNodes_length pod choices (nodeIPs : gmap string string) :
  length (otherNodes pod (shuffle choices (map_to_list nodeIPs)))
  = size (delete (NodeName pod) nodeIPs).
Proof.
  unfold otherNodes.
  rewrite (filter_Permutation' _ _ _ (shuffle_Permutation _ choices)).
  fold (otherNodes pod (map_to_list nodeIPs)).
  rewrite otherNodes_entries. apply length_map_to_list.
Qed.

Lemma In_otherNodes pod entries e :
  In e (otherNodes pod entries) <-> In e entries /\ e.1 <> NodeName pod.
Proof.
  unfold otherNodes. rewrite filter_In.
  destruct (bool_decide_reflect (e.1 = NodeName pod)); simpl; intuition congruence.
Qed.

Lemma In_otherPods pod allPods t :
  In t (otherPods pod allPods) <-> In t allPods /\ Name t <> Name pod.
Proof.
  unfold otherPods. rewrite filter_In.
  destruct (bool_decide_reflect (Name t = Name pod)); simpl; intuition congruence.
Qed.

Lemma map_const_replicate {A B} (f : A -> B) (b : B) l :
  (forall x, f x = b) -> map f l = replicate (length l) b.
Proof.
  intros Hf. induction l as [|x l IH]; simpl; [reflexivity|].
  rewrite Hf, IH. reflexivity.
Qed.

(** C9: whatever the commands run in the pod return, [RunPodTests] runs
    the whole probe sequence of the pod, in the order cluster DNS, DNS
    resolution, external TCP, node agents, pods, and returns one result
    per command run, in that order; a command that returned an error
    gives a result with [Success] false and the error's text, a command
    that returned none a result with [Success] true and no text.  The
    test functions have no error result to return. *)
Theorem RunPodTests_records_every_probe ctx pod coreDNSIPs nodeIPs allPods st :
  let out := RunPodTests ctx pod coreDNSIPs nodeIPs allPods st in
  let probes :=
    podProbes pod coreDNSIPs (shuffle (sched st) (map_to_list nodeIPs)) allPods in
  map TestType out.1
  = replicate (length coreDNSIPs) "coredns"
    ++ ["dns"; "external-tcp"]
    ++ replicate (size (delete (NodeName pod) nodeIPs)) "kubelet"
    ++ replicate (length (otherPods pod allPods)) "pod-to-pod"
  /\ map (fun r => (TestType r, Target r)) out.1
     = map (fun p => (p_type p, p_target p)) probes
  /\ map ev_call (since st out.2)
     = map (fun p => CallExecInPod (Name pod) testNamespace (p_cmd p)) probes
  /\ Forall2
       (fun ev r =>
          SourcePod r = Name pod /\ SourceNode r = NodeName pod
          /\ match ev_err ev with
             | None => Success r = true /\ Error r = ""
             | Some e => Success r = false /\ Error r = err_Error e
             end)
       (since st out.2) out.1.
Proof.
  intros out probes.
  destruct (RunPodTests_ran ctx pod coreDNSIPs nodeIPs allPods st)
    as (errs & (L & R & T) & _).
  fold out in R, T. fold probes in L, R, T.
  rewrite (since_app _ _ _ T), R, app_nil_l.
  assert (Htypes :
            map p_type probes
            = replicate (length coreDNSIPs) "coredns"
              ++ ["dns"; "external-tcp"]
              ++ replicate (size (delete (NodeName pod) nodeIPs)) "kubelet"
              ++ replicate (length (otherPods pod allPods)) "pod-to-pod").
  { unfold probes, podProbes. rewrite !map_app, !map_map. simpl.
    rewrite (map_const_replicate _ "coredns") by reflexivity.
    rewrite (map_const_replicate _ "kubelet") by reflexivity.
    rewrite (map_const_replicate _ "pod-to-pod") by reflexivity.
    rewrite otherNodes_length. reflexivity. }
  split; [|split; [|split]].
  - rewrite <- Htypes. apply map_zip_with_l; auto.
  - apply map_zip_with_l; auto.
  - apply map_zip_with_l; auto.
  - apply Forall2_zip_with. intros p [e|]; simpl; auto.
Qed.

(** *** RunAllTests *)

Lemma RunPodTests_results ctx pod pods coreDNSIPs nodeIPs st r :
  In pod pods ->
  In r (RunPodTests ctx pod coreDNSIPs nodeIPs pods st).1 ->
  resultOf pods coreDNSIPs nodeIPs r.
Proof.
  intros Hpod Hr.
  destruct (RunPodTests_ran ctx pod coreDNSIPs nodeIPs pods st)
    as (errs & (L & R & T) & _).
  rewrite R, app_nil_l in Hr.
  apply list_elem_of_In, elem_of_zip_with in Hr as (probe & err & -> & Hp & _).
  exists pod, (sched st), probe, err.
  split; [exact Hpod|]. split; [apply list_elem_of_In; exact Hp | reflexivity].
Qed.

Lemma RunAllTests_from ctx pods coreDNSIPs nodeIPs order :
  (forall p, In p order -> In p pods) ->
  forall acc st,
    Forall (resultOf pods coreDNSIPs nodeIPs) acc ->
    Forall (resultOf pods coreDNSIPs nodeIPs)
           (for_range order
              (fun p results =>
                 bind (RunPodTests ctx p coreDNSIPs nodeIPs pods)
                      (fun podResults => ret (results ++ podResults)))
              acc st).1.
Proof.
  induction order as [|p rest IH]; intros Hsub acc st Hacc; simpl; [exact Hacc|].
  unfold bind at 1. unfold bind at 1.
  pose proof (RunPodTests_results ctx p pods coreDNSIPs nodeIPs st) as Hp.
  destruct (RunPodTests ctx p coreDNSIPs nodeIPs pods st) as [podResults st1].
  simpl. apply IH; [intros; apply Hsub; simpl; auto|].
  apply Forall_app. split; [exact Hacc|].
  apply List.Forall_forall. intros r Hr. apply Hp; [apply Hsub; simpl; auto|exact Hr].
Qed.

Lemma RunAllTests_results ctx pods coreDNSIPs nodeIPs st :
  Forall (resultOf pods coreDNSIPs nodeIPs)
         (RunAllTests ctx pods coreDNSIPs nodeIPs st).1.
Proof.
  unfold RunAllTests. unfold bind at 1. unfold runtimeOrder.
  apply RunAllTests_from; [|constructor].
  intros p. apply shuffle_In.
Qed.

(** The probes of a kind in a pod's sequence. *)
Lemma podProbes_kubelet pod coreDNSIPs entries allPods probe :
  In probe (podProbes pod coreDNSIPs entries allPods) ->
  p_type probe = "kubelet" ->
  exists e, In e (otherNodes pod entries) /\ probe = kubeletProbe e.
Proof.
  unfold podProbes. rewrite !in_app_iff, !in_map_iff.
  intros [(ip & <- & _)|[[<-|[<-|[]]]|[(e & <- & He)|(t & <- & _)]]] Hty;
    try discriminate Hty.
  exists e; auto.
Qed.

Lemma podProbes_pod pod coreDNSIPs entries allPods probe :
  In probe (podProbes pod coreDNSIPs entries allPods) ->
  p_type probe = "pod-to-pod" ->
  exists t, In t (otherPods pod allPods) /\ probe = podProbe t.
Proof.
  unfold podProbes. rewrite !in_app_iff, !in_map_iff.
  intros [(ip & <- & _)|[[<-|[<-|[]]]|[(e & <- & _)|(t & <- & Ht)]]] Hty;
    try discriminate Hty.
  exists t; auto.
Qed.

Lemma podProbes_no_coredns pod entries allPods probe :
  In probe (podProbes pod [] entries allPods) -> p_type probe <> "coredns".
Proof.
  unfold podProbes. rewrite !in_app_iff, !in_map_iff.
  intros [(ip & _ & [])|[[<-|[<-|[]]]|[(e & <- & _)|(t & <- & _)]]];
    discriminate.
Qed.

(** C5, amended: the source is skipped by name, not by address.  A
    node-agent result never comes from the entry of the node map under
    its own source node's name, and a pod-to-pod result never from a pod
    with its own source pod's name.  [TestKubeletConnectivity] probes
    exactly the entries of the map under another node name,
    [TestPodToPod] exactly the pods with another name; and in all the
    results of a run, a result of type kubelet targets an entry of the
    map whose node name is not the result's source node, a result of
    type pod-to-pod a pod whose name is not the result's source pod.
    The address probed differs from the source node's internal IP when
    no two node names of the map share an IP; when they do, the source
    node's own IP is probed. *)
Theorem probes_skip_their_source ctx :
  (forall pod (nodeIPs : gmap string string) st,
      let rs := (TestKubeletConnectivity ctx pod nodeIPs st).1 in
      map (fun r => (SourceNode r, TestType r, Target r)) rs
      = map (fun e => (NodeName pod, "kubelet",
                       e.2 +:+ ":10250 (" +:+ e.1 +:+ ")"))
            (otherNodes pod (shuffle (sched st) (map_to_list nodeIPs)))
      /\ length rs = size (delete (NodeName pod) nodeIPs))
  /\ (forall pod allPods st,
         map (fun r => (SourcePod r, TestType r, Target r))
             (TestPodToPod ctx pod allPods st).1
         = map (fun t => (Name pod, "pod-to-pod",
                          PodIP t +:+ ":8080 (" +:+ NodeName t +:+ ")"))
               (otherPods pod allPods))
  /\ (forall pods coreDNSIPs (nodeIPs : gmap string string) st r,
         In r (RunAllTests ctx pods coreDNSIPs nodeIPs st).1 ->
         (TestType r = "kubelet" ->
          exists nodeName nodeIP,
            nodeIPs !! nodeName = Some nodeIP
            /\ nodeName <> SourceNode r
            /\ Target r = nodeIP +:+ ":10250 (" +:+ nodeName +:+ ")"
            /\ (forall ownIP,
                   nodeIPs !! SourceNode r = Some ownIP ->
                   (forall n1 n2 ip,
                       nodeIPs !! n1 = Some ip -> nodeIPs !! n2 = Some ip ->
                       n1 = n2) ->
                   nodeIP <> ownIP))
         /\ (TestType r = "pod-to-pod" ->
             exists target,
               In target pods
               /\ Name target <> SourcePod r
               /\ Target r
                  = PodIP target +:+ ":8080 (" +:+ NodeName target +:+ ")")).
Proof.
  split; [|split].
  - intros pod nodeIPs st rs.
    destruct (TestKubeletConnectivity_ran ctx pod nodeIPs st)
      as (errs & (L & R & T) & _).
    fold rs in R. rewrite R, app_nil_l. split.
    + rewrite zip_with_fmap_l.
      apply map_zip_with_l; [reflexivity|]. rewrite length_map in L. exact L.
    + rewrite length_zip_with_r_eq by exact L.
      rewrite L, length_map. apply otherNodes_length.
  - intros pod allPods st.
    destruct (TestPodToPod_ran ctx pod allPods st) as (errs & (L & R & T) & _).
    rewrite R, app_nil_l, zip_with_fmap_l.
    apply map_zip_with_l; [reflexivity|]. rewrite length_map in L. exact L.
  - intros pods coreDNSIPs nodeIPs st r Hr.
    pose proof (RunAllTests_results ctx pods coreDNSIPs nodeIPs st) as Hall.
    rewrite List.Forall_forall in Hall.
    destruct (Hall r Hr) as (pod & choices & probe & err & Hpod & Hprobe & ->).
    simpl. split; intros Hty.
    + destruct (podProbes_kubelet _ _ _ _ _ Hprobe Hty) as ([k v] & He & ->).
      apply In_otherNodes in He as [He Hne].
      apply shuffle_In, list_elem_of_In, elem_of_map_to_list in He.
      exists k, v. repeat split; auto.
      intros ownIP Hown Hinj ->. apply Hne. exact (Hinj _ _ _ He Hown).
    + destruct (podProbes_pod _ _ _ _ _ Hprobe Hty) as (t & Ht & ->).
      apply In_otherPods in Ht as [Ht Hne].
      exists t. auto.
Qed.

(** *** CreateTestPods *)

Lemma CreateTestPods_from_spec ctx nodes : forall testPods st,
  let out := CreateTestPods_from ctx nodes testPods st in
  exists evs,
    trace out.2 = trace st ++ evs
    /\ map ev_call evs = map createCall (take (length evs) nodes)
    /\ match out.1 with
       | Ok pods =>
           pods = testPods ++ map testPodFor nodes
           /\ length evs = length nodes
           /\ forallb accepted evs = true
       | Err e =>
           exists done ev,
             evs = done ++ [ev]
             /\ forallb accepted done = true
             /\ accepted ev = false
             /\ length done < length nodes
       end.
Proof.
  induction nodes as [|node rest IH]; intros testPods st; simpl.
  - exists []. simpl. rewrite !app_nil_r. auto.
  - unfold bind, PodsCreate, logged.
    destruct (Pods_Create ctx testNamespace
                (testPodObject node
                   (testPodPrefix +:+ sanitizeNodeName (corev1.Node_Name node)))
                (world st)) as [err w] eqn:Hcreate.
    set (ev := {| ev_ctx := ctx;
                  ev_call := CallPodsCreate testNamespace
                               (testPodObject node
                                  (testPodPrefix
                                     +:+ sanitizeNodeName (corev1.Node_Name node)));
                  ev_err := id err |}).
    set (st1 := {| world := w; trace := trace st ++ [ev]; sched := sched st |}).
    set (pods1 := testPods ++ [{| Name := testPodPrefix
                                          +:+ sanitizeNodeName (corev1.Node_Name node);
                                  NodeName := corev1.Node_Name node;
                                  PodIP := "" |}]).
    assert (Hnext :
              exists evs,
                trace (CreateTestPods_from ctx rest pods1 st1).2 = trace st ++ evs
                /\ map ev_call evs = map createCall (take (length evs) (node :: rest))
                /\ match (CreateTestPods_from ctx rest pods1 st1).1 with
                   | Ok pods =>
                       pods = testPods ++ testPodFor node :: map testPodFor rest
                       /\ length evs = S (length rest)
                       /\ forallb accepted evs = true
                   | Err e =>
                       exists done ev0,
                         evs = done ++ [ev0]
                         /\ forallb accepted done = true
                         /\ accepted ev0 = false
                         /\ length done < S (length rest)
                   end
                \/ accepted ev = false).
    { destruct (accepted ev) eqn:Hacc.
      2:{ exists []. right. reflexivity. }
      destruct (IH pods1 st1) as (evs & Ht & Hc & Hr).
      exists (ev :: evs). left. split; [|split].
      - rewrite Ht. subst st1; simpl. rewrite <- app_assoc. reflexivity.
      - simpl. rewrite Hc. reflexivity.
      - destruct ((CreateTestPods_from ctx rest pods1 st1).1) as [pods|e].
        + destruct Hr as (-> & Hl & Ha). subst pods1.
          rewrite <- app_assoc. simpl. rewrite Hl, Hacc, Ha. auto.
        + destruct Hr as (done & ev0 & -> & Hd & Hn & Hl).
          exists (ev :: done), ev0. simpl. rewrite Hacc, Hd.
          repeat split; auto. lia. }
    destruct err as [e|]; [destruct (IsAlreadyExists e) eqn:Hexists|].
    + destruct Hnext as (evs & Hn); destruct Hn as [Hn|Hn];
        [eauto | unfold accepted in Hn; simpl in Hn; congruence].
    + exists [ev]. simpl. split; [reflexivity|]. split; [reflexivity|].
      exists [], ev. simpl. unfold accepted; simpl. rewrite Hexists.
      repeat split; auto. lia.
    + destruct Hnext as (evs & Hn); destruct Hn as [Hn|Hn];
        [eauto | unfold accepted in Hn; simpl in Hn; congruence].
Qed.

(** C6: [CreateTestPods] asks for one pod per node, in order, and goes on
    after a creation that returned no error or AlreadyExists.  When every
    creation ended so it returns one pod record per input node, the
    node's pod under its derived name; otherwise the first creation that
    returned another error is the last call made and an error is
    returned, with no pod list. *)
Theorem CreateTestPods_one_pod_per_node ctx nodes st :
  let out := CreateTestPods ctx nodes st in
  let evs := since st out.2 in
  map ev_call evs = map createCall (take (length evs) nodes)
  /\ isOk out.1 = forallb accepted evs
  /\ match out.1 with
     | Ok pods =>
         pods = map testPodFor nodes
         /\ length pods = length nodes
         /\ length evs = length nodes
     | Err e =>
         exists done ev,
           evs = done ++ [ev]
           /\ forallb accepted done = true
           /\ accepted ev = false
           /\ length done < length nodes
     end.
Proof.
  intros out evs.
  destruct (CreateTestPods_from_spec ctx nodes [] st) as (evs' & Ht & Hc & Hr).
  fold (CreateTestPods ctx nodes) in Ht, Hr. fold out in Ht, Hr.
  assert (evs = evs') as -> by (apply since_app, Ht).
  split; [exact Hc|].
  destruct out.1 as [pods|e]; simpl.
  - destruct Hr as (-> & Hl & Ha). simpl. rewrite length_map. auto.
  - destruct Hr as (done & ev & -> & Hd & Hn & Hl).
    split; [|eauto 10].
    rewrite forallb_app. simpl. rewrite Hd, Hn. reflexivity.
Qed.

(** *** Run *)

(** Take the next step of a monadic computation apart. *)
Ltac next_step H :=
  lazymatch type of H with
  | context [match ?m ?s with pair _ _ => _ end] =>
      let r := fresh "r" in
      let st := fresh "st" in
      let E := fresh "E" in
      destruct (m s) as [r st] eqn:E; cbv beta iota in H
  end.

Ltac case_result H :=
  lazymatch type of H with
  | context [match ?r with Ok _ => _ | Err _ => _ end] =>
      destruct r; cbv beta iota in H
  | context [match ?r with Some _ => _ | None => _ end] =>
      destruct r; cbv beta iota in H
  | context [if ?b then _ else _] =>
      destruct b eqn:?; cbv beta iota in H
  end.

Lemma Run_guarded_summary ctx readyNodes testPods report st rep st' :
  Summary report = {| Total := 0; Passed := 0; Failed := 0 |} ->
  Run_guarded ctx readyNodes testPods report st = (Ok rep, st') ->
  Summary rep = summarize (TestResults rep).
Proof.
  intros Hzero Hg. unfold Run_guarded, bind, ret in Hg.
  next_step Hg. destruct r as [err pods1]. case_result Hg; [discriminate|].
  do 3 next_step Hg.
  injection Hg as <- <-. simpl. rewrite Hzero. reflexivity.
Qed.

Lemma Run_summary ctx st report st' :
  Run ctx st = (Ok report, st') ->
  Summary report = summarize (TestResults report).
Proof.
  intros Hrun. unfold Run, bind, ret in Hrun.
  do 2 next_step Hrun. case_result Hrun; [discriminate|].
  do 2 next_step Hrun. case_result Hrun; [|discriminate].
  case_result Hrun; [discriminate|].
  next_step Hrun. case_result Hrun.
  - do 2 next_step Hrun. injection Hrun as -> <-.
    eapply Run_guarded_summary; [|eassumption]. reflexivity.
  - next_step Hrun. discriminate.
Qed.

(** C7: the summary of a report is the tally of its results: [Total] is
    their number, [Passed] the number of those with [Success] true,
    [Failed] the number of those with [Success] false, and the two add up
    to [Total].  (A slice's length is a Go [int], hence the bound.) *)
Theorem Run_summary_counts :
  (forall results,
      (len results <= MaxInt)%Z ->
      Total (summarize results) = len results
      /\ Passed (summarize results) = countSuccess true results
      /\ Failed (summarize results) = countSuccess false results
      /\ (Passed (summarize results) + Failed (summarize results)
          = Total (summarize results))%Z)
  /\ (forall ctx st report st',
         Run ctx st = (Ok report, st') ->
         Summary report = summarize (TestResults report)).
Proof.
  split; [|apply Run_summary].
  intros results Hlen. unfold summarize.
  rewrite tally_all; simpl; try lia.
  pose proof (countSuccess_total results). repeat split; lia.
Qed.

(** *** WaitForPodsReady *)

Lemma allContainersReady_spec css :
  allContainersReady css = true
  <-> forall cs, In cs css -> corev1.Ready cs = true.
Proof.
  induction css as [|cs rest IH]; simpl.
  - split; [intros _ ? [] | reflexivity].
  - destruct (corev1.Ready cs) eqn:Hr; simpl.
    + rewrite IH. split; [intros Hall c [<-|Hc]; auto | auto].
    + split; [discriminate|]. intros Hall.
      rewrite <- Hr. symmetry. rewrite <- (Hall cs) by auto. reflexivity.
Qed.

(** C10: the readiness condition holds exactly when the pod read from
    the API is in phase Running and no entry of its container statuses is
    not ready, which a pod without container statuses satisfies.  When
    it holds at the first poll, [WaitForPodsReady] returns at once, with
    no error, having made that one call, and the pod's [PodIP] is the IP
    in the status read, whatever it is. *)
Theorem WaitForPodsReady_ready_when_running ctx pod timeout st :
  let timeoutCtx := ctx_WithTimeout ctx timeout in
  let got := Pods_Get timeoutCtx testNamespace (Name pod) (world st) in
  ((podReadyCond timeoutCtx pod st).1.1.1 = true
   <-> exists p,
       got.1 = Ok p
       /\ corev1.Phase (corev1.Pod_Status p) = corev1.PodRunning
       /\ forall cs, In cs (corev1.ContainerStatuses (corev1.Pod_Status p)) ->
                     corev1.Ready cs = true)
  /\ (forall p,
         got.1 = Ok p ->
         corev1.Phase (corev1.Pod_Status p) = corev1.PodRunning ->
         (forall cs, In cs (corev1.ContainerStatuses (corev1.Pod_Status p)) ->
                     corev1.Ready cs = true) ->
         WaitForPodsReady ctx [pod] timeout st
         = ((None, [withIP pod (corev1.PodIP (corev1.Pod_Status p))]),
            {| world := got.2;
               trace := trace st ++ [getEvent timeoutCtx pod None];
               sched := sched st |})).
Proof.
  intros timeoutCtx got.
  assert (Hcond :
            podReadyCond timeoutCtx pod st
            = (match got.1 with
               | Ok p =>
                   if bool_decide (corev1.Phase (corev1.Pod_Status p)
                                   = corev1.PodRunning)
                      && allContainersReady
                           (corev1.ContainerStatuses (corev1.Pod_Status p))
                   then (true, None,
                         withIP pod (corev1.PodIP (corev1.Pod_Status p)))
                   else (false, None, pod)
               | Err _ => (false, None, pod)
               end,
               {| world := got.2;
                  trace := trace st ++ [getEvent timeoutCtx pod (result_err got.1)];
                  sched := sched st |})).
  { unfold podReadyCond, bind, PodsGet, logged, ret. subst got.
    destruct (Pods_Get timeoutCtx testNamespace (Name pod) (world st))
      as [[p|e] w]; simpl; [|reflexivity].
    destruct (bool_decide (corev1.Phase (corev1.Pod_Status p) = corev1.PodRunning));
      simpl; [|reflexivity].
    destruct (allContainersReady (corev1.ContainerStatuses (corev1.Pod_Status p)));
      reflexivity. }
  split.
  - rewrite Hcond. simpl. destruct got.1 as [p|e].
    + destruct (bool_decide_reflect
                  (corev1.Phase (corev1.Pod_Status p) = corev1.PodRunning))
        as [Hp|Hp]; simpl.
      * destruct (allContainersReady
                    (corev1.ContainerStatuses (corev1.Pod_Status p))) eqn:Hall;
          simpl.
        -- split; [intros _|reflexivity]. exists p.
           rewrite <- allContainersReady_spec. auto.
        -- split; [discriminate|]. intros (p' & [= <-] & _ & Hr).
           apply allContainersReady_spec in Hr. congruence.
      * split; [discriminate|]. intros (p' & [= <-] & Hr & _). contradiction.
    + split; [discriminate|]. intros (p' & [=] & _).
  - intros p Hgot Hphase Hready.
    unfold WaitForPodsReady, WaitForPodsReady_from, pollUntil, bind.
    fold timeoutCtx. rewrite Hcond, Hgot. simpl.
    rewrite bool_decide_true by exact Hphase.
    rewrite (proj2 (allContainersReady_spec _) Hready). reflexivity.
Qed.

(** *** DiscoverCoreDNSPods *)

Lemma discoverViaServices_found ctx names : forall dnsIPs st,
  dnsIPs = [] ->
  let out := discoverViaServices ctx names dnsIPs st in
  if out.1.1 then out.1.2 <> [] else out.1.2 = [].
Proof.
  induction names as [|name rest IH]; intros dnsIPs st ->; simpl; [reflexivity|].
  unfold bind, EndpointsGet, logged.
  destruct (Endpoints_Get ctx "kube-system" name (world st)) as [[ep|e] w]; simpl.
  - destruct (appendEndpointIPs [] ep) as [|ip ips] eqn:Hips; simpl.
    + apply IH. reflexivity.
    + discriminate.
  - apply IH. reflexivity.
Qed.

Lemma no_coredns_results ctx pods nodeIPs st :
  Forall (fun r => TestType r <> "coredns") (RunAllTests ctx pods [] nodeIPs st).1.
Proof.
  eapply Forall_impl; [apply RunAllTests_results|].
  intros r (pod & choices & probe & err & _ & Hprobe & ->). simpl.
  eapply podProbes_no_coredns, Hprobe.
Qed.

Lemma appendEndpointIPs_spec ep : forall dnsIPs,
  appendEndpointIPs dnsIPs ep = dnsIPs ++ endpointIPs ep.
Proof.
  unfold appendEndpointIPs, endpointIPs.
  induction (corev1.Subsets ep) as [|subset rest IH]; intros dnsIPs.
  - cbn. rewrite app_nil_r. reflexivity.
  - cbn [fold_left flat_map]. rewrite IH, app_assoc. f_equal.
    generalize dnsIPs.
    induction (corev1.Addresses subset) as [|addr addrs IHa]; intros acc.
    + cbn. rewrite app_nil_r. reflexivity.
    + cbn [fold_left map]. rewrite IHa, <- app_assoc. reflexivity.
Qed.

Lemma discoverViaServices_lookup ctx names : forall st,
  let out := discoverViaServices ctx names [] st in
  exists errs found,
    ServiceLookup ctx names (world st) errs found (world out.2)
    /\ trace out.2 = trace st ++ zip_with (endpointsGet ctx) names errs
    /\ sched out.2 = sched st
    /\ out.1 = match found with Some ips => (true, ips) | None => (false, []) end.
Proof.
  induction names as [|name rest IH]; intros st; cbv zeta.
  - exists [], None. cbn. rewrite app_nil_r.
    split; [constructor | auto].
  - cbn [discoverViaServices]. unfold bind, EndpointsGet, logged.
    destruct (Endpoints_Get ctx "kube-system" name (world st)) as [[ep|e] w] eqn:Hget.
    + rewrite appendEndpointIPs_spec, app_nil_l.
      destruct (endpointIPs ep) as [|ip ips] eqn:Hips.
      * cbn [length Nat.ltb Nat.leb].
        match goal with
        | |- context [discoverViaServices ctx rest [] ?s] =>
            destruct (IH s) as (errs & found & Hlook & Htr & Hsched & Hres)
        end.
        exists (None :: errs), found.
        split; [eapply lookup_no_address; eassumption|].
        split; [|split; [exact Hsched | exact Hres]].
        rewrite Htr. cbn [trace zip_with result_err].
        rewrite <- app_assoc. reflexivity.
      * exists [None], (Some (ip :: ips)). cbn.
        split; [|split; [destruct rest; reflexivity | auto]].
        rewrite <- Hips. eapply lookup_found; [exact Hget|].
        rewrite Hips. discriminate.
    + match goal with
      | |- context [discoverViaServices ctx rest [] ?s] =>
          destruct (IH s) as (errs & found & Hlook & Htr & Hsched & Hres)
      end.
      exists (Some e :: errs), found.
      split; [eapply lookup_failed; eassumption|].
      split; [|split; [exact Hsched | exact Hres]].
      rewrite Htr. cbn [trace zip_with result_err].
      rewrite <- app_assoc. reflexivity.
Qed.

Lemma ServiceLookup_found ctx names w errs found w1 :
  ServiceLookup ctx names w errs found w1 ->
  match found with
  | Some ips =>
      ips <> []
      /\ exists tried name rest wa ep,
          names = tried ++ name :: rest
          /\ length errs = S (length tried)
          /\ Endpoints_Get ctx "kube-system" name wa = (Ok ep, w1)
          /\ ips = endpointIPs ep
  | None => length errs = length names
  end.
Proof.
  induction 1 as [w|name rest w ep w1 Hget Hne
                 |name rest w ep w1 errs found w2 Hget Hnil Hrest IH
                 |name rest w e w1 errs found w2 Hget Hrest IH].
  - reflexivity.
  - split; [exact Hne|]. exists [], name, rest, w, ep. auto.
  - destruct found as [ips|]; [|simpl; lia].
    destruct IH as (Hne & tried & n & r & wa & ep' & -> & Hlen & Hg & ->).
    split; [exact Hne|]. exists (name :: tried), n, r, wa, ep'.
    simpl. auto.
  - destruct found as [ips|]; [|simpl; lia].
    destruct IH as (Hne & tried & n & r & wa & ep' & -> & Hlen & Hg & ->).
    split; [exact Hne|]. exists (name :: tried), n, r, wa, ep'.
    simpl. auto.
Qed.

Lemma DiscoverCoreDNSPods_spec ctx st :
  let out := DiscoverCoreDNSPods ctx st in
  exists errs found w1,
    ServiceLookup ctx serviceNames (world st) errs found w1
    /\ match found with
       | Some ips =>
           out = (Ok ips,
                  {| world := w1;
                     trace := trace st
                              ++ zip_with (endpointsGet ctx) serviceNames errs;
                     sched := sched st |})
       | None =>
           let listed := Pods_List ctx "kube-system" w1 in
           out = (match listed.1 with
                  | Ok pods =>
                      match appendDNSPodIPs [] pods with
                      | [] => Err (Errorf "no CoreDNS pods found")
                      | ips => Ok ips
                      end
                  | Err e => Err (Errorf_w "failed to list kube-system pods: " e)
                  end,
                  {| world := listed.2;
                     trace := (trace st
                               ++ zip_with (endpointsGet ctx) serviceNames errs)
                              ++ [{| ev_ctx := ctx;
                                     ev_call := CallPodsList "kube-system";
                                     ev_err := result_err listed.1 |}];
                     sched := sched st |})
       end.
Proof.
  cbv zeta. unfold DiscoverCoreDNSPods, bind. fold serviceNames.
  destruct (discoverViaServices_lookup ctx serviceNames st)
    as (errs & found & Hlook & Htr & Hsched & Hres).
  destruct (discoverViaServices ctx serviceNames [] st) as [[returned dnsIPs] st1].
  cbn [fst snd] in *. exists errs, found, (world st1).
  split; [exact Hlook|]. destruct found as [ips|]; injection Hres as -> ->.
  - unfold ret. f_equal. destruct st1. cbn [world trace sched] in *.
    rewrite Htr, Hsched. reflexivity.
  - unfold PodsList, logged, ret.
    destruct (Pods_List ctx "kube-system" (world st1)) as [[pods|e] w]; cbn.
    + rewrite Htr, Hsched.
      destruct (appendDNSPodIPs [] pods); reflexivity.
    + rewrite Htr, Hsched. reflexivity.
Qed.

(** C4: [DiscoverCoreDNSPods] returns an error exactly when the lookup
    by service name found no address and the scan of the kube-system pods
    found none either (a pod list that cannot be read yields none).  The
    lookup is told from the answers of the API: it found the addresses of
    the first of the three services whose Endpoints hold any, all of
    them, and nothing when every read failed or held no address; the
    scan takes the IPs of the running pods with an IP whose name contains
    coredns or kube-dns.
    Otherwise it returns, without error, what the lookup found or else
    what the scan found, a list that is then not empty.  When it returns
    an error, [Run] goes on with no cluster-DNS target:
    [TestCoreDNSConnectivity] then runs no command and gives no result,
    and the report, made of the results of the other probes, has no
    result of type coredns. *)
Theorem DiscoverCoreDNSPods_errors_only_when_nothing_found ctx :
  (forall st,
      let out := DiscoverCoreDNSPods ctx st in
      exists errs found w1,
        ServiceLookup ctx serviceNames (world st) errs found w1
        /\ let listed := Pods_List ctx "kube-system" w1 in
           let viaPods := match listed.1 with
                          | Ok pods => appendDNSPodIPs [] pods
                          | Err _ => []
                          end in
           (isOk out.1 = false <-> found = None /\ viaPods = [])
           /\ (forall ips,
                  found = Some ips ->
                  ips <> [] /\ out.1 = Ok ips /\ world out.2 = w1
                  /\ exists tried name rest wa ep,
                      serviceNames = tried ++ name :: rest
                      /\ length errs = S (length tried)
                      /\ Endpoints_Get ctx "kube-system" name wa = (Ok ep, w1)
                      /\ ips = endpointIPs ep)
           /\ (found = None -> viaPods <> [] -> out.1 = Ok viaPods))
  /\ (forall pod st, TestCoreDNSConnectivity ctx pod [] st = ([], st))
  /\ (forall readyNodes testPods report st pods1 st1 e st2,
         WaitForPodsReady ctx testPods 90 st = ((None, pods1), st1) ->
         DiscoverCoreDNSPods ctx st1 = (Err e, st2) ->
         exists rep st3,
           Run_guarded ctx readyNodes testPods report st = (Ok rep, st3)
           /\ TestResults rep
              = (RunAllTests ctx pods1 [] (GetNodeInternalIPs readyNodes)
                             (StartListeners ctx pods1 st2).2).1
           /\ Forall (fun r => TestType r <> "coredns") (TestResults rep))
  /\ (forall (systemPods : list corev1.Pod) ip,
         In ip (appendDNSPodIPs [] systemPods)
         <-> exists p, In p systemPods /\ isDNSPod p
                       /\ ip = corev1.PodIP (corev1.Pod_Status p)).
Proof.
  split; [|split; [|split]]; cycle 3.
  { intros systemPods ip. rewrite appendDNSPodIPs_spec. simpl. tauto. }
  - intros st. cbv zeta.
    destruct (DiscoverCoreDNSPods_spec ctx st) as (errs & found & w1 & Hlook & Hout).
    exists errs, found, w1. split; [exact Hlook|].
    pose proof (ServiceLookup_found _ _ _ _ _ _ Hlook) as Hfound.
    destruct found as [ips|].
    + destruct Hfound as [Hne Hwhere]. rewrite Hout. cbn [fst snd world isOk].
      split; [split; [discriminate | intros [[=] _]]|].
      split; [|intros [=]].
      intros ips' [= <-]. auto.
    + cbv zeta in Hout. rewrite Hout. cbn [fst snd].
      split; [|split; [intros ips [=]|]].
      * destruct (Pods_List ctx "kube-system" w1).1 as [pods|e]; [|simpl; tauto].
        destruct (appendDNSPodIPs [] pods); simpl;
          [tauto | split; [discriminate | intros [_ [=]]]].
      * intros _.
        destruct (Pods_List ctx "kube-system" w1).1 as [pods|e]; [|contradiction].
        destruct (appendDNSPodIPs [] pods); [contradiction | reflexivity].
  - reflexivity.
  - intros readyNodes testPods report st pods1 st1 e st2 Hwait Hdisc.
    unfold Run_guarded, bind, ret. rewrite Hwait, Hdisc.
    destruct (StartListeners ctx pods1 st2) as [u st3]. cbn [snd].
    pose proof (no_coredns_results ctx pods1 (GetNodeInternalIPs readyNodes) st3)
      as Hno.
    destruct (RunAllTests ctx pods1 [] (GetNodeInternalIPs readyNodes) st3)
      as [results st4].
    eexists _, _. split; [reflexivity|]. simpl. auto.
Qed.

(** *** The calls of a run *)

Ltac emits_step :=
  first
    [ apply emits_ret
    | apply emits_Now
    | apply emits_runtimeOrder
    | apply emits_logged; intros; reflexivity
    | apply emits_bind; [|intros]
    | apply emits_for_range; intros
    | apply emits_pollUntil; intros
    | match goal with
      | |- emits _ (match ?x with pair _ _ => _ end) => destruct x
      | |- emits _ (match ?x with pair _ _ => _ end _) => destruct x
      | |- emits _ (match ?x with Some _ => _ | None => _ end) => destruct x
      | |- emits _ (match ?x with Ok _ => _ | Err _ => _ end) => destruct x
      | |- emits _ (if ?b then _ else _) => destruct b
      end ].

Lemma CreateTestPods_emits ctx nodes :
  emits (fun e => isPodsCreate e = true) (CreateTestPods ctx nodes).
Proof.
  unfold CreateTestPods. generalize (@nil TestPod).
  induction nodes as [|node rest IH]; intros testPods; simpl.
  - apply emits_ret.
  - apply emits_bind; [unfold PodsCreate; emits_step|].
    intros [e|]; [destruct (IsAlreadyExists e)|]; auto using emits_ret.
Qed.

Lemma WaitForPodsReady_emits ctx pods timeout :
  emits notNamespacesCreate (WaitForPodsReady ctx pods timeout).
Proof.
  unfold WaitForPodsReady. generalize (timeout / 2).
  induction pods as [|pod rest IH]; intros ticks; cbn [WaitForPodsReady_from].
  - apply emits_ret.
  - apply emits_bind.
    + apply emits_pollUntil. intros s.
      unfold podReadyCond, PodsGet. repeat emits_step.
    + intros [[err pod1] ticks1]. destruct err; [apply emits_ret|].
      apply emits_bind; [apply IH|]. intros [? ?]. apply emits_ret.
Qed.

Lemma discoverViaServices_emits ctx names : forall dnsIPs,
  emits notNamespacesCreate (discoverViaServices ctx names dnsIPs).
Proof.
  induction names as [|name rest IH]; intros dnsIPs; simpl.
  - apply emits_ret.
  - apply emits_bind; [unfold EndpointsGet; emits_step|].
    intros [ep|e]; [|apply IH].
    destruct (0 <? length (appendEndpointIPs dnsIPs ep));
      [apply emits_ret | apply IH].
Qed.

Lemma DiscoverCoreDNSPods_emits ctx :
  emits notNamespacesCreate (DiscoverCoreDNSPods ctx).
Proof.
  unfold DiscoverCoreDNSPods. apply emits_bind.
  - apply discoverViaServices_emits.
  - intros [returned dnsIPs]. destruct returned; [apply emits_ret|].
    unfold PodsList. repeat emits_step.
Qed.

Lemma StartListeners_emits ctx pods :
  emits notNamespacesCreate (StartListeners ctx pods).
Proof. unfold StartListeners, ExecInPod. repeat emits_step. Qed.

Lemma RunAllTests_emits ctx pods coreDNSIPs nodeIPs :
  emits notNamespacesCreate (RunAllTests ctx pods coreDNSIPs nodeIPs).
Proof.
  unfold RunAllTests, RunPodTests, TestCoreDNSConnectivity, TestDNSResolution,
    TestExternalTCP, TestKubeletConnectivity, TestPodToPod, ExecInPod.
  repeat emits_step.
Qed.

Lemma Run_guarded_emits ctx readyNodes testPods report :
  emits notNamespacesCreate (Run_guarded ctx readyNodes testPods report).
Proof.
  unfold Run_guarded.
  apply emits_bind; [apply WaitForPodsReady_emits|].
  intros [err pods1]. destruct err; [apply emits_ret|].
  apply emits_bind; [apply DiscoverCoreDNSPods_emits|]. intros r.
  apply emits_bind; [apply StartListeners_emits|]. intros _.
  apply emits_bind; [apply RunAllTests_emits|]. intros results.
  apply emits_ret.
Qed.

Lemma CleanupTestPods_trace ctx st :
  exists del gets,
    trace (CleanupTestPods ctx st).2 = trace st ++ del :: gets
    /\ isNamespacesDelete del = true
    /\ ev_ctx del = ctx
    /\ Forall (fun e => isNamespacesGet e = true) gets.
Proof.
  unfold CleanupTestPods, bind, NamespacesDelete, logged.
  destruct (Namespaces_Delete ctx testNamespace DeletePropagationForeground
                              (world st)) as [err w].
  set (st1 := {| world := w; trace := _; sched := sched st |}).
  destruct err as [e|].
  - eexists _, []. destruct (negb (IsNotFound e)); simpl; (split; [reflexivity | auto]).
  - match goal with
    | |- context [pollUntil ?x ?n ?i ?c ?s st1] =>
        destruct (emits_pollUntil (fun e => isNamespacesGet e = true) x c n i
                    ltac:(intros; unfold NamespacesGet; repeat emits_step) s st1)
          as (gets & Ht & Hgets);
        destruct (pollUntil x n i c s st1) as [r st2]
    end.
    simpl in *. rewrite Ht. subst st1. simpl. rewrite <- app_assoc. simpl.
    eexists _, gets. split; [reflexivity | auto].
Qed.

Lemma reclaimed_app pre post : reclaimed post = true -> reclaimed (pre ++ post) = true.
Proof.
  intros Hpost. induction pre as [|e pre IH]; simpl; [exact Hpost|].
  rewrite IH. apply orb_true_r.
Qed.

Lemma reclaimed_here del post :
  isNamespacesDelete del = true ->
  Forall (fun e => isCreate e = false) post ->
  reclaimed (del :: post) = true.
Proof.
  intros Hdel Hpost. simpl. rewrite Hdel. simpl.
  apply orb_true_iff. left. apply forallb_forall. intros e He.
  rewrite List.Forall_forall in Hpost. rewrite (Hpost e He). reflexivity.
Qed.

Lemma get_creates_nothing e :
  isNamespacesGet e = true -> isCreate e = false /\ notNamespacesCreate e.
Proof.
  unfold isNamespacesGet, isCreate, notNamespacesCreate, isNamespacesCreate.
  destruct (ev_call e); intros; try discriminate; auto.
Qed.

Lemma delete_creates_nothing e :
  isNamespacesDelete e = true -> notNamespacesCreate e.
Proof.
  unfold isNamespacesDelete, notNamespacesCreate, isNamespacesCreate.
  destruct (ev_call e); intros; try discriminate; auto.
Qed.

Lemma pod_creates_no_namespace e :
  isPodsCreate e = true -> notNamespacesCreate e.
Proof.
  unfold isPodsCreate, notNamespacesCreate, isNamespacesCreate.
  destruct (ev_call e); intros; try discriminate; auto.
Qed.

(** What follows the clean-up call [del]: only polls of the namespace. *)
Lemma cleanup_reclaims pre del gets :
  isNamespacesDelete del = true ->
  Forall (fun e => isNamespacesGet e = true) gets ->
  reclaimed (pre ++ del :: gets) = true
  /\ Forall notNamespacesCreate (del :: gets).
Proof.
  intros Hdel Hgets. split.
  - apply reclaimed_app, reclaimed_here; [exact Hdel|].
    eapply Forall_impl; [exact Hgets|]. intros e He.
    apply get_creates_nothing, He.
  - constructor; [apply delete_creates_nothing, Hdel|].
    eapply Forall_impl; [exact Hgets|]. intros e He.
    apply get_creates_nothing, He.
Qed.

(** The calls of [Run]: the creation of the namespace comes first; unless
    it failed, the namespace is deleted next and not created again, and
    the run ends reclaimed. *)
Lemma Run_trace ctx st :
  let out := Run ctx st in
  exists created rest,
    trace out.2 = trace st ++ created :: rest
    /\ isNamespacesCreate created = true
    /\ ev_ctx created = ctx
    /\ if accepted created
       then (exists del rest1,
                rest = del :: rest1
                /\ isNamespacesDelete del = true
                /\ ev_ctx del = ctx
                /\ Forall notNamespacesCreate rest1)
            /\ reclaimed rest = true
       else rest = [] /\ isOk out.1 = false.
Proof.
  cbv zeta. unfold Run, Now, EnsureNamespace, NamespacesCreate, logged, bind.
  destruct (time_Now (world st)) as [now w0]. cbv beta iota.
  match goal with
  | |- context [Namespaces_Create ctx ?ns ?w] =>
      destruct (Namespaces_Create ctx ns w) as [err w1];
      pose (created := {| ev_ctx := ctx;
                          ev_call := CallNamespacesCreate ns;
                          ev_err := err |})
  end.
  cbv beta iota.
  pose (st1 := {| world := w1; trace := trace st ++ [created]; sched := sched st |}).
  assert (Hgo :
            forall report,
            let out :=
              (bind (CleanupTestPods ctx)
                 (fun _ =>
                    bind (NodesList ctx)
                      (fun r =>
                         match r with
                         | Ok nodes =>
                             if (len (filterReadyNodes nodes) =? 0)%Z
                             then ret (Err (Errorf "no ready nodes found in cluster"))
                             else
                               bind (CreateTestPods ctx (filterReadyNodes nodes))
                                 (fun r0 =>
                                    match r0 with
                                    | Ok testPods =>
                                        bind (Run_guarded ctx (filterReadyNodes nodes)
                                                testPods (report nodes))
                                          (fun r1 =>
                                             bind (CleanupTestPods
                                                     (ctx_WithTimeout ctx_Background 30))
                                                  (fun _ => ret r1))
                                    | Err e =>
                                        bind (CleanupTestPods ctx)
                                          (fun _ =>
                                             ret (Err (Errorf_w
                                                         "failed to create test pods: " e)))
                                    end)
                         | Err e => ret (Err (Errorf_w "failed to list nodes: " e))
                         end)) st1) in
            exists del rest1,
              trace out.2 = trace st1 ++ del :: rest1
              /\ isNamespacesDelete del = true
              /\ ev_ctx del = ctx
              /\ Forall notNamespacesCreate rest1
              /\ reclaimed (del :: rest1) = true).
  { intros report. clearbody st1. unfold bind at 1.
    destruct (CleanupTestPods_trace ctx st1) as (del & gets & Ht2 & Hdel & Hctx & Hgets).
    destruct (CleanupTestPods ctx st1) as [? st2]. simpl in Ht2.
    destruct (cleanup_reclaims [] del gets Hdel Hgets) as [_ Hnc].
    apply Forall_cons_1 in Hnc as [_ Hnc].
    assert (Hgc : Forall (fun e => isCreate e = false) gets).
    { eapply Forall_impl; [exact Hgets|]. intros e He.
      apply get_creates_nothing, He. }
    unfold bind at 1, NodesList, logged.
    destruct (Nodes_List ctx (world st2)) as [r w3]. simpl.
    match goal with
    | |- context [trace st2 ++ [?ev]] => set (listed := ev)
    end.
    set (st3 := {| world := w3; trace := trace st2 ++ [listed]; sched := sched st2 |}).
    assert (Hleaf : trace st3 = trace st1 ++ del :: gets ++ [listed]).
    { subst st3; simpl. rewrite Ht2, <- app_assoc. reflexivity. }
    clearbody st3.
    assert (Hstop :
              forall e : error,
              exists del0 rest1,
                trace (ret (Err e : result NetworkTestReport) st3).2
                = trace st1 ++ del0 :: rest1
                /\ isNamespacesDelete del0 = true
                /\ ev_ctx del0 = ctx
                /\ Forall notNamespacesCreate rest1
                /\ reclaimed (del0 :: rest1) = true).
    { intros e. exists del, (gets ++ [listed]). simpl.
      split; [exact Hleaf|]. split; [exact Hdel|]. split; [exact Hctx|]. split.
      - apply Forall_app. split; [exact Hnc|]. constructor; [reflexivity|constructor].
      - apply reclaimed_here; [exact Hdel|].
        apply Forall_app. split; [exact Hgc|]. constructor; [reflexivity|constructor]. }
    destruct r as [nodes|e]; [|apply Hstop].
    destruct (len (filterReadyNodes nodes) =? 0)%Z; [apply Hstop|].
    unfold bind at 1.
    destruct (CreateTestPods_emits ctx (filterReadyNodes nodes) st3)
      as (creates & Ht4 & Hcreates).
    destruct (CreateTestPods ctx (filterReadyNodes nodes) st3) as [r st4].
    simpl in Ht4.
    assert (Hcr : Forall notNamespacesCreate creates).
    { eapply Forall_impl; [exact Hcreates|]. apply pod_creates_no_namespace. }
    destruct r as [testPods|e].
    - unfold bind at 1.
      destruct (Run_guarded_emits ctx (filterReadyNodes nodes) testPods
                  (report nodes) st4) as (evs & Ht5 & Hevs).
      destruct (Run_guarded ctx (filterReadyNodes nodes) testPods (report nodes) st4)
        as [r1 st5]. simpl in Ht5.
      unfold bind at 1.
      destruct (CleanupTestPods_trace (ctx_WithTimeout ctx_Background 30) st5)
        as (del2 & gets2 & Ht6 & Hdel2 & _ & Hgets2).
      destruct (CleanupTestPods (ctx_WithTimeout ctx_Background 30) st5) as [? st6].
      simpl in Ht6. simpl.
      exists del, (gets ++ [listed] ++ creates ++ evs ++ del2 :: gets2).
      destruct (cleanup_reclaims (del :: gets ++ [listed] ++ creates ++ evs)
                  del2 gets2 Hdel2 Hgets2) as [Hrec Hnc2].
      split; [|split; [exact Hdel|split; [exact Hctx|split]]].
      + rewrite Ht6, Ht5, Ht4, Hleaf.
        repeat (rewrite <- app_assoc || rewrite <- app_comm_cons). reflexivity.
      + repeat (apply Forall_app; split); auto.
        constructor; [reflexivity|constructor].
      + rewrite <- Hrec.
        repeat (rewrite <- app_assoc || rewrite <- app_comm_cons). reflexivity.
    - unfold bind at 1.
      destruct (CleanupTestPods_trace ctx st4)
        as (del2 & gets2 & Ht6 & Hdel2 & _ & Hgets2).
      destruct (CleanupTestPods ctx st4) as [? st6].
      simpl in Ht6. simpl.
      exists del, (gets ++ [listed] ++ creates ++ del2 :: gets2).
      destruct (cleanup_reclaims (del :: gets ++ [listed] ++ creates)
                  del2 gets2 Hdel2 Hgets2) as [Hrec Hnc2].
      split; [|split; [exact Hdel|split; [exact Hctx|split]]].
      + rewrite Ht6, Ht4, Hleaf.
        repeat (rewrite <- app_assoc || rewrite <- app_comm_cons). reflexivity.
      + repeat (apply Forall_app; split); auto.
        constructor; [reflexivity|constructor].
      + rewrite <- Hrec.
        repeat (rewrite <- app_assoc || rewrite <- app_comm_cons). reflexivity. }
  assert (Hcont :
            accepted created = true ->
            forall out : result NetworkTestReport * St W,
              (exists del rest1,
                  trace out.2 = trace st1 ++ del :: rest1
                  /\ isNamespacesDelete del = true
                  /\ ev_ctx del = ctx
                  /\ Forall notNamespacesCreate rest1
                  /\ reclaimed (del :: rest1) = true) ->
              exists created0 rest,
                trace out.2 = trace st ++ created0 :: rest
                /\ isNamespacesCreate created0 = true
                /\ ev_ctx created0 = ctx
                /\ (if accepted created0
                    then (exists del rest1,
                             rest = del :: rest1
                             /\ isNamespacesDelete del = true
                             /\ ev_ctx del = ctx
                             /\ Forall notNamespacesCreate rest1)
                         /\ reclaimed rest = true
                    else rest = [] /\ isOk out.1 = false)).
  { intros Hacc out (del & rest1 & Ht & Hdel & Hctx & Hnc & Hrec).
    exists created, (del :: rest1). rewrite Hacc.
    split; [|split; [reflexivity|split; [reflexivity|split; [eauto 10|exact Hrec]]]].
    rewrite Ht. subst st1. simpl. rewrite <- app_assoc. reflexivity. }
  pose proof (Hgo (fun nodes =>
                     {| Timestamp := now;
                        NodeCount := len (filterReadyNodes nodes);
                        PodCount := 0;
                        TestResults := [];
                        Summary := {| Total := 0; Passed := 0; Failed := 0 |} |}))
    as Htail.
  cbv zeta in Htail. clear Hgo.
  destruct err as [e|]; [destruct (IsAlreadyExists e) eqn:Hexists|].
  - assert (Hacc : accepted created = true) by exact Hexists.
    exact (Hcont Hacc _ Htail).
  - exists created, []. unfold accepted; simpl. rewrite Hexists. auto.
  - exact (Hcont eq_refl _ Htail).
Qed.

(** C2, as the code has it: on every exit path of [Run] that comes after
    the namespace was ensured (its creation returned no error or
    AlreadyExists), that is success, failure to list the nodes, no ready
    node, failure to create a pod and readiness timeout, the namespace
    has been asked to be deleted and nothing was created after the last
    such call.  When ensuring the namespace fails, [Run] returns the
    error having made no other call. *)
Theorem Run_reclaims_once_namespace_ensured ctx st :
  let out := Run ctx st in
  exists created rest,
    since st out.2 = created :: rest
    /\ isNamespacesCreate created = true
    /\ if accepted created
       then reclaimed rest = true
            /\ existsb isNamespacesDelete rest = true
       else rest = [] /\ isOk out.1 = false.
Proof.
  intros out.
  destruct (Run_trace ctx st) as (created & rest & Ht & Hc & _ & Hrest).
  fold out in Ht, Hrest.
  exists created, rest. split; [apply since_app, Ht|]. split; [exact Hc|].
  destruct (accepted created); [|exact Hrest].
  destruct Hrest as [(del & rest1 & -> & Hdel & _) Hrec].
  split; [exact Hrec|]. simpl. rewrite Hdel. reflexivity.
Qed.

(** In every run that gets past [EnsureNamespace], the namespace is
    deleted by the very next call and never created again: what the pods
    are created into is not the namespace this run created. *)
Lemma Run_deletes_the_namespace_it_created ctx st :
  let out := Run ctx st in
  exists created rest,
    since st out.2 = created :: rest
    /\ isNamespacesCreate created = true
    /\ (accepted created = true ->
        exists del rest1,
          rest = del :: rest1
          /\ isNamespacesDelete del = true
          /\ ev_ctx del = ctx
          /\ Forall notNamespacesCreate rest1).
Proof.
  intros out.
  destruct (Run_trace ctx st) as (created & rest & Ht & Hc & _ & Hrest).
  fold out in Ht, Hrest.
  exists created, rest. split; [apply since_app, Ht|]. split; [exact Hc|].
  intros Hacc. rewrite Hacc in Hrest. apply Hrest.
Qed.

End Proofs.

(** ** Runs on the in-memory cluster *)

(** C1 fails on the code: [Run] creates the namespace first and cleans up
    second.  On a cluster without a leftover namespace the namespace just
    created is deleted, [Run] waits until it is gone, and the first pod is
    then refused because its namespace does not exist; [Run] returns that
    error. *)
Theorem Run_fresh_cluster_loses_its_namespace :
  let out := Run ctx_Caller (start freshCluster []) in
  map outcome (trace out.2)
  = [("Namespaces.Create", None);
     ("Namespaces.Delete", None);
     ("Namespaces.Get", None);
     ("Namespaces.Get", None);
     ("Namespaces.Get", Some ReasonNotFound);
     ("Nodes.List", None);
     ("Pods.Create", Some ReasonNotFound);
     ("Namespaces.Delete", Some ReasonNotFound)]
  /\ out.1 = Err {| err_Error := "failed to create test pods: failed to create pod on node node-a: namespace not found";
                    err_Reason := ReasonNotFound |}
  /\ fc_namespace (world out.2) = NsAbsent.
Proof. vm_compute. repeat split; reflexivity. Qed.

Lemma pollTicks_inv {W} `{Env W} {S} (I : St W -> Prop) ctx
      (cond : S -> M W (bool * option error * S)) ticks :
  (forall st, I st -> I (ContextWait ctx st).2) ->
  (forall s st, I st -> I (cond s st).2) ->
  forall s st, I st -> I (pollTicks ctx ticks cond s st).2.
Proof.
  intros Hwait Hcond. induction ticks as [|k IH]; intros s st Hst; simpl.
  - unfold bind. specialize (Hwait st Hst).
    destruct (ContextWait ctx st) as [done st0]. exact Hwait.
  - unfold bind. specialize (Hwait st Hst).
    destruct (ContextWait ctx st) as [done st0]. simpl in Hwait.
    destruct done; [exact Hwait|].
    specialize (Hcond s st0 Hwait).
    destruct (cond s st0) as [[[ok err] s1] st1]. simpl in Hcond.
    destruct err; [exact Hcond|]. destruct ok; [exact Hcond | apply IH, Hcond].
Qed.

Lemma pollUntil_inv {W} `{Env W} {S} (I : St W -> Prop) ctx
      (cond : S -> M W (bool * option error * S)) ticks immediate :
  (forall st, I st -> I (ContextWait ctx st).2) ->
  (forall s st, I st -> I (cond s st).2) ->
  forall s st, I st -> I (pollUntil ctx ticks immediate cond s st).2.
Proof.
  intros Hwait Hcond s st Hst. unfold pollUntil. destruct immediate.
  - unfold bind. pose proof (Hcond s st Hst) as H1.
    destruct (cond s st) as [[[ok err] s1] st1]. simpl in H1.
    destruct err; [exact H1|].
    destruct ok; [exact H1 | apply pollTicks_inv; assumption].
  - apply pollTicks_inv; assumption.
Qed.

Lemma fc_Namespaces_Get_keeps_inactive w :
  fc_namespace w <> NsActive ->
  fc_namespace (fc_Namespaces_Get testNamespace w).2 <> NsActive.
Proof.
  unfold fc_Namespaces_Get. rewrite bool_decide_true by reflexivity. simpl.
  destruct (fc_namespace w) as [| |[|k]] eqn:E; simpl; congruence.
Qed.

Lemma fc_Namespaces_Delete_deactivates w :
  fc_namespace (fc_Namespaces_Delete testNamespace w).2 <> NsActive.
Proof.
  unfold fc_Namespaces_Delete. rewrite bool_decide_true by reflexivity. simpl.
  destruct (fc_namespace w) eqn:E; simpl; congruence.
Qed.

Lemma fc_Pods_Create_refused pod w :
  fc_namespace w <> NsActive ->
  exists e, fc_Pods_Create testNamespace pod w = (Some e, w)
            /\ IsAlreadyExists e = false.
Proof.
  intros Hns. unfold fc_Pods_Create. rewrite bool_decide_true by reflexivity.
  simpl. destruct (fc_namespace w); [|contradiction|]; eexists; split; reflexivity.
Qed.

(** On the in-memory cluster the namespace is never active once
    [CleanupTestPods] has returned. *)
Lemma CleanupTestPods_leaves_no_active_namespace ctx (st : St FakeCluster) :
  fc_namespace (world (CleanupTestPods ctx st).2) <> NsActive.
Proof.
  unfold CleanupTestPods, bind, NamespacesDelete, logged.
  change (Namespaces_Delete ctx testNamespace DeletePropagationForeground (world st))
    with (fc_Namespaces_Delete testNamespace (world st)).
  pose proof (fc_Namespaces_Delete_deactivates (world st)) as Hdel.
  destruct (fc_Namespaces_Delete testNamespace (world st)) as [err w]. simpl in Hdel.
  destruct err as [e|].
  - destruct (negb (IsNotFound e)); exact Hdel.
  - match goal with
    | |- context [pollUntil ?x ?n ?i ?c ?s ?st1] =>
        pose proof (pollUntil_inv
                      (fun st2 : St FakeCluster => fc_namespace (world st2) <> NsActive)
                      x c n i) as Hpoll;
        specialize (Hpoll
                      ltac:(intros st2 Hst2; exact Hst2)
                      ltac:(intros ? st2 Hst2; unfold bind, NamespacesGet, logged, ret;
                            change (Namespaces_Get (ctx_WithTimeout ctx 30) testNamespace
                                                   (world st2))
                              with (fc_Namespaces_Get testNamespace (world st2));
                            pose proof (fc_Namespaces_Get_keeps_inactive _ Hst2) as Hg;
                            destruct (fc_Namespaces_Get testNamespace (world st2));
                            exact Hg)
                      s st1 Hdel);
        destruct (pollUntil x n i c s st1) as [r st2]
    end.
    exact Hpoll.
Qed.

(** Hence no run on the in-memory cluster, whatever its state and the
    runtime's choices, gets a report: the first pod is refused. *)
Lemma Run_never_reports_on_FakeCluster ctx (st : St FakeCluster) :
  isOk (Run ctx st).1 = false.
Proof.
  unfold Run, bind, ret.
  destruct (Now st) as [now st0].
  destruct (EnsureNamespace ctx st0) as [[e|] st1]; [reflexivity|].
  pose proof (CleanupTestPods_leaves_no_active_namespace ctx st1) as Hns.
  destruct (CleanupTestPods ctx st1) as [o st2]. simpl in Hns.
  unfold NodesList, logged.
  change (Nodes_List ctx (world st2)) with (fc_nodes (world st2), world st2).
  cbv beta iota.
  destruct (fc_nodes (world st2)) as [nodes|e]; [|reflexivity].
  destruct (len (filterReadyNodes nodes) =? 0)%Z eqn:Hz; [reflexivity|].
  destruct (filterReadyNodes nodes) as [|node rest]; [discriminate Hz|].
  unfold CreateTestPods. cbn [CreateTestPods_from].
  unfold bind, PodsCreate, logged. cbn [world].
  match goal with
  | |- context [Pods_Create ctx testNamespace ?pod (world st2)] =>
      change (Pods_Create ctx testNamespace pod (world st2))
        with (fc_Pods_Create testNamespace pod (world st2));
      destruct (fc_Pods_Create_refused pod (world st2) Hns) as (e & -> & He)
  end.
  cbv beta iota. unfold id. rewrite He. unfold ret. cbv beta iota.
  match goal with
  | |- context [CleanupTestPods ctx ?s] => destruct (CleanupTestPods ctx s)
  end.
  reflexivity.
Qed.

(** C2 as stated fails: when the namespace cannot be created [Run] returns
    the error without ever calling the clean-up. *)
Lemma Run_denied_namespace_no_cleanup :
  let out := Run ctx_Caller (start deniedCluster []) in
  isOk out.1 = false
  /\ map outcome (trace out.2) = [("Namespaces.Create", Some ReasonForbidden)]
  /\ existsb isNamespacesDelete (trace out.2) = false.
Proof. vm_compute. repeat split; reflexivity. Qed.

(** C5 as stated fails: the entry skipped is the one under the source
    node's name, so when another node reports the same internal IP, the
    pod of node-a probes that IP, which is node-a's own. *)
Lemma kubelet_probe_targets_own_IP :
  let nodeIPs := GetNodeInternalIPs sameIPNodes in
  let pod := testPodFor (readyNode "node-a" "10.0.0.1") in
  let rs := (TestKubeletConnectivity ctx_Caller pod nodeIPs
                                     (start freshCluster [])).1 in
  nodeIPs !! "node-a" = Some "10.0.0.1"
  /\ map (fun r => (SourceNode r, TestType r, Target r)) rs
     = [("node-a", "kubelet", "10.0.0.1:10250 (node-b)")].
Proof. vm_compute. split; reflexivity. Qed.

Lemma DiscoverCoreDNSPods_errors_only_when_nothing_found_witness :
  let st := (CreateTestPods ctx_Caller twoNodes (start emptyDNSCluster [])).2 in
  exists rep st3,
    Run_guarded ctx_Caller twoNodes (map testPodFor twoNodes)
                {| Timestamp := 0; NodeCount := 2; PodCount := 0;
                   TestResults := [];
                   Summary := {| Total := 0; Passed := 0; Failed := 0 |} |} st
    = (Ok rep, st3)
    /\ Forall (fun r => TestType r <> "coredns") (TestResults rep)
    /\ map TestType (TestResults rep)
       = ["dns"; "external-tcp"; "kubelet"; "pod-to-pod";
          "dns"; "external-tcp"; "kubelet"; "pod-to-pod"].
Proof.
  intros st.
  edestruct (proj1 (proj2 (proj2 (DiscoverCoreDNSPods_errors_only_when_nothing_found
                                    (W := FakeCluster) ctx_Caller)))
               twoNodes (map testPodFor twoNodes)
               {| Timestamp := 0; NodeCount := 2; PodCount := 0;
                  TestResults := [];
                  Summary := {| Total := 0; Passed := 0; Failed := 0 |} |} st)
    as (rep & st3 & Hrun & Hres & Hno).
  - vm_compute. reflexivity.
  - vm_compute. reflexivity.
  - exists rep, st3. split; [exact Hrun|]. split; [exact Hno|].
    rewrite Hres. vm_compute. reflexivity.
Defined.

Lemma Run_summary_counts_witness :
  let results :=
    [{| SourceNode := "node-a"; SourcePod := "nettest-node-a"; TestType := "dns";
        Target := "github.com"; Success := true; Error := "" |};
     {| SourceNode := "node-a"; SourcePod := "nettest-node-a";
        TestType := "kubelet"; Target := "192.168.0.2:10250 (node-b)";
        Success := false; Error := "command terminated with exit code 1" |}] in
  Total (summarize results) = 2%Z
  /\ Passed (summarize results) = 1%Z
  /\ Failed (summarize results) = 1%Z
  /\ (Passed (summarize results) + Failed (summarize results)
      = Total (summarize results))%Z.
Proof.
  intros results.
  apply (proj1 (Run_summary_counts (W := FakeCluster)) results).
  vm_compute. discriminate.
Defined.

Lemma WaitForPodsReady_ready_when_running_witness :
  let pod := {| Name := "nettest-node-a"; NodeName := "node-a"; PodIP := "" |} in
  (WaitForPodsReady ctx_Caller [pod] 90 (start barePodCluster [])).1
  = (None, [{| Name := "nettest-node-a"; NodeName := "node-a"; PodIP := "" |}]).
Proof.
  intros pod.
  rewrite (proj2 (WaitForPodsReady_ready_when_running
                    (W := FakeCluster) ctx_Caller pod 90 (start barePodCluster []))
                 barePod).
  - reflexivity.
  - reflexivity.
  - reflexivity.
  - intros cs [].
Defined.

(** * Further properties of the package and of its caller *)

(** ** Substring tests and name derivation *)

Lemma containsSubstring_spec s substr :
  containsSubstring s substr = true <-> hasSubstring substr s.
Proof.
  unfold containsSubstring. rewrite containsSubstringFrom_spec. split.
  - intros (j & _ & Hsub). eapply substring_split, Hsub.
  - intros (pre & post & ->). exists (String.length pre).
    rewrite !string_app_length. split; [lia|].
    rewrite substring_skip_app. apply substring_prefix_app.
Qed.

(** X1: [contains] and [containsSubstring] both decide whether [substr]
    occurs in [s] as a contiguous run of bytes (the length and equality
    tests in front of the loop of [contains] change nothing); the empty
    string occurs in every string; [containsDNSComponent] holds of the
    names in which coredns or kube-dns occurs. *)
Theorem contains_decides_occurrence s substr :
  (contains s substr = true <-> exists pre post, s = pre +:+ substr +:+ post)
  /\ containsSubstring s substr = contains s substr
  /\ contains s "" = true
  /\ (containsDNSComponent s = true
      <-> hasSubstring "coredns" s \/ hasSubstring "kube-dns" s).
Proof.
  split; [apply contains_spec|]. split; [|split].
  - destruct (contains s substr) eqn:Hc.
    + apply containsSubstring_spec, contains_spec, Hc.
    + destruct (containsSubstring s substr) eqn:Hs; [|reflexivity].
      apply containsSubstring_spec, contains_spec in Hs. congruence.
  - apply contains_spec. exists "", s. reflexivity.
  - unfold containsDNSComponent. rewrite orb_true_iff, !contains_spec. reflexivity.
Qed.

(** X2: sanitizing a name a second time changes nothing, and a derived pod
    name is the prefix nettest- followed by as many bytes as the node name
    has, up to 50: at most 58 bytes in all. *)
Theorem sanitizeNodeName_idempotent name :
  sanitizeNodeName (sanitizeNodeName name) = sanitizeNodeName name
  /\ String.length (podNameFor name) = 8 + Nat.min 50 (String.length name)
  /\ String.length (podNameFor name) <= 58
  /\ podNameFor (sanitizeNodeName name) = podNameFor name.
Proof.
  assert (Hidem : sanitizeNodeName (sanitizeNodeName name) = sanitizeNodeName name).
  { apply sanitizeNodeName_fixes_valid; [apply sanitizeNodeName_valid|].
    rewrite sanitizeNodeName_length. lia. }
  assert (Hlen : String.length (podNameFor name)
                 = 8 + Nat.min 50 (String.length name)).
  { unfold podNameFor. rewrite string_app_length, sanitizeNodeName_length.
    reflexivity. }
  split; [exact Hidem|]. split; [exact Hlen|]. split; [lia|].
  unfold podNameFor. rewrite Hidem. reflexivity.
Qed.

(** ** GetNodeInternalIPs *)

Lemma firstInternalIP_spec addrs ip :
  firstInternalIP addrs = Some ip
  <-> exists pre a post,
      addrs = pre ++ a :: post
      /\ isInternalIP a /\ corev1.Address a = ip
      /\ Forall (fun b => ~ isInternalIP b) pre.
Proof.
  unfold isInternalIP. induction addrs as [|b rest IH]; simpl.
  - split; [discriminate|]. intros (pre & a & post & Heq & _).
    destruct pre; discriminate.
  - destruct (bool_decide_reflect (corev1.AddrType b = corev1.NodeInternalIP))
      as [Hb|Hb].
    + split.
      * intros [= <-]. exists [], b, rest. auto.
      * intros ([|c pre] & a & post & Heq & Ha & Hip & Hpre).
        -- injection Heq as -> ->. congruence.
        -- injection Heq as -> ->. apply Forall_cons_1 in Hpre as [Hc _].
           contradiction.
    + rewrite IH. split.
      * intros (pre & a & post & -> & Ha & Hip & Hpre).
        exists (b :: pre), a, post. auto.
      * intros ([|c pre] & a & post & Heq & Ha & Hip & Hpre).
        -- injection Heq as -> ->. contradiction.
        -- injection Heq as -> ->. apply Forall_cons_1 in Hpre as [_ Hpre].
           exists pre, a, post. auto.
Qed.

Lemma GetNodeInternalIPs_snoc nodes node :
  GetNodeInternalIPs (nodes ++ [node])
  = match firstInternalIP (corev1.Node_Addresses node) with
    | Some a => <[corev1.Node_Name node := a]> (GetNodeInternalIPs nodes)
    | None => GetNodeInternalIPs nodes
    end.
Proof. unfold GetNodeInternalIPs. rewrite fold_left_app. reflexivity. Qed.

Lemma GetNodeInternalIPs_sound nodes : forall name ip,
  GetNodeInternalIPs nodes !! name = Some ip ->
  exists node, In node nodes /\ corev1.Node_Name node = name
               /\ firstInternalIP (corev1.Node_Addresses node) = Some ip.
Proof.
  induction nodes as [|node nodes IH] using rev_ind; intros name ip Hlook.
  - discriminate.
  - rewrite GetNodeInternalIPs_snoc in Hlook.
    destruct (firstInternalIP (corev1.Node_Addresses node)) as [a|] eqn:Hfirst.
    + destruct (decide (corev1.Node_Name node = name)) as [Hn|Hn].
      * rewrite Hn, lookup_insert_eq in Hlook. injection Hlook as ->.
        exists node. rewrite in_app_iff. simpl. auto.
      * rewrite lookup_insert_ne in Hlook by exact Hn.
        destruct (IH _ _ Hlook) as (n & Hin & Hname & Hip).
        exists n. rewrite in_app_iff. auto.
    + destruct (IH _ _ Hlook) as (n & Hin & Hname & Hip).
      exists n. rewrite in_app_iff. auto.
Qed.

(** X3: the node-IP map holds, under a node's name, the first address of
    type InternalIP of a node of that name ([firstInternalIP] skips the
    addresses of other types in front of it), and nothing under the name
    of a node without such an address; of several nodes with one name the
    last one with an internal IP wins; when the names are distinct every
    node with an internal IP is in the map. *)
Theorem GetNodeInternalIPs_lookup nodes :
  (forall name ip,
      GetNodeInternalIPs nodes !! name = Some ip ->
      exists node pre a post,
        In node nodes /\ corev1.Node_Name node = name
        /\ corev1.Node_Addresses node = pre ++ a :: post
        /\ isInternalIP a /\ corev1.Address a = ip
        /\ Forall (fun b => ~ isInternalIP b) pre)
  /\ (forall node,
         GetNodeInternalIPs (nodes ++ [node]) !! corev1.Node_Name node
         = match firstInternalIP (corev1.Node_Addresses node) with
           | Some a => Some a
           | None => GetNodeInternalIPs nodes !! corev1.Node_Name node
           end)
  /\ (NoDup (map corev1.Node_Name nodes) ->
      forall node ip,
        In node nodes ->
        firstInternalIP (corev1.Node_Addresses node) = Some ip ->
        GetNodeInternalIPs nodes !! corev1.Node_Name node = Some ip)
  /\ size (GetNodeInternalIPs nodes) <= length nodes.
Proof.
  split; [|split; [|split]].
  - intros name ip Hlook.
    destruct (GetNodeInternalIPs_sound _ _ _ Hlook) as (node & Hin & Hname & Hip).
    apply firstInternalIP_spec in Hip as (pre & a & post & Haddrs & Ha & Hip & Hpre).
    exists node, pre, a, post. repeat split; assumption.
  - intros node. rewrite GetNodeInternalIPs_snoc.
    destruct (firstInternalIP (corev1.Node_Addresses node));
      [apply lookup_insert_eq | reflexivity].
  - induction nodes as [|n nodes IH] using rev_ind; intros Hnodup node ip Hin Hip.
    + destruct Hin.
    + rewrite map_app, NoDup_app in Hnodup. destruct Hnodup as (Hnd & Hfresh & _).
      rewrite GetNodeInternalIPs_snoc.
      apply in_app_iff in Hin as [Hin|[<-|[]]].
      * assert (Hne : corev1.Node_Name n <> corev1.Node_Name node).
        { intros Heq. apply (Hfresh (corev1.Node_Name node)).
          - apply list_elem_of_In, in_map, Hin.
          - rewrite <- Heq. simpl. left. }
        destruct (firstInternalIP (corev1.Node_Addresses n)).
        -- rewrite lookup_insert_ne by exact Hne. apply IH; assumption.
        -- apply IH; assumption.
      * rewrite Hip. apply lookup_insert_eq.
  - induction nodes as [|n nodes IH] using rev_ind; [reflexivity|].
    rewrite GetNodeInternalIPs_snoc, length_app. simpl.
    destruct (firstInternalIP (corev1.Node_Addresses n)); [|lia].
    destruct (GetNodeInternalIPs nodes !! corev1.Node_Name n) eqn:Hl.
    + rewrite map_size_insert_Some by eauto. lia.
    + rewrite map_size_insert_None by exact Hl. lia.
Qed.

Lemma GetNodeInternalIPs_lookup_witness :
  GetNodeInternalIPs twoNodes !! "node-b" = Some "192.168.0.2".
Proof.
  assert (Hnames : NoDup (map corev1.Node_Name twoNodes)).
  { apply (bool_decide_unpack _). vm_compute. exact I. }
  apply (proj1 (proj2 (proj2 (GetNodeInternalIPs_lookup twoNodes))) Hnames
           (readyNode "node-b" "192.168.0.2") "192.168.0.2").
  - simpl. auto.
  - reflexivity.
Defined.

(** ** The caller: from the report to checks and an exit status *)

Lemma ofType_cons ty r results :
  ofType ty (r :: results)
  = if bool_decide (TestType r = ty) then r :: ofType ty results
    else ofType ty results.
Proof. reflexivity. Qed.

Lemma groupByType_fold results : forall (m : gmap string (list TestResult)) ty,
  fold_left
    (fun byType tr =>
       <[TestType tr := default [] (byType !! TestType tr) ++ [tr]]> byType)
    results m !! ty
  = match ofType ty results with
    | [] => m !! ty
    | l => Some (default [] (m !! ty) ++ l)
    end.
Proof.
  induction results as [|r rest IH]; intros m ty; [reflexivity|].
  cbn [fold_left]. rewrite IH, ofType_cons.
  destruct (bool_decide_reflect (TestType r = ty)) as [Hty|Hty].
  - rewrite Hty, lookup_insert_eq. cbn [default].
    destruct (ofType ty rest) as [|r' l]; [reflexivity|].
    unfold id. rewrite <- app_assoc. reflexivity.
  - rewrite lookup_insert_ne by exact Hty. reflexivity.
Qed.

Lemma groupByType_lookup results ty :
  groupByType results !! ty
  = match ofType ty results with [] => None | l => Some l end.
Proof.
  unfold groupByType. rewrite groupByType_fold, lookup_empty.
  destruct (ofType ty results); reflexivity.
Qed.

Lemma hasType_ofType ty results :
  hasType ty results = match ofType ty results with [] => false | _ => true end.
Proof.
  induction results as [|r rest IH]; [reflexivity|].
  unfold hasType in *. cbn [existsb]. rewrite ofType_cons.
  destruct (bool_decide (TestType r = ty)); [reflexivity | exact IH].
Qed.

Lemma len_ofType ty results : (len (ofType ty results) <= len results)%Z.
Proof.
  unfold len, ofType. pose proof (List.filter_length_le
    (fun r => bool_decide (TestType r = ty)) results). lia.
Qed.

Lemma failedTests_cons r results :
  failedTests (r :: results)
  = if Success r then failedTests results else r :: failedTests results.
Proof. unfold failedTests. simpl. destruct (Success r); reflexivity. Qed.

Lemma checkOutcome_fold ty trs : forall p f rs,
  (0 <= p)%Z -> (0 <= f)%Z ->
  (p + len trs <= MaxInt)%Z -> (f + len trs <= MaxInt)%Z ->
  fold_left (checkOutcome ty) trs
            (p, f, {| probe.Check_Name := "network-test-" +:+ ty;
                      probe.Tier := 4; probe.Results := rs |})
  = ((p + countSuccess true trs)%Z, (f + countSuccess false trs)%Z,
     {| probe.Check_Name := "network-test-" +:+ ty;
        probe.Tier := 4;
        probe.Results := rs ++ map (failureOf ty) (failedTests trs) |}).
Proof.
  induction trs as [|tr rest IH]; intros p f rs Hp Hf Hpb Hfb.
  - cbn [fold_left failedTests List.filter map]. rewrite app_nil_r.
    unfold countSuccess, len. simpl. rewrite !Z.add_0_r. reflexivity.
  - assert (Hlen : len (tr :: rest) = (1 + len rest)%Z)
      by (unfold len; simpl length; lia).
    rewrite Hlen in Hpb, Hfb.
    pose proof (countSuccess_bounds true rest).
    cbn [fold_left]. rewrite !countSuccess_cons, failedTests_cons.
    unfold checkOutcome at 2. cbn [probe.Check_Name probe.Tier probe.Results].
    destruct (Success tr); cbn [Bool.eqb].
    + rewrite wrap64_small by (unfold MaxInt in *; lia).
      rewrite IH by (unfold len in *; lia).
      repeat (f_equal; try lia).
    + rewrite wrap64_small by (unfold MaxInt in *; lia).
      rewrite IH by (unfold len in *; lia).
      cbn [map]. rewrite <- app_assoc. cbn [app].
      repeat (f_equal; try lia).
Qed.

Lemma forallb_Success_counts trs :
  if forallb Success trs
  then countSuccess false trs = 0%Z /\ countSuccess true trs = len trs
  else (0 < countSuccess false trs)%Z.
Proof.
  induction trs as [|tr rest IH]; [split; reflexivity|].
  cbn [forallb]. rewrite !countSuccess_cons.
  pose proof (countSuccess_bounds false rest).
  destruct (Success tr); cbn [andb Bool.eqb].
  - destruct (forallb Success rest); [|lia].
    destruct IH as [-> ->]. unfold len. simpl length. split; lia.
  - lia.
Qed.

Lemma convertNetworkReport_spec r :
  (len (TestResults r) <= MaxInt)%Z ->
  convertNetworkReport r
  = map (fun ty => checkFor ty (ofType ty (TestResults r)))
        (List.filter (fun ty => hasType ty (TestResults r)) typeOrder).
Proof.
  intros Hlen. unfold convertNetworkReport. cbv zeta.
  set (results := TestResults r) in *.
  match goal with |- fold_left ?f _ _ = _ => set (body := f) end.
  assert (Hbody : forall acc ty,
             body acc ty
             = acc ++ (if hasType ty results
                       then [checkFor ty (ofType ty results)] else [])).
  { intros acc ty. unfold body. rewrite groupByType_lookup, hasType_ofType.
    pose proof (len_ofType ty results) as Hle.
    destruct (ofType ty results) as [|tr trs] eqn:Htrs;
      [rewrite app_nil_r; reflexivity|].
    rewrite checkOutcome_fold by lia. cbv beta iota.
    cbn [probe.Check_Name probe.Tier probe.Results app].
    rewrite !Z.add_0_l. unfold checkFor.
    pose proof (forallb_Success_counts (tr :: trs)) as Hall.
    destruct (forallb Success (tr :: trs)).
    - destruct Hall as [-> ->].
      assert (Hpos : (0 <? len (tr :: trs))%Z = true)
        by (apply Z.ltb_lt; unfold len; simpl length; lia).
      rewrite Hpos.
      reflexivity.
    - assert (Hsome : (countSuccess false (tr :: trs) =? 0)%Z = false)
        by (apply Z.eqb_neq; lia).
      rewrite Hsome. cbn [andb]. rewrite app_nil_r. reflexivity. }
  clearbody body.
  assert (Hloop : forall tys acc,
             fold_left body tys acc
             = acc ++ map (fun ty => checkFor ty (ofType ty results))
                          (List.filter (fun ty => hasType ty results) tys)).
  { induction tys as [|ty tys IH]; intros acc.
    - cbn. rewrite app_nil_r. reflexivity.
    - cbn [fold_left List.filter]. rewrite IH, Hbody.
      destruct (hasType ty results).
      + rewrite <- app_assoc. reflexivity.
      + rewrite app_nil_r. reflexivity. }
  rewrite Hloop. reflexivity.
Qed.

Lemma MaxSeverity_fold rs : forall m,
  let M := fold_left
             (fun max r => if (max <? probe.Severity r)%Z
                           then probe.Severity r else max) rs m in
  (m <= M)%Z
  /\ (forall r, In r rs -> (probe.Severity r <= M)%Z)
  /\ (M = m \/ exists r, In r rs /\ probe.Severity r = M).
Proof.
  induction rs as [|r rest IH]; intros m; cbn [fold_left].
  - split; [lia|]. split; [intros r []|]. left. reflexivity.
  - cbv zeta in IH.
    destruct (IH (if (m <? probe.Severity r)%Z then probe.Severity r else m))
      as (Hle & Hall & Hatt).
    destruct (Z.ltb_spec m (probe.Severity r)) as [Hlt|Hge].
    + split; [lia|]. split.
      * intros x [<-|Hx]; [exact Hle | apply Hall, Hx].
      * right. destruct Hatt as [->|(x & Hx & Hsev)].
        -- exists r. simpl. auto.
        -- exists x. simpl. auto.
    + split; [exact Hle|]. split.
      * intros x [<-|Hx]; [lia | apply Hall, Hx].
      * destruct Hatt as [->|(x & Hx & Hsev)]; [left; reflexivity|].
        right. exists x. simpl. auto.
Qed.

(** X4: [MaxSeverity] is the largest severity among the results of a
    check, and OK when there is none or when all are below OK: it bounds
    every result's severity, is never below OK, and is OK or the severity
    of one of the results. *)
Theorem MaxSeverity_is_the_maximum cr :
  (forall r, In r (probe.Results cr)
             -> (probe.Severity r <= probe.MaxSeverity cr)%Z)
  /\ (probe.SeverityOK <= probe.MaxSeverity cr)%Z
  /\ (probe.MaxSeverity cr = probe.SeverityOK
      \/ exists r, In r (probe.Results cr)
                   /\ probe.Severity r = probe.MaxSeverity cr).
Proof.
  destruct (MaxSeverity_fold (probe.Results cr) probe.SeverityOK)
    as (Hle & Hall & Hatt).
  split; [exact Hall|]. split; [exact Hle | exact Hatt].
Qed.

Lemma MaxSeverity_checkFor ty trs :
  probe.MaxSeverity (checkFor ty trs)
  = if forallb Success trs then probe.SeverityOK else probe.SeverityCritical.
Proof.
  destruct (MaxSeverity_fold (probe.Results (checkFor ty trs)) probe.SeverityOK)
    as (Hle & Hall & Hatt).
  fold (probe.MaxSeverity (checkFor ty trs)) in *.
  assert (Hsev : forall r, In r (probe.Results (checkFor ty trs)) ->
                           (probe.Severity r <= probe.SeverityCritical)%Z).
  { intros r Hr. cbn [checkFor probe.Results] in Hr.
    apply in_app_iff in Hr as [Hr|Hr].
    - apply in_map_iff in Hr as (tr & <- & _). reflexivity.
    - destruct (forallb Success trs); [|destruct Hr].
      destruct Hr as [<-|[]]. cbn [passedSummary probe.Severity].
      unfold probe.SeverityOK, probe.SeverityCritical. lia. }
  destruct (forallb Success trs) eqn:Hall_ok.
  - destruct Hatt as [Hm|(r & Hr & Hm)]; [exact Hm|].
    rewrite <- Hm. cbn [checkFor probe.Results] in Hr. rewrite Hall_ok in Hr.
    apply in_app_iff in Hr as [Hr|[<-|[]]]; [|reflexivity].
    apply in_map_iff in Hr as (tr & _ & Htr).
    unfold failedTests in Htr. apply filter_In in Htr as [Htr Hfail].
    rewrite forallb_forall in Hall_ok. rewrite (Hall_ok _ Htr) in Hfail.
    discriminate.
  - assert (Hex : exists tr, In tr (failedTests trs)).
    { clear -Hall_ok. induction trs as [|tr rest IH]; [discriminate|].
      rewrite failedTests_cons. cbn [forallb] in Hall_ok.
      destruct (Success tr); [|exists tr; simpl; auto].
      destruct (IH Hall_ok) as (x & Hx). exists x. exact Hx. }
    destruct Hex as (tr & Htr).
    assert (Hin : In (failureOf ty tr) (probe.Results (checkFor ty trs))).
    { cbn [checkFor probe.Results]. apply in_app_iff. left.
      apply in_map, Htr. }
    pose proof (Hall _ Hin) as Hge. cbn [failureOf probe.Severity] in Hge.
    destruct Hatt as [Hm|(r & Hr & Hm)].
    + rewrite Hm in Hge. unfold probe.SeverityCritical, probe.SeverityOK in Hge. lia.
    + pose proof (Hsev _ Hr) as Hle'. rewrite Hm in Hle'. lia.
Qed.

Lemma failedTests_nonempty trs :
  forallb Success trs = false -> exists tr, In tr (failedTests trs).
Proof.
  induction trs as [|tr rest IH]; [discriminate|].
  rewrite failedTests_cons. cbn [forallb].
  destruct (Success tr); [|exists tr; simpl; auto].
  intros Hrest. destruct (IH Hrest) as (x & Hx). exists x. exact Hx.
Qed.

Lemma checkFor_nonempty ty trs :
  trs <> [] -> probe.Results (checkFor ty trs) <> [].
Proof.
  intros Hne Hnil. cbn [checkFor probe.Results] in Hnil.
  apply app_eq_nil in Hnil as [Hfailed Hsum].
  destruct (forallb Success trs) eqn:Hall; [discriminate|].
  destruct (failedTests_nonempty _ Hall) as (tr & Htr).
  destruct (failedTests trs); [destruct Htr | discriminate].
Qed.

Lemma In_convertNetworkReport r check :
  (len (TestResults r) <= MaxInt)%Z ->
  In check (convertNetworkReport r)
  <-> exists ty, In ty typeOrder /\ ofType ty (TestResults r) <> []
                 /\ check = checkFor ty (ofType ty (TestResults r)).
Proof.
  intros Hlen. rewrite convertNetworkReport_spec by exact Hlen.
  rewrite in_map_iff. split.
  - intros (ty & <- & Hty). apply filter_In in Hty as [Hin Hhas].
    exists ty. split; [exact Hin|]. split; [|reflexivity].
    rewrite hasType_ofType in Hhas. intros Hnil. rewrite Hnil in Hhas.
    discriminate.
  - intros (ty & Hin & Hne & ->). exists ty. split; [reflexivity|].
    apply filter_In. split; [exact Hin|]. rewrite hasType_ofType.
    destruct (ofType ty (TestResults r)); [contradiction | reflexivity].
Qed.

(** X5: [convertNetworkReport] turns a report into one check per test
    type that has results, in the fixed order coredns, dns, external-tcp,
    kubelet, pod-to-pod; results of any other type are dropped.  The check
    of a type is named network-test-<type>, has tier 4 and holds one
    critical entry per failed test of the type, in the order of the
    report, or, when none failed, the single entry n/n tests passed.  So
    no check is empty, and its severity is critical exactly when a test
    of its type failed. *)
Theorem convertNetworkReport_checks r :
  (len (TestResults r) <= MaxInt)%Z ->
  convertNetworkReport r
  = map (fun ty => checkFor ty (ofType ty (TestResults r)))
        (List.filter (fun ty => hasType ty (TestResults r)) typeOrder)
  /\ forall check,
      In check (convertNetworkReport r) ->
      probe.Tier check = 4%Z
      /\ probe.Results check <> []
      /\ exists ty,
          In ty typeOrder
          /\ ofType ty (TestResults r) <> []
          /\ probe.Check_Name check = "network-test-" +:+ ty
          /\ probe.MaxSeverity check
             = if forallb Success (ofType ty (TestResults r))
               then probe.SeverityOK else probe.SeverityCritical.
Proof.
  intros Hlen. split; [apply convertNetworkReport_spec, Hlen|].
  intros check Hcheck.
  apply In_convertNetworkReport in Hcheck as (ty & Hin & Hne & ->);
    [|exact Hlen].
  split; [reflexivity|]. split; [apply checkFor_nonempty, Hne|].
  exists ty. split; [exact Hin|]. split; [exact Hne|].
  split; [reflexivity | apply MaxSeverity_checkFor].
Qed.

Lemma convertNetworkReport_checks_witness :
  map probe.Check_Name (convertNetworkReport mixedReport)
  = ["network-test-dns"; "network-test-kubelet"].
Proof.
  rewrite (proj1 (convertNetworkReport_checks mixedReport
                    ltac:(vm_compute; discriminate))).
  reflexivity.
Defined.

Lemma summarize_Failed results :
  (len results <= MaxInt)%Z ->
  Failed (summarize results) = countSuccess false results.
Proof.
  intros Hlen. unfold summarize. rewrite tally_all; simpl; try lia.
  all: unfold MaxInt; lia.
Qed.

Lemma forallb_Success_false trs :
  forallb Success trs = false <-> exists tr, In tr trs /\ Success tr = false.
Proof.
  split.
  - intros Hall. destruct (failedTests_nonempty _ Hall) as (tr & Htr).
    apply filter_In in Htr as [Hin Hfail]. exists tr. split; [exact Hin|].
    destruct (Success tr); [discriminate | reflexivity].
  - intros (tr & Hin & Hfail).
    destruct (forallb Success trs) eqn:Hall; [|reflexivity].
    rewrite forallb_forall in Hall. rewrite (Hall _ Hin) in Hfail. discriminate.
Qed.

Lemma In_ofType ty tr results :
  In tr (ofType ty results) <-> In tr results /\ TestType tr = ty.
Proof.
  unfold ofType. rewrite filter_In.
  destruct (bool_decide_reflect (TestType tr = ty)); intuition discriminate.
Qed.

Lemma podProbes_types pod coreDNSIPs entries allPods p :
  In p (podProbes pod coreDNSIPs entries allPods) -> In (p_type p) typeOrder.
Proof.
  unfold podProbes. rewrite !in_app_iff, !in_map_iff.
  intros [(ip & <- & _)|[[<-|[<-|[]]]|[(e & <- & _)|(t & <- & _)]]];
    simpl; auto 10.
Qed.

Section RunProofs.

Context {W : Type} `{Env W}.
Implicit Types (st : St W) (ctx : context) (pod : TestPod).

Ltac step_in H :=
  lazymatch type of H with
  | context [match ?m ?s with pair _ _ => _ end] =>
      let r := fresh "r" in
      let st := fresh "st" in
      let E := fresh "E" in
      destruct (m s) as [r st] eqn:E; cbv beta iota in H
  end.

Ltac cases_in H :=
  lazymatch type of H with
  | context [match ?r with Ok _ => _ | Err _ => _ end] =>
      destruct r; cbv beta iota in H
  | context [match ?r with Some _ => _ | None => _ end] =>
      destruct r; cbv beta iota in H
  | context [if ?b then _ else _] =>
      destruct b eqn:?; cbv beta iota in H
  end.

(** The calls behind a report: what each step of a successful [Run]
    returned. *)
Lemma Run_Ok_inv ctx st report st' :
  Run ctx st = (Ok report, st') ->
  exists now s0 s1 c1 s2 nodes s3 pods0 s4 s5 c2,
    Now st = (now, s0)
    /\ EnsureNamespace ctx s0 = (None, s1)
    /\ CleanupTestPods ctx s1 = (c1, s2)
    /\ NodesList ctx s2 = (Ok nodes, s3)
    /\ (len (filterReadyNodes nodes) =? 0)%Z = false
    /\ CreateTestPods ctx (filterReadyNodes nodes) s3 = (Ok pods0, s4)
    /\ Run_guarded ctx (filterReadyNodes nodes) pods0
                   {| Timestamp := now;
                      NodeCount := len (filterReadyNodes nodes);
                      PodCount := 0; TestResults := [];
                      Summary := {| Total := 0; Passed := 0; Failed := 0 |} |}
                   s4
       = (Ok report, s5)
    /\ CleanupTestPods (ctx_WithTimeout ctx_Background 30) s5 = (c2, st').
Proof.
  intros Hrun. unfold Run, bind, ret in Hrun.
  do 2 step_in Hrun. cases_in Hrun; [discriminate|].
  do 2 step_in Hrun. cases_in Hrun; [|discriminate].
  cases_in Hrun; [discriminate|].
  step_in Hrun. cases_in Hrun.
  - do 2 step_in Hrun. injection Hrun as -> <-.
    exists r, st0, st1, r0, st2, a, st3, a0, st4, st5, r2.
    split; [reflexivity|]. split; [exact E0|]. split; [exact E1|].
    split; [exact E2|]. split; [assumption|]. split; [exact E3|].
    split; [exact E4 | exact E5].
  - step_in Hrun. discriminate.
Qed.

Lemma Run_guarded_Ok_inv ctx readyNodes pods0 report0 st report st' :
  Run_guarded ctx readyNodes pods0 report0 st = (Ok report, st') ->
  exists pods1 s1 r s2 s3,
    WaitForPodsReady ctx pods0 90 st = (None, pods1, s1)
    /\ DiscoverCoreDNSPods ctx s1 = (r, s2)
    /\ StartListeners ctx pods1 s2 = (tt, s3)
    /\ RunAllTests ctx pods1 (match r with Ok ips => ips | Err _ => [] end)
                   (GetNodeInternalIPs readyNodes) s3
       = (TestResults report, st')
    /\ Timestamp report = Timestamp report0
    /\ NodeCount report = NodeCount report0
    /\ PodCount report = len pods1.
Proof.
  intros Hg. unfold Run_guarded, bind, ret in Hg.
  step_in Hg. destruct r as [err pods1]. cases_in Hg; [discriminate|].
  do 3 step_in Hg. injection Hg as <- <-. destruct r0.
  exists pods1, st0, r, st1, st2. cbn.
  repeat split; assumption.
Qed.

Lemma Run_result_types ctx st report st' :
  Run ctx st = (Ok report, st') ->
  Forall (fun r => In (TestType r) typeOrder) (TestResults report).
Proof.
  intros Hrun.
  apply Run_Ok_inv in Hrun
    as (now & s0 & s1 & c1 & s2 & nodes & s3 & pods0 & s4 & s5 & c2
        & _ & _ & _ & _ & _ & _ & Hg & _).
  apply Run_guarded_Ok_inv in Hg
    as (pods1 & sa & r & sb & sc & _ & _ & _ & Hall & _).
  pose proof (RunAllTests_results ctx pods1
                (match r with Ok ips => ips | Err _ => [] end)
                (GetNodeInternalIPs (filterReadyNodes nodes)) sc) as Hres.
  rewrite Hall in Hres. cbn [fst] in Hres.
  eapply List.Forall_impl; [|exact Hres].
  intros x (pod & choices & p & err & _ & Hp & ->).
  cbn [probeResult TestType]. eapply podProbes_types, Hp.
Qed.

(** X6: after a run that returned a report which could be written, the
    exit status of the command is critical when some test of the report
    failed and OK otherwise; it is critical exactly when one of the checks
    shown to the user is critical, since every result of [Run] has one of
    the five types the caller groups by. *)
Theorem runNetworkTest_exit_reflects_failures ctx st report st' :
  Run ctx st = (Ok report, st') ->
  (len (TestResults report) <= MaxInt)%Z ->
  runNetworkTest_exit (Ok report) None
  = (if forallb Success (TestResults report) then ExitOK else ExitCritical)
  /\ (runNetworkTest_exit (Ok report) None = ExitCritical
      <-> exists check,
          In check (convertNetworkReport report)
          /\ probe.MaxSeverity check = probe.SeverityCritical).
Proof.
  intros Hrun Hlen.
  pose proof (Run_result_types _ _ _ _ Hrun) as Htypes.
  pose proof (Run_summary _ _ _ _ Hrun) as Hsum.
  assert (Hexit : runNetworkTest_exit (Ok report) None
                  = if forallb Success (TestResults report)
                    then ExitOK else ExitCritical).
  { unfold runNetworkTest_exit. rewrite Hsum, summarize_Failed by exact Hlen.
    pose proof (forallb_Success_counts (TestResults report)) as Hc.
    destruct (forallb Success (TestResults report)).
    - destruct Hc as [-> _]. reflexivity.
    - apply Z.ltb_lt in Hc. rewrite Hc. reflexivity. }
  split; [exact Hexit|]. rewrite Hexit. split.
  - destruct (forallb Success (TestResults report)) eqn:Hall; [discriminate|].
    intros _. apply forallb_Success_false in Hall as (tr & Hin & Hfail).
    exists (checkFor (TestType tr) (ofType (TestType tr) (TestResults report))).
    assert (Htr : In tr (ofType (TestType tr) (TestResults report)))
      by (apply In_ofType; auto).
    split.
    + apply In_convertNetworkReport; [exact Hlen|].
      exists (TestType tr). split; [|split; [|reflexivity]].
      * rewrite List.Forall_forall in Htypes. apply Htypes, Hin.
      * intros Hnil. rewrite Hnil in Htr. destruct Htr.
    + rewrite MaxSeverity_checkFor.
      assert (Hf : forallb Success (ofType (TestType tr) (TestResults report))
                   = false) by (apply forallb_Success_false; eauto).
      rewrite Hf. reflexivity.
  - intros (check & Hcheck & Hsev).
    apply In_convertNetworkReport in Hcheck as (ty & _ & _ & ->);
      [|exact Hlen].
    rewrite MaxSeverity_checkFor in Hsev.
    destruct (forallb Success (ofType ty (TestResults report))) eqn:Hty;
      [discriminate|].
    apply forallb_Success_false in Hty as (tr & Hin & Hfail).
    apply In_ofType in Hin as [Hin _].
    assert (Hf : forallb Success (TestResults report) = false)
      by (apply forallb_Success_false; eauto).
    rewrite Hf. reflexivity.
Qed.

End RunProofs.

Lemma runNetworkTest_exit_reflects_failures_witness :
  runNetworkTest_exit (Run ctx_Caller keptStart).1 None = ExitCritical.
Proof.
  pose (out := Run ctx_Caller keptStart).
  pose (report := match out.1 with Ok r => r | Err _ => mixedReport end).
  assert (Hrun : Run ctx_Caller keptStart = (Ok report, out.2))
    by (vm_compute; reflexivity).
  rewrite Hrun. cbn [fst].
  rewrite (proj1 (runNetworkTest_exit_reflects_failures
                    ctx_Caller keptStart report out.2 Hrun
                    ltac:(vm_compute; discriminate))).
  vm_compute. reflexivity.
Defined.

(** ** The steps of a run, call by call *)

Section StepProofs.

Context {W : Type} `{Env W}.
Implicit Types (st : St W) (ctx : context) (pod : TestPod).

(** *** WaitForPodsReady *)

Lemma podReadyCond_step tctx pod st :
  let out := podReadyCond tctx pod st in
  exists err,
    trace out.2 = trace st ++ [getEvent tctx pod err]
    /\ out.1.1.2 = None
    /\ if out.1.1.1 then exists ip, out.1.2 = withIP pod ip else out.1.2 = pod.
Proof.
  unfold podReadyCond, bind, PodsGet, logged, ret.
  destruct (Pods_Get tctx testNamespace (Name pod) (world st)) as [[p|e] w];
    cbn.
  - destruct (bool_decide (corev1.Phase (corev1.Pod_Status p) = corev1.PodRunning));
      cbn; [|exists None; auto].
    destruct (allContainersReady (corev1.ContainerStatuses (corev1.Pod_Status p)));
      cbn; exists None; [|auto].
    split; [reflexivity|]. split; [reflexivity|]. eexists. reflexivity.
  - exists (Some e). auto.
Qed.

Lemma ContextWait_spec ctx st :
  trace (ContextWait ctx st).2 = trace st
  /\ (ContextWait ctx st).1 = (Context_Wait ctx (world st)).1.
Proof. unfold ContextWait. destruct (Context_Wait ctx (world st)). auto. Qed.

Lemma pollTicks_ready tctx ticks : forall pod st,
  let out := pollTicks tctx ticks (podReadyCond tctx) pod st in
  exists errs,
    trace out.2 = trace st ++ map (getEvent tctx pod) errs
    /\ out.1.2 <= ticks
    /\ ((out.1.1.1 = None
         /\ (exists ip, out.1.1.2 = withIP pod ip)
         /\ out.1.2 < ticks
         /\ length errs = ticks - out.1.2)
        \/ ((exists cause, out.1.1.1 = Some cause /\ contextEnded tctx cause)
            /\ out.1.1.2 = pod
            /\ length errs <= ticks)).
Proof.
  induction ticks as [|k IH]; intros pod st; cbv zeta.
  - cbn [pollTicks]. unfold bind.
    destruct (ContextWait_spec tctx st) as [Htr Hdone].
    destruct (ContextWait tctx st) as [done st0]. cbn [fst snd] in *.
    exists []. cbn [ret fst snd map]. rewrite app_nil_r.
    split; [exact Htr|]. split; [lia|]. right.
    split; [|split; [reflexivity | simpl; lia]].
    eexists. split; [reflexivity|]. subst done.
    destruct (Context_Wait tctx (world st)).1 as [e|] eqn:Hw;
      [right; eauto | left; reflexivity].
  - cbn [pollTicks]. unfold bind.
    destruct (ContextWait_spec tctx st) as [Htr0 Hdone].
    destruct (ContextWait tctx st) as [done st0]. cbn [fst snd] in *.
    destruct done as [e|].
    { exists []. cbn [ret fst snd map]. rewrite app_nil_r.
      split; [exact Htr0|]. split; [lia|]. right.
      split; [|split; [reflexivity | simpl; lia]].
      exists e. split; [reflexivity|]. right. eauto. }
    destruct (podReadyCond_step tctx pod st0) as (err & Htr & Hnone & Hok).
    destruct (podReadyCond tctx pod st0) as [[[ok e] pod1] st1].
    cbn [fst snd] in Htr, Hnone, Hok. subst e. rewrite Htr0 in Htr.
    destruct ok.
    + exists [err]. cbn [ret fst snd map]. split; [exact Htr|].
      split; [lia|]. left. split; [reflexivity|]. split; [exact Hok|].
      split; [lia|]. simpl. lia.
    + subst pod1. destruct (IH pod st1) as (errs & Htr1 & Hle & Hcase).
      exists (err :: errs). split.
      * rewrite Htr1, Htr, <- app_assoc. reflexivity.
      * split; [lia|]. simpl length.
        destruct Hcase as [(Hn & Hip & Hlt & Hlen)|(Hc & Hpod & Hlen)].
        -- left. repeat split; try assumption; lia.
        -- right. repeat split; try assumption; lia.
Qed.

Lemma pollUntil_ready tctx ticks pod st :
  let out := pollUntil tctx ticks true (podReadyCond tctx) pod st in
  exists errs,
    trace out.2 = trace st ++ map (getEvent tctx pod) errs
    /\ out.1.2 <= ticks
    /\ ((out.1.1.1 = None
         /\ (exists ip, out.1.1.2 = withIP pod ip)
         /\ length errs = 1 + (ticks - out.1.2))
        \/ ((exists cause, out.1.1.1 = Some cause /\ contextEnded tctx cause)
            /\ out.1.1.2 = pod
            /\ 1 <= length errs <= 1 + ticks)).
Proof.
  cbv zeta. unfold pollUntil, bind.
  destruct (podReadyCond_step tctx pod st) as (err & Htr & Hnone & Hok).
  destruct (podReadyCond tctx pod st) as [[[ok e] pod1] st1].
  cbn [fst snd] in Htr, Hnone, Hok. subst e.
  destruct ok.
  - exists [err]. cbn [ret fst snd map]. split; [exact Htr|].
    split; [lia|]. left. split; [reflexivity|]. split; [exact Hok|].
    simpl. lia.
  - subst pod1. destruct (pollTicks_ready tctx ticks pod st1)
      as (errs & Htr1 & Hle & Hcase).
    exists (err :: errs). split.
    + rewrite Htr1, Htr, <- app_assoc. reflexivity.
    + split; [exact Hle|]. simpl length.
      destruct Hcase as [(Hn & Hip & Hlt & Hlen)|(Hc & Hpod & Hlen)].
      * left. repeat split; try assumption; lia.
      * right. repeat split; try assumption; lia.
Qed.

Lemma WaitForPodsReady_from_spec tctx : forall pods ticks st,
  let out := WaitForPodsReady_from tctx pods ticks st in
  exists evs,
    trace out.2 = trace st ++ evs
    /\ map Name out.1.2 = map Name pods
    /\ map NodeName out.1.2 = map NodeName pods
    /\ Forall (fun e => exists p err, In p pods /\ e = getEvent tctx p err) evs
    /\ match out.1.1 with
       | None => length pods <= length evs <= length pods + ticks
       | Some e =>
           exists done p rest cause,
             pods = done ++ p :: rest
             /\ e = Errorf_w ("pod " +:+ Name p +:+ " failed to become ready: ")
                             cause
             /\ contextEnded tctx cause
             /\ S (length done) <= length evs <= S (length done) + ticks
             /\ drop (length done) out.1.2 = p :: rest
       end.
Proof.
  induction pods as [|pod rest IH]; intros ticks st; cbv zeta.
  - exists []. cbn. rewrite app_nil_r. repeat split; auto; lia.
  - cbn [WaitForPodsReady_from]. unfold bind.
    destruct (pollUntil_ready tctx ticks pod st) as (errs & Htr & Hle & Hcase).
    destruct (pollUntil tctx ticks true (podReadyCond tctx) pod st)
      as [[[err pod1] ticks1] st1].
    cbn [fst snd] in Htr, Hle, Hcase.
    assert (Hevs : Forall (fun e => exists p err, In p (pod :: rest)
                                                  /\ e = getEvent tctx p err)
                          (map (getEvent tctx pod) errs)).
    { apply List.Forall_forall. intros e He.
      apply in_map_iff in He as (x & <- & _). exists pod, x. simpl. auto. }
    destruct Hcase as [(-> & (ip & ->) & Hlen)
                      |((cause & -> & Hcause) & -> & Hlen)].
    + destruct (IH ticks1 st1) as (evs & Htr1 & Hnames & Hnodes & Hall & Hres).
      destruct (WaitForPodsReady_from tctx rest ticks1 st1) as [[err1 rest1] st2].
      cbn [fst snd ret] in *.
      exists (map (getEvent tctx pod) errs ++ evs).
      split; [rewrite Htr1, Htr, <- app_assoc; reflexivity|].
      split; [cbn; f_equal; exact Hnames|].
      split; [cbn; f_equal; exact Hnodes|].
      split.
      * apply Forall_app. split; [exact Hevs|].
        eapply List.Forall_impl; [|exact Hall].
        intros e (p & x & Hp & ->). exists p, x. simpl. auto.
      * rewrite length_app, length_map. destruct err1 as [e|].
        -- destruct Hres as (done & p & rest' & cause & -> & -> & Hcause & Hlen1 & Hdrop).
           exists (pod :: done), p, rest', cause.
           split; [reflexivity|]. split; [reflexivity|]. split; [exact Hcause|].
           split; [simpl length; lia | exact Hdrop].
        -- simpl length. lia.
    + cbn [fst snd ret].
      exists (map (getEvent tctx pod) errs).
      split; [exact Htr|]. split; [reflexivity|]. split; [reflexivity|].
      split; [exact Hevs|].
      exists [], pod, rest, cause. rewrite length_map.
      split; [reflexivity|]. split; [reflexivity|]. split; [exact Hcause|].
      split; [simpl; lia | reflexivity].
Qed.

(** X7: [WaitForPodsReady] reads each pod by name from the diagnostic
    namespace, under the caller's context with the timeout, and nothing
    else.  One deadline is shared by all pods: with a poll every two
    seconds, a wait that succeeds makes at least one read per pod and at
    most len(pods) + timeout/2 reads.  The only error is the end of that
    context, by its deadline or because the environment ended it (the
    caller's cancellation), reported for the first pod that was not seen
    ready: the pods before it were each seen ready, that pod was read at
    least once, no more than (pods before it) + 1 + timeout/2 reads were
    made, and that pod and the ones after it are returned as they were
    given.  Names and node names never change. *)
Theorem WaitForPodsReady_polls ctx pods timeout st :
  let out := WaitForPodsReady ctx pods timeout st in
  let evs := since st out.2 in
  trace out.2 = trace st ++ evs
  /\ map Name out.1.2 = map Name pods
  /\ map NodeName out.1.2 = map NodeName pods
  /\ Forall (fun e => ev_ctx e = ctx_WithTimeout ctx timeout
                      /\ exists p, In p pods
                                   /\ ev_call e = CallPodsGet testNamespace (Name p))
            evs
  /\ match out.1.1 with
     | None => length pods <= length evs <= length pods + timeout / 2
     | Some e =>
         exists done p rest cause,
           pods = done ++ p :: rest
           /\ e = Errorf_w ("pod " +:+ Name p +:+ " failed to become ready: ")
                           cause
           /\ contextEnded (ctx_WithTimeout ctx timeout) cause
           /\ S (length done) <= length evs <= S (length done) + timeout / 2
           /\ drop (length done) out.1.2 = p :: rest
     end.
Proof.
  cbv zeta. unfold WaitForPodsReady.
  destruct (WaitForPodsReady_from_spec (ctx_WithTimeout ctx timeout) pods
              (timeout / 2) st) as (evs & Htr & Hnames & Hnodes & Hall & Hres).
  rewrite (since_app _ _ _ Htr).
  split; [exact Htr|]. split; [exact Hnames|]. split; [exact Hnodes|].
  split; [|exact Hres].
  eapply List.Forall_impl; [|exact Hall].
  intros e (p & err & Hp & ->). split; [reflexivity|].
  exists p. split; [exact Hp | reflexivity].
Qed.

(** *** CleanupTestPods *)

Lemma pollTicks_gone {C} gctx pctx (cond : C -> M W (bool * option error * C)) :
  (forall s st, exists err,
      (cond s st).1.1 = (reportsNotFound err, None)
      /\ trace (cond s st).2 = trace st ++ [namespaceGet gctx err]) ->
  forall ticks s st,
    let out := pollTicks pctx ticks cond s st in
    exists waiting final,
      trace out.2 = trace st ++ map (namespaceGet gctx) (waiting ++ final)
      /\ Forall (fun err => reportsNotFound err = false) waiting
      /\ ((out.1.1.1 = None /\ length waiting < ticks
           /\ exists err, final = [err] /\ reportsNotFound err = true)
          \/ ((exists cause, out.1.1.1 = Some cause /\ contextEnded pctx cause)
              /\ length waiting <= ticks /\ final = [])).
Proof.
  intros Hcond. induction ticks as [|k IH]; intros s st; cbv zeta.
  - cbn [pollTicks]. unfold bind.
    destruct (ContextWait_spec pctx st) as [Htr Hdone].
    destruct (ContextWait pctx st) as [done st0]. cbn [fst snd] in *.
    exists [], []. cbn [ret fst snd map app length]. rewrite app_nil_r.
    split; [exact Htr|]. split; [constructor|]. right.
    split; [|split; [lia | reflexivity]].
    eexists. split; [reflexivity|]. subst done.
    destruct (Context_Wait pctx (world st)).1 as [e|] eqn:Hw;
      [right; eauto | left; reflexivity].
  - cbn [pollTicks]. unfold bind.
    destruct (ContextWait_spec pctx st) as [Htr0 Hdone].
    destruct (ContextWait pctx st) as [done st0]. cbn [fst snd] in *.
    destruct done as [e|].
    { exists [], []. cbn [ret fst snd map app length]. rewrite app_nil_r.
      split; [exact Htr0|]. split; [constructor|]. right.
      split; [|split; [lia | reflexivity]].
      exists e. split; [reflexivity|]. right. eauto. }
    destruct (Hcond s st0) as (err & Hres & Htr).
    destruct (cond s st0) as [[[ok e] s1] st1]. cbn [fst snd] in Hres, Htr.
    injection Hres as -> ->. rewrite Htr0 in Htr.
    destruct (reportsNotFound err) eqn:Hgone.
    + exists [], [err]. cbn [ret fst snd app map length].
      split; [exact Htr|]. split; [constructor|].
      left. split; [reflexivity|]. split; [lia|]. exists err. auto.
    + destruct (IH s1 st1) as (waiting & final & Htr1 & Hall & Hcase).
      exists (err :: waiting), final.
      split; [rewrite Htr1, Htr, <- app_assoc; reflexivity|].
      split; [constructor; assumption|]. simpl length.
      destruct Hcase as [(Hn & Hlt & Hfin)|(Hd & Hlen & Hfin)].
      * left. split; [exact Hn|]. split; [lia | exact Hfin].
      * right. split; [exact Hd|]. split; [lia | exact Hfin].
Qed.

Lemma pollUntil_gone {C} gctx pctx (cond : C -> M W (bool * option error * C)) :
  (forall s st, exists err,
      (cond s st).1.1 = (reportsNotFound err, None)
      /\ trace (cond s st).2 = trace st ++ [namespaceGet gctx err]) ->
  forall ticks s st,
    let out := pollUntil pctx ticks true cond s st in
    exists waiting final,
      trace out.2 = trace st ++ map (namespaceGet gctx) (waiting ++ final)
      /\ Forall (fun err => reportsNotFound err = false) waiting
      /\ ((out.1.1.1 = None /\ length waiting <= ticks
           /\ exists err, final = [err] /\ reportsNotFound err = true)
          \/ ((exists cause, out.1.1.1 = Some cause /\ contextEnded pctx cause)
              /\ 1 <= length waiting <= S ticks /\ final = [])).
Proof.
  intros Hcond ticks s st. cbv zeta. unfold pollUntil, bind.
  destruct (Hcond s st) as (err & Hres & Htr).
  destruct (cond s st) as [[[ok e] s1] st1]. cbn [fst snd] in Hres, Htr.
  injection Hres as -> ->.
  destruct (reportsNotFound err) eqn:Hgone.
  - exists [], [err]. cbn [ret fst snd app map length].
    split; [exact Htr|]. split; [constructor|].
    left. split; [reflexivity|]. split; [lia|]. exists err. auto.
  - destruct (pollTicks_gone gctx pctx cond Hcond ticks s1 st1)
      as (waiting & final & Htr1 & Hall & Hcase).
    exists (err :: waiting), final.
    split; [rewrite Htr1, Htr, <- app_assoc; reflexivity|].
    split; [constructor; assumption|]. simpl length.
    destruct Hcase as [(Hn & Hlt & Hfin)|(Hd & Hlen & Hfin)].
    + left. split; [exact Hn|]. split; [lia | exact Hfin].
    + right. split; [exact Hd|]. split; [lia | exact Hfin].
Qed.

(** X8: [CleanupTestPods] deletes the diagnostic namespace with
    foreground propagation, once.  When the deletion is refused it polls
    nothing: a not-found answer counts as done, any other error is
    returned wrapped.  When the deletion is accepted it reads the
    namespace, under the context with the 30 second timeout, until a read
    answers not found or that context ends: one read at once, then at
    most one per second, 31 at most.  It returns no error either way: a
    namespace that is still there when the reads stop is not reported. *)
Theorem CleanupTestPods_outcome ctx st :
  let out := CleanupTestPods ctx st in
  exists del waiting final,
    trace out.2
    = trace st
      ++ {| ev_ctx := ctx;
            ev_call := CallNamespacesDelete testNamespace
                                            DeletePropagationForeground;
            ev_err := del |}
      :: map (namespaceGet (ctx_WithTimeout ctx 30)) (waiting ++ final)
    /\ Forall (fun err => reportsNotFound err = false) waiting
    /\ match del with
       | Some e =>
           waiting = [] /\ final = []
           /\ out.1 = if IsNotFound e then None
                      else Some (Errorf_w "failed to delete namespace: " e)
       | None =>
           out.1 = None
           /\ ((length waiting <= 30
                /\ exists err, final = [err] /\ reportsNotFound err = true)
               \/ (1 <= length waiting <= 31 /\ final = []))
       end.
Proof.
  cbv zeta. destruct (CleanupTestPods ctx st) as [res st'] eqn:Hrun.
  cbn [fst snd]. unfold CleanupTestPods in Hrun. cbv zeta in Hrun.
  unfold bind, NamespacesDelete, logged in Hrun.
  destruct (Namespaces_Delete ctx testNamespace DeletePropagationForeground
                              (world st)) as [del w].
  cbn [id] in Hrun. exists del. destruct del as [e|].
  - exists [], []. cbn [app map].
    destruct (IsNotFound e); cbn in Hrun; injection Hrun as <- <-.
    all: split; [reflexivity|]; split; [constructor|]; auto.
  - match type of Hrun with
    | context [pollUntil ?x ?n true ?c tt ?s0] =>
        assert (Hc : forall u st0, exists err,
                     (c u st0).1.1 = (reportsNotFound err, None)
                     /\ trace (c u st0).2
                        = trace st0 ++ [namespaceGet (ctx_WithTimeout ctx 30) err]);
          [|destruct (pollUntil_gone _ x c Hc n tt s0)
              as (waiting & final & Htr & Hall & Hcase);
            destruct (pollUntil x n true c tt s0) as [[[err u] left] st1]]
    end.
    + intros u st0. unfold NamespacesGet, logged, ret.
      destruct (Namespaces_Get (ctx_WithTimeout ctx 30) testNamespace (world st0))
        as [err w0].
      exists err. cbn. split; reflexivity.
    + cbn [fst snd ret trace] in *. injection Hrun as <- <-.
      exists waiting, final.
      split; [rewrite Htr, <- app_assoc; reflexivity|].
      split; [exact Hall|]. split; [reflexivity|].
      change (30 / 1) with 30 in Hcase.
      destruct Hcase as [(_ & Hlen & Hfin)|(_ & Hlen & Hfin)]; auto.
Qed.

(** *** StartListeners *)

(** X9: [StartListeners] runs the listener command, nc on port 8080 in
    the background, once in every pod, in the order of the pods, under
    the caller's context; what the commands return is ignored, so a
    failed command stops nothing, and no ordering choice of the runtime
    is used. *)
Theorem StartListeners_one_command_per_pod ctx pods st :
  let out := StartListeners ctx pods st in
  exists errs,
    length errs = length pods
    /\ trace out.2 = trace st ++ zip_with (listenerEvent ctx) pods errs
    /\ sched out.2 = sched st.
Proof.
  cbv zeta. unfold StartListeners. revert st.
  induction pods as [|pod rest IH]; intros st.
  - exists []. cbn. rewrite app_nil_r. auto.
  - cbn [for_range].
    match goal with
    | |- context [for_range rest ?b] => set (body := b) in *
    end.
    unfold bind, ExecInPod, logged, ret.
    destruct (Exec_In_Pod ctx (Name pod) testNamespace _ (world st))
      as [[[out1 out2] err] w].
    cbn [snd].
    match goal with
    | |- context [for_range rest body tt ?s] =>
        destruct (IH s) as (errs & Hlen & Htr & Hsched)
    end.
    cbn [trace sched] in Htr, Hsched.
    exists (err :: errs). split; [simpl; lia|].
    split; [|exact Hsched].
    rewrite Htr. cbn [zip_with]. rewrite <- app_assoc. reflexivity.
Qed.

(** *** DiscoverCoreDNSPods *)

(** X10: the calls of [DiscoverCoreDNSPods], told from the answers of
    the API.  It reads the endpoints of the kube-system services
    kube-dns, coredns and rke2-coredns-rke2-coredns, in that order, under
    the caller's context, each from the world the read before left.  The
    first answer that holds an address ends the function: no further
    call is made, and the result is the list of all the addresses of that
    Endpoints object, subset by subset.  A read that fails or an answer
    without address only moves on to the next name.  The pods of
    kube-system are listed only after all three reads gave nothing, by
    one call made in the world the third read left, and a failure of that
    listing is the error returned.  No ordering choice of the runtime is
    used. *)
Theorem DiscoverCoreDNSPods_lookup_order ctx st :
  let out := DiscoverCoreDNSPods ctx st in
  exists errs found w1,
    ServiceLookup ctx serviceNames (world st) errs found w1
    /\ sched out.2 = sched st
    /\ match found with
       | Some ips =>
           out.1 = Ok ips
           /\ world out.2 = w1
           /\ trace out.2
              = trace st ++ zip_with (endpointsGet ctx) serviceNames errs
           /\ ips <> []
           /\ exists tried name rest wa ep,
               serviceNames = tried ++ name :: rest
               /\ length errs = S (length tried)
               /\ Endpoints_Get ctx "kube-system" name wa = (Ok ep, w1)
               /\ ips = endpointIPs ep
       | None =>
           let listed := Pods_List ctx "kube-system" w1 in
           length errs = 3
           /\ world out.2 = listed.2
           /\ trace out.2
              = trace st ++ zip_with (endpointsGet ctx) serviceNames errs
                ++ [{| ev_ctx := ctx;
                       ev_call := CallPodsList "kube-system";
                       ev_err := result_err listed.1 |}]
           /\ forall e,
               listed.1 = Err e ->
               out.1 = Err (Errorf_w "failed to list kube-system pods: " e)
       end.
Proof.
  cbv zeta.
  destruct (DiscoverCoreDNSPods_spec ctx st) as (errs & found & w1 & Hlook & Hout).
  exists errs, found, w1. split; [exact Hlook|].
  pose proof (ServiceLookup_found _ _ _ _ _ _ Hlook) as Hfound.
  destruct found as [ips|].
  - rewrite Hout. cbn [fst snd world trace sched].
    destruct Hfound as [Hne Hwhere]. auto 10.
  - cbv zeta in Hout. rewrite Hout. cbn [fst snd world trace sched].
    split; [reflexivity|]. split; [exact Hfound|]. split; [reflexivity|].
    split; [rewrite <- app_assoc; reflexivity|].
    intros e He. rewrite He. reflexivity.
Qed.

(** *** RunAllTests *)

Lemma podProbes_shuffled pod coreDNSIPs choices entries allPods :
  podProbes pod coreDNSIPs (shuffle choices entries) allPods
  ≡ₚ podProbes pod coreDNSIPs entries allPods.
Proof.
  unfold podProbes. apply Permutation_app_head.
  apply Permutation_app_head. apply Permutation_app_tail.
  apply Permutation_map. unfold otherNodes.
  apply filter_Permutation', shuffle_Permutation.
Qed.

Lemma RunPodTests_keys ctx pod coreDNSIPs nodeIPs allPods st :
  map resultKey (RunPodTests ctx pod coreDNSIPs nodeIPs allPods st).1
  ≡ₚ map (probeKey pod)
         (podProbes pod coreDNSIPs (map_to_list nodeIPs) allPods).
Proof.
  destruct (RunPodTests_ran ctx pod coreDNSIPs nodeIPs allPods st)
    as (errs & (Hlen & Hres & _) & _).
  rewrite Hres, app_nil_l.
  rewrite (map_zip_with_l _ resultKey (probeKey pod))
    by (auto; intros; reflexivity).
  apply Permutation_map, podProbes_shuffled.
Qed.

Lemma RunAllTests_from_keys ctx pods coreDNSIPs nodeIPs order :
  forall acc st,
    map resultKey
        (for_range order
           (fun p results =>
              bind (RunPodTests ctx p coreDNSIPs nodeIPs pods)
                   (fun podResults => ret (results ++ podResults)))
           acc st).1
    ≡ₚ map resultKey acc
       ++ flat_map
            (fun pod => map (probeKey pod)
                            (podProbes pod coreDNSIPs (map_to_list nodeIPs) pods))
            order.
Proof.
  induction order as [|p rest IH]; intros acc st.
  - cbn. rewrite app_nil_r. reflexivity.
  - cbn [for_range flat_map]. unfold bind at 1. unfold bind at 1.
    pose proof (RunPodTests_keys ctx p coreDNSIPs nodeIPs pods st) as Hp.
    destruct (RunPodTests ctx p coreDNSIPs nodeIPs pods st) as [podResults st1].
    cbn [fst] in Hp. unfold ret at 1. rewrite IH, map_app, Hp, app_assoc.
    reflexivity.
Qed.

Lemma RunAllTests_keys ctx pods coreDNSIPs nodeIPs st :
  map resultKey (RunAllTests ctx pods coreDNSIPs nodeIPs st).1
  ≡ₚ flat_map
       (fun pod => map (probeKey pod)
                       (podProbes pod coreDNSIPs (map_to_list nodeIPs) pods))
       pods.
Proof.
  unfold RunAllTests. unfold bind at 1. unfold runtimeOrder.
  rewrite RunAllTests_from_keys. cbn [map app].
  apply Permutation_flat_map, shuffle_Permutation.
Qed.

Lemma podProbes_length pod coreDNSIPs (nodeIPs : gmap string string) allPods :
  length (podProbes pod coreDNSIPs (map_to_list nodeIPs) allPods)
  = length coreDNSIPs + 2 + size (delete (NodeName pod) nodeIPs)
    + length (otherPods pod allPods).
Proof.
  unfold podProbes. rewrite !length_app, !length_map.
  rewrite (Permutation_length (otherNodes_entries pod nodeIPs)).
  rewrite length_map_to_list. simpl. lia.
Qed.

Lemma length_flat_map_sum {A B} (f : A -> list B) l :
  length (flat_map f l) = list_sum (map (fun x => length (f x)) l).
Proof.
  induction l as [|x l IH]; [reflexivity|].
  cbn [flat_map map list_sum]. rewrite length_app, IH. reflexivity.
Qed.

(** X11: whatever order the runtime picks for the pods and for the
    entries of the node-IP map, and whatever the commands return,
    [RunAllTests] gives the same results up to order and outcome: for
    every pod one result per target of its probe plan (each cluster DNS
    address, the name github.com, github.com:443, each node of the map
    but the pod's own, each pod but itself), labelled with the pod and
    its node.  So the number of results is fixed by the inputs. *)
Theorem RunAllTests_same_tests_in_any_order ctx pods coreDNSIPs nodeIPs st :
  let results := (RunAllTests ctx pods coreDNSIPs nodeIPs st).1 in
  map resultKey results
  ≡ₚ flat_map
       (fun pod => map (probeKey pod)
                       (podProbes pod coreDNSIPs (map_to_list nodeIPs) pods))
       pods
  /\ length results
     = list_sum
         (map (fun pod => length coreDNSIPs + 2
                          + size (delete (NodeName pod) nodeIPs)
                          + length (otherPods pod pods))
              pods).
Proof.
  cbv zeta. pose proof (RunAllTests_keys ctx pods coreDNSIPs nodeIPs st) as Hkeys.
  split; [exact Hkeys|].
  apply Permutation_length in Hkeys.
  rewrite length_map, length_flat_map_sum in Hkeys. rewrite Hkeys.
  f_equal. apply map_ext. intros pod.
  rewrite length_map. apply podProbes_length.
Qed.

Lemma otherPods_length pod allPods :
  NoDup (map Name allPods) -> In pod allPods ->
  length (otherPods pod allPods) = pred (length allPods).
Proof.
  unfold otherPods. induction allPods as [|p rest IH]; intros Hnd Hin.
  - destruct Hin.
  - cbn [map] in Hnd. apply NoDup_cons in Hnd as [Hfresh Hnd].
    cbn [List.filter length pred].
    destruct (bool_decide_reflect (Name p = Name pod)) as [Heq|Hne]; cbn [negb].
    + rewrite filter_every; [reflexivity|].
      intros t Ht. apply negb_true_iff, bool_decide_eq_false.
      intros Hsame. apply Hfresh. rewrite Heq, <- Hsame.
      apply list_elem_of_In, in_map, Ht.
    + destruct Hin as [->|Hin]; [contradiction|].
      cbn [length]. rewrite IH by assumption.
      destruct rest; [destruct Hin | reflexivity].
Qed.

Lemma list_sum_const {A} (f : A -> nat) l k :
  (forall x, In x l -> f x = k) -> list_sum (map f l) = length l * k.
Proof.
  induction l as [|a l IH]; intros Hk; [reflexivity|].
  change (list_sum (map f (a :: l))) with (f a + list_sum (map f l)).
  rewrite (Hk a) by (left; reflexivity).
  rewrite IH by (intros; apply Hk; right; assumption).
  reflexivity.
Qed.

(** X12: when the pods have distinct names and every pod's node is in
    the node-IP map, the tests form a full mesh: each of the n pods
    probes every cluster DNS address, the two external targets, the
    other m - 1 nodes of the map and the other n - 1 pods. *)
Theorem RunAllTests_full_mesh ctx pods coreDNSIPs (nodeIPs : gmap string string) st :
  NoDup (map Name pods) ->
  (forall pod, In pod pods -> is_Some (nodeIPs !! NodeName pod)) ->
  length (RunAllTests ctx pods coreDNSIPs nodeIPs st).1
  = length pods * (length coreDNSIPs + 2 + pred (size nodeIPs)
                   + pred (length pods)).
Proof.
  intros Hnd Hnodes.
  pose proof (RunAllTests_keys ctx pods coreDNSIPs nodeIPs st) as Hkeys.
  apply Permutation_length in Hkeys.
  rewrite length_map, length_flat_map_sum in Hkeys. rewrite Hkeys.
  apply list_sum_const. intros pod Hpod.
  rewrite length_map, podProbes_length.
  rewrite map_size_delete_Some by (apply Hnodes, Hpod).
  rewrite otherPods_length by assumption. reflexivity.
Qed.

End StepProofs.

Lemma RunAllTests_full_mesh_witness :
  length (RunAllTests ctx_Caller (map testPodFor twoNodes) ["10.96.0.10"]
                      (GetNodeInternalIPs twoNodes) (start freshCluster [])).1
  = 10.
Proof.
  rewrite (RunAllTests_full_mesh (W := FakeCluster)).
  - reflexivity.
  - apply (bool_decide_unpack _). vm_compute. exact I.
  - intros pod [<-|[<-|[]]]; vm_compute; eexists; reflexivity.
Defined.

(** ** The outcomes of Run *)

Section RunOutcomes.

Context {W : Type} `{Env W}.
Implicit Types (st : St W) (ctx : context) (pod : TestPod).

Local Abbreviation emits := (@emits W).

Ltac step_in H :=
  lazymatch type of H with
  | context [match ?m ?s with pair _ _ => _ end] =>
      let r := fresh "r" in
      let st := fresh "st" in
      let E := fresh "E" in
      destruct (m s) as [r st] eqn:E; cbv beta iota in H
  end.

Ltac cases_in H :=
  lazymatch type of H with
  | context [match ?r with Ok _ => _ | Err _ => _ end] =>
      destruct r; cbv beta iota in H
  | context [match ?r with Some _ => _ | None => _ end] =>
      destruct r; cbv beta iota in H
  | context [if ?b then _ else _] =>
      destruct b eqn:?; cbv beta iota in H
  end.

Ltac emits_step :=
  first
    [ apply emits_ret
    | apply emits_Now
    | apply emits_runtimeOrder
    | apply emits_ContextWait
    | apply emits_logged; intros; reflexivity
    | apply emits_pollUntil; intros
    | apply emits_bind; [|intros]
    | apply emits_for_range; intros
    | match goal with
      | |- emits _ (match ?x with pair _ _ => _ end) => destruct x
      | |- emits _ (match ?x with pair _ _ => _ end _) => destruct x
      | |- emits _ (match ?x with Some _ => _ | None => _ end) => destruct x
      | |- emits _ (match ?x with Ok _ => _ | Err _ => _ end) => destruct x
      | |- emits _ (if ?b then _ else _) => destruct b
      end ].

Lemma len_eq_0 {A} (l : list A) : (len l =? 0)%Z = true <-> l = [].
Proof.
  unfold len. rewrite Z.eqb_eq. destruct l; simpl; [tauto|].
  split; [lia | discriminate].
Qed.

Lemma Run_path ctx st : RunPath ctx st (Run ctx st).1 (Run ctx st).2.
Proof.
  destruct (Run ctx st) as [res st'] eqn:Hrun. cbn [fst snd].
  unfold Run, bind, ret in Hrun.
  destruct (Now st) as [now s0] eqn:Hnow.
  destruct (EnsureNamespace ctx s0) as [[e|] s1] eqn:Hns.
  { injection Hrun as <- <-. exact (path_namespace ctx st now s0 e s1 Hnow Hns). }
  destruct (CleanupTestPods ctx s1) as [c s2] eqn:Hpre.
  destruct (NodesList ctx s2) as [[nodes|e] s3] eqn:Hlist; cycle 1.
  { injection Hrun as <- <-.
    exact (path_list ctx st now s0 s1 c s2 e s3 Hnow Hns Hpre Hlist). }
  cbv beta iota zeta in Hrun.
  destruct (len (filterReadyNodes nodes) =? 0)%Z eqn:Hzero.
  { injection Hrun as <- <-. apply len_eq_0 in Hzero.
    exact (path_no_nodes ctx st now s0 s1 c s2 nodes s3 Hnow Hns Hpre Hlist Hzero). }
  assert (Hready : filterReadyNodes nodes <> []).
  { intros Hnil. apply len_eq_0 in Hnil. congruence. }
  destruct (CreateTestPods ctx (filterReadyNodes nodes) s3)
    as [[pods0|e] s4] eqn:Hcreate.
  - destruct (Run_guarded ctx (filterReadyNodes nodes) pods0 _ s4)
      as [r s5] eqn:Hguarded.
    destruct (CleanupTestPods (ctx_WithTimeout ctx_Background 30) s5)
      as [c' s6] eqn:Hpost.
    injection Hrun as <- <-.
    exact (path_guarded ctx st now s0 s1 c s2 nodes s3 pods0 s4 r s5 c' s6
             Hnow Hns Hpre Hlist Hready Hcreate Hguarded Hpost).
  - destruct (CleanupTestPods ctx s4) as [c' s5] eqn:Hpost.
    injection Hrun as <- <-.
    exact (path_create ctx st now s0 s1 c s2 nodes s3 e s4 c' s5
             Hnow Hns Hpre Hlist Hready Hcreate Hpost).
Qed.

Lemma Now_spec st : trace (Now st).2 = trace st /\ (Now st).1 = (time_Now (world st)).1.
Proof. unfold Now. destruct (time_Now (world st)). auto. Qed.

Lemma CreateTestPods_from_error ctx nodes : forall testPods st e st',
  CreateTestPods_from ctx nodes testPods st = (Err e, st') ->
  exists node e0,
    In node nodes
    /\ IsAlreadyExists e0 = false
    /\ e = Errorf_w ("failed to create pod on node "
                       +:+ corev1.Node_Name node +:+ ": ") e0.
Proof.
  induction nodes as [|node rest IH]; intros testPods st e st' Hrun.
  - discriminate.
  - cbn [CreateTestPods_from] in Hrun. cbv zeta in Hrun. unfold bind in Hrun.
    destruct (PodsCreate ctx testNamespace _ st) as [[e0|] s1].
    + destruct (IsAlreadyExists e0) eqn:Hexists.
      * destruct (IH _ _ _ _ Hrun) as (n & e1 & Hin & Hne & ->).
        exists n, e1. simpl. auto.
      * injection Hrun as <- <-. exists node, e0. simpl. auto.
    + destruct (IH _ _ _ _ Hrun) as (n & e1 & Hin & Hne & ->).
      exists n, e1. simpl. auto.
Qed.

(** Every call before the deferred cleanup is made under the caller's
    context or one derived from it. *)
Lemma EnsureNamespace_rooted ctx : emits (rooted ctx) (EnsureNamespace ctx).
Proof. unfold EnsureNamespace, NamespacesCreate. repeat emits_step. Qed.

Lemma CleanupTestPods_rooted ctx : emits (rooted ctx) (CleanupTestPods ctx).
Proof.
  unfold CleanupTestPods, NamespacesDelete, NamespacesGet. repeat emits_step.
Qed.

Lemma NodesList_rooted ctx : emits (rooted ctx) (NodesList ctx).
Proof. unfold NodesList. repeat emits_step. Qed.

Lemma CreateTestPods_rooted ctx nodes :
  emits (rooted ctx) (CreateTestPods ctx nodes).
Proof.
  unfold CreateTestPods. generalize (@nil TestPod).
  induction nodes as [|node rest IH]; intros testPods; simpl.
  - apply emits_ret.
  - apply emits_bind; [unfold PodsCreate; emits_step|].
    intros [e|]; [destruct (IsAlreadyExists e)|]; auto using emits_ret.
Qed.

Lemma WaitForPodsReady_rooted ctx pods timeout :
  emits (rooted ctx) (WaitForPodsReady ctx pods timeout).
Proof.
  unfold WaitForPodsReady. generalize (timeout / 2).
  induction pods as [|pod rest IH]; intros ticks; cbn [WaitForPodsReady_from].
  - apply emits_ret.
  - apply emits_bind.
    + apply emits_pollUntil. intros s.
      unfold podReadyCond, PodsGet. repeat emits_step.
    + intros [[err pod1] ticks1]. destruct err; [apply emits_ret|].
      apply emits_bind; [apply IH|]. intros [? ?]. apply emits_ret.
Qed.

Lemma discoverViaServices_rooted ctx names : forall dnsIPs,
  emits (rooted ctx) (discoverViaServices ctx names dnsIPs).
Proof.
  induction names as [|name rest IH]; intros dnsIPs; simpl.
  - apply emits_ret.
  - apply emits_bind; [unfold EndpointsGet; emits_step|].
    intros [ep|e]; [|apply IH].
    destruct (0 <? length (appendEndpointIPs dnsIPs ep));
      [apply emits_ret | apply IH].
Qed.

Lemma Run_guarded_rooted ctx readyNodes testPods report :
  emits (rooted ctx) (Run_guarded ctx readyNodes testPods report).
Proof.
  unfold Run_guarded.
  apply emits_bind; [apply WaitForPodsReady_rooted|].
  intros [err pods1]. destruct err; [apply emits_ret|].
  apply emits_bind.
  { unfold DiscoverCoreDNSPods. apply emits_bind.
    - apply discoverViaServices_rooted.
    - intros [returned dnsIPs]. destruct returned; [apply emits_ret|].
      unfold PodsList. repeat emits_step. }
  intros r. apply emits_bind.
  { unfold StartListeners, ExecInPod. repeat emits_step. }
  intros _. apply emits_bind; [|intros results; apply emits_ret].
  unfold RunAllTests, RunPodTests, TestCoreDNSConnectivity, TestDNSResolution,
    TestExternalTCP, TestKubeletConnectivity, TestPodToPod, ExecInPod.
  repeat emits_step.
Qed.

Lemma emits_at {A} P (m : M W A) st a st' :
  emits P m -> m st = (a, st') ->
  exists evs, trace st' = trace st ++ evs /\ Forall P evs.
Proof. intros Hm Hrun. specialize (Hm st). rewrite Hrun in Hm. exact Hm. Qed.

(** X13: a report returned by [Run] describes a run over the ready
    nodes of the node listing.  The listing is the answer of the API to
    the one call made after the namespace was ensured and the leftovers
    cleaned up; at least one of its nodes is ready.  The node count and
    the pod count are both the number of ready nodes, the timestamp is
    the time read at the start, the pods are those created for the ready
    nodes, one each and named after it, as the wait for readiness
    returned them, and the results are, up to order and outcome, the
    probe plans of these pods against the cluster DNS addresses that the
    discovery made after the wait returned (none when it failed) and the
    internal IPs of the ready nodes. *)
Theorem Run_report_covers_ready_nodes ctx st report st' :
  Run ctx st = (Ok report, st') ->
  let listing := (CleanupTestPods ctx (EnsureNamespace ctx (Now st).2).2).2 in
  exists nodes,
    (Nodes_List ctx (world listing)).1 = Ok nodes
    /\ let readyNodes := filterReadyNodes nodes in
       let created := CreateTestPods ctx readyNodes (NodesList ctx listing).2 in
       let waited := WaitForPodsReady ctx (map testPodFor readyNodes) 90
                                      created.2 in
       let pods := waited.1.2 in
       let coreDNSIPs := match (DiscoverCoreDNSPods ctx waited.2).1 with
                         | Ok ips => ips
                         | Err _ => []
                         end in
       readyNodes <> []
       /\ NodeCount report = len readyNodes
       /\ PodCount report = len readyNodes
       /\ Timestamp report = (time_Now (world st)).1
       /\ map Name pods
          = map (fun node => podNameFor (corev1.Node_Name node)) readyNodes
       /\ map NodeName pods = map corev1.Node_Name readyNodes
       /\ map resultKey (TestResults report)
          ≡ₚ flat_map
               (fun pod =>
                  map (probeKey pod)
                      (podProbes pod coreDNSIPs
                                 (map_to_list (GetNodeInternalIPs readyNodes))
                                 pods))
               pods.
Proof.
  intros Hrun. pose proof (Run_path ctx st) as Hpath.
  rewrite Hrun in Hpath. cbn [fst snd] in Hpath.
  inversion Hpath
    as [| | | |now s0 s1 c s2 nodes s3 pods0 s4 r s5 c' s6
              Hnow Hns Hpre Hlist Hready Hcreate Hguarded Hpost Hr Hst].
  apply Run_guarded_Ok_inv in Hguarded
    as (pods1 & sa & dns & sb & sc & Hwait & Hdisc & _ & Hall & Htime & Hnodes & Hpods).
  cbn [Timestamp NodeCount] in Htime, Hnodes.
  destruct (CreateTestPods_from_spec ctx (filterReadyNodes nodes) [] s3)
    as (evs & _ & _ & Hcreated).
  cbv zeta in Hcreated. pose proof Hcreate as Hcreate'.
  unfold CreateTestPods in Hcreate'.
  rewrite Hcreate' in Hcreated. cbn [fst app] in Hcreated.
  destruct Hcreated as (-> & _ & _).
  destruct (WaitForPodsReady_from_spec (ctx_WithTimeout ctx 90)
              (map testPodFor (filterReadyNodes nodes)) (90 / 2) s4)
    as (gets & _ & Hnames & Hnodenames & _).
  cbv zeta in Hnames, Hnodenames. pose proof Hwait as Hwait'.
  unfold WaitForPodsReady in Hwait'.
  rewrite Hwait' in Hnames, Hnodenames. cbn [fst snd] in Hnames, Hnodenames.
  rewrite map_map in Hnames, Hnodenames. cbn [testPodFor Name NodeName] in *.
  cbv zeta. rewrite Hnow. cbn [snd]. rewrite Hns. cbn [snd].
  rewrite Hpre. cbn [snd].
  exists nodes. split.
  { unfold NodesList, logged in Hlist.
    destruct (Nodes_List ctx (world s2)) as [listed w]. cbn [fst].
    injection Hlist as -> _. reflexivity. }
  rewrite Hlist. cbn [snd]. rewrite Hcreate. cbn [snd].
  rewrite Hwait. cbn [fst snd]. rewrite Hdisc. cbn [fst].
  split; [exact Hready|]. split; [exact Hnodes|].
  split.
  { rewrite Hpods. unfold len. f_equal.
    rewrite <- (length_map Name pods1), Hnames. apply length_map. }
  split.
  { rewrite Htime. destruct (Now_spec st) as [_ Hclock].
    rewrite Hnow in Hclock. exact Hclock. }
  split; [exact Hnames|]. split; [exact Hnodenames|].
  pose proof (RunAllTests_keys ctx pods1
                (match dns with Ok ips => ips | Err _ => [] end)
                (GetNodeInternalIPs (filterReadyNodes nodes)) sc) as Hkeys.
  rewrite Hall in Hkeys. exact Hkeys.
Qed.

Ltac wrong_message Heq :=
  apply (f_equal (fun r : result NetworkTestReport =>
                    match r with
                    | Err e => String.get 0 (err_Error e)
                    | Ok _ => None
                    end)) in Heq;
  vm_compute in Heq; discriminate.

Lemma Run_guarded_path_trace ctx st now s0 s1 c s2 nodes s3 pods0 s4 r s5 report0 :
  Now st = (now, s0) ->
  EnsureNamespace ctx s0 = (None, s1) ->
  CleanupTestPods ctx s1 = (c, s2) ->
  NodesList ctx s2 = (Ok nodes, s3) ->
  CreateTestPods ctx (filterReadyNodes nodes) s3 = (Ok pods0, s4) ->
  Run_guarded ctx (filterReadyNodes nodes) pods0 report0 s4 = (r, s5) ->
  exists before, trace s5 = trace st ++ before /\ Forall (rooted ctx) before.
Proof.
  intros Hnow Hns Hpre Hlist Hcreate Hguarded.
  destruct (Now_spec st) as [Ht0 _]. rewrite Hnow in Ht0. cbn [snd] in Ht0.
  destruct (emits_at _ _ _ _ _ (EnsureNamespace_rooted ctx) Hns) as (e1 & T1 & F1).
  destruct (emits_at _ _ _ _ _ (CleanupTestPods_rooted ctx) Hpre) as (e2 & T2 & F2).
  destruct (emits_at _ _ _ _ _ (NodesList_rooted ctx) Hlist) as (e3 & T3 & F3).
  destruct (emits_at _ _ _ _ _ (CreateTestPods_rooted ctx _) Hcreate)
    as (e4 & T4 & F4).
  destruct (emits_at _ _ _ _ _ (Run_guarded_rooted ctx _ _ _) Hguarded)
    as (e5 & T5 & F5).
  exists (e1 ++ e2 ++ e3 ++ e4 ++ e5). split.
  - rewrite T5, T4, T3, T2, T1, Ht0, <- !app_assoc. reflexivity.
  - repeat (apply Forall_app; split; try assumption).
Qed.

(** X14: when [Run] returns a report, or gives up because the pods did
    not become ready, the last thing it did is the deferred cleanup: the
    deletion of the diagnostic namespace and the reads that wait for it.
    These calls are made under a context of their own, derived from the
    background context with a 30 second timeout, while every call before
    them is made under the caller's context or one derived from it: the
    end of the caller's context does not stop the final cleanup. *)
Theorem Run_final_cleanup_context ctx st :
  let out := Run ctx st in
  (isOk out.1 = true
   \/ exists e, out.1 = Err (Errorf_w "pods failed to become ready: " e)) ->
  exists before del polls,
    trace out.2 = trace st ++ before ++ del :: polls
    /\ Forall (rooted ctx) before
    /\ isNamespacesDelete del = true
    /\ ev_ctx del = ctx_WithTimeout ctx_Background 30
    /\ Forall (fun e => isNamespacesGet e = true /\ rooted ctx_Background e)
              polls.
Proof.
  cbv zeta. intros Hout. pose proof (Run_path ctx st) as Hpath.
  destruct (Run ctx st) as [res st']. cbn [fst snd] in *.
  inversion Hpath
    as [now s0 e s1 Hnow Hns Hr Hst
       |now s0 s1 c s2 e s3 Hnow Hns Hpre Hlist Hr Hst
       |now s0 s1 c s2 nodes s3 Hnow Hns Hpre Hlist Hnone Hr Hst
       |now s0 s1 c s2 nodes s3 e s4 c' s5
            Hnow Hns Hpre Hlist Hready Hcreate Hpost Hr Hst
       |now s0 s1 c s2 nodes s3 pods0 s4 r s5 c' s6
            Hnow Hns Hpre Hlist Hready Hcreate Hguarded Hpost Hr Hst];
    subst res; try subst st'.
  1-4: destruct Hout as [Hok|(e' & Heq)]; [discriminate Hok | wrong_message Heq].
  destruct (Run_guarded_path_trace _ _ _ _ _ _ _ _ _ _ _ _ _ _
              Hnow Hns Hpre Hlist Hcreate Hguarded) as (before & Htr & Hbefore).
  destruct (CleanupTestPods_trace (ctx_WithTimeout ctx_Background 30) s5)
    as (del & gets & Htr' & Hdel & Hctx & Hgets).
  destruct (emits_at _ _ _ _ _
              (CleanupTestPods_rooted (ctx_WithTimeout ctx_Background 30)) Hpost)
    as (evs & Hevs & Hrooted).
  rewrite Hpost in Htr'. cbn [snd] in Htr'.
  assert (evs = del :: gets) as ->
      by (eapply app_inv_head; rewrite <- Hevs; exact Htr').
  exists before, del, gets.
  split; [rewrite Htr', Htr, <- app_assoc; reflexivity|].
  split; [exact Hbefore|]. split; [exact Hdel|]. split; [exact Hctx|].
  apply Forall_cons_1 in Hrooted as [_ Hrooted].
  rewrite List.Forall_forall in Hgets, Hrooted |- *.
  intros e He. split; [apply Hgets, He | apply Hrooted, He].
Qed.

Lemma EnsureNamespace_error ctx st e st' :
  EnsureNamespace ctx st = (Some e, st') ->
  exists e0 ev,
    e = Errorf_w "failed to create namespace: " e0
    /\ IsAlreadyExists e0 = false
    /\ trace st' = trace st ++ [ev]
    /\ isNamespacesCreate ev = true
    /\ ev_ctx ev = ctx
    /\ ev_err ev = Some e0.
Proof.
  unfold EnsureNamespace, bind, NamespacesCreate, logged, ret. cbv zeta.
  destruct (Namespaces_Create ctx _ (world st)) as [[e0|] w]; [|discriminate].
  cbn [id]. destruct (IsAlreadyExists e0) eqn:Hexists; [discriminate|].
  cbn [negb]. intros [= <- <-]. eexists e0, _.
  split; [reflexivity|]. split; [exact Hexists|].
  split; [reflexivity|]. auto.
Qed.

Lemma Run_guarded_error ctx readyNodes pods0 report0 st e st' :
  Run_guarded ctx readyNodes pods0 report0 st = (Err e, st') ->
  exists pod cause,
    In pod pods0
    /\ contextEnded (ctx_WithTimeout ctx 90) cause
    /\ e = Errorf_w "pods failed to become ready: "
                    (Errorf_w ("pod " +:+ Name pod +:+ " failed to become ready: ")
                              cause).
Proof.
  intros Hg. unfold Run_guarded, bind, ret in Hg.
  destruct (WaitForPodsReady_from_spec (ctx_WithTimeout ctx 90) pods0 (90 / 2) st)
    as (evs & _ & _ & _ & _ & Hres).
  cbv zeta in Hres. unfold WaitForPodsReady in Hg.
  destruct (WaitForPodsReady_from (ctx_WithTimeout ctx 90) pods0 (90 / 2) st)
    as [[err pods1] s1].
  cbn [fst] in Hres. destruct err as [e1|].
  - injection Hg as <- <-.
    destruct Hres as (done & pod & rest & cause & -> & -> & Hcause & _).
    exists pod, cause.
    split; [apply in_app_iff; simpl; auto|]. split; [exact Hcause | reflexivity].
  - do 3 step_in Hg. discriminate.
Qed.

(** X15: the errors of [Run].  It fails in one of five ways, told apart
    by the message.  (1) The namespace could not be created, for another
    reason than that it exists: the only call made is that creation, and
    its error is wrapped twice with the same words.  (2) The nodes could
    not be listed, or (3) none of them is ready: no pod was created.
    (4) A pod could not be created, for another reason than that it
    exists: the error names the node, and the run ends with a cleanup
    under the caller's own context.  (5) The wait for the pods was given
    up: the error names the pod that was not seen ready and carries the
    error of the wait's context, the caller's context with the 90 second
    timeout: its deadline, or what ended it before (the caller's
    cancellation). *)
Theorem Run_errors ctx st e st' :
  Run ctx st = (Err e, st') ->
  (exists e0 ev,
      e = Errorf_w "failed to create namespace: "
                   (Errorf_w "failed to create namespace: " e0)
      /\ IsAlreadyExists e0 = false
      /\ since st st' = [ev]
      /\ isNamespacesCreate ev = true
      /\ ev_err ev = Some e0)
  \/ (((exists e0, e = Errorf_w "failed to list nodes: " e0)
       \/ e = Errorf "no ready nodes found in cluster")
      /\ Forall (fun ev => isPodsCreate ev = false) (since st st'))
  \/ (exists node e0 before del polls,
         e = Errorf_w "failed to create test pods: "
                      (Errorf_w ("failed to create pod on node "
                                   +:+ corev1.Node_Name node +:+ ": ") e0)
         /\ IsAlreadyExists e0 = false
         /\ since st st' = before ++ del :: polls
         /\ isNamespacesDelete del = true
         /\ ev_ctx del = ctx
         /\ Forall (fun ev => isNamespacesGet ev = true) polls)
  \/ (exists pod cause,
         e = Errorf_w "pods failed to become ready: "
                      (Errorf_w ("pod " +:+ Name pod
                                   +:+ " failed to become ready: ")
                                cause)
         /\ contextEnded (ctx_WithTimeout ctx 90) cause).
Proof.
  intros Hrun. pose proof (Run_path ctx st) as Hpath.
  rewrite Hrun in Hpath. cbn [fst snd] in Hpath.
  assert (Hquiet : forall s0 s1 c s2 r s3 now,
             Now st = (now, s0) ->
             EnsureNamespace ctx s0 = (None, s1) ->
             CleanupTestPods ctx s1 = (c, s2) ->
             NodesList ctx s2 = (r, s3) ->
             (exists evs, trace s3 = trace st ++ evs)
             /\ Forall (fun ev => isPodsCreate ev = false) (since st s3)).
  { intros s0 s1 c s2 r s3 now Hnow Hns Hpre Hlist.
    destruct (Now_spec st) as [Ht0 _]. rewrite Hnow in Ht0. cbn [snd] in Ht0.
    assert (E1 : emits (fun ev => isPodsCreate ev = false) (EnsureNamespace ctx))
      by (unfold EnsureNamespace, NamespacesCreate; repeat emits_step).
    assert (E2 : emits (fun ev => isPodsCreate ev = false) (CleanupTestPods ctx))
      by (unfold CleanupTestPods, NamespacesDelete, NamespacesGet;
          repeat emits_step).
    assert (E3 : emits (fun ev => isPodsCreate ev = false) (NodesList ctx))
      by (unfold NodesList; repeat emits_step).
    destruct (emits_at _ _ _ _ _ E1 Hns) as (e1 & T1 & F1).
    destruct (emits_at _ _ _ _ _ E2 Hpre) as (e2 & T2 & F2).
    destruct (emits_at _ _ _ _ _ E3 Hlist) as (e3 & T3 & F3).
    assert (Htr : trace s3 = trace st ++ e1 ++ e2 ++ e3)
      by (rewrite T3, T2, T1, Ht0, <- !app_assoc; reflexivity).
    split; [eexists; exact Htr|].
    rewrite (since_app _ _ _ Htr).
    repeat (apply Forall_app; split; try assumption). }
  inversion Hpath
    as [now s0 e1 s1 Hnow Hns Hr Hst
       |now s0 s1 c s2 e1 s3 Hnow Hns Hpre Hlist Hr Hst
       |now s0 s1 c s2 nodes s3 Hnow Hns Hpre Hlist Hnone Hr Hst
       |now s0 s1 c s2 nodes s3 e1 s4 c' s5
            Hnow Hns Hpre Hlist Hready Hcreate Hpost Hr Hst
       |now s0 s1 c s2 nodes s3 pods0 s4 r s5 c' s6
            Hnow Hns Hpre Hlist Hready Hcreate Hguarded Hpost Hr Hst].
  - left. apply EnsureNamespace_error in Hns
      as (e0 & ev & -> & Hne & Htr & Hcreate & _ & Herr).
    destruct (Now_spec st) as [Ht0 _]. rewrite Hnow in Ht0. cbn [snd] in Ht0.
    rewrite Ht0 in Htr. subst st'.
    exists e0, ev. rewrite (since_app _ _ _ Htr). auto.
  - right. left. subst st'.
    split; [left; eexists; reflexivity|].
    eapply Hquiet; eassumption.
  - right. left. subst st'.
    split; [right; reflexivity|].
    eapply Hquiet; eassumption.
  - right. right. left. subst st'.
    unfold CreateTestPods in Hcreate.
    pose proof Hcreate as Hshape.
    apply CreateTestPods_from_error in Hshape as (node & e0 & _ & Hne & ->).
    destruct (Hquiet _ _ _ _ _ _ _ Hnow Hns Hpre Hlist) as [(evs & Htr3) _].
    destruct (emits_at _ _ _ _ _ (CreateTestPods_rooted ctx _) Hcreate)
      as (e4 & T4 & _).
    destruct (CleanupTestPods_trace ctx s4) as (del & gets & T5 & Hdel & Hctx & Hgets).
    rewrite Hpost in T5. cbn [snd] in T5.
    exists node, e0, (evs ++ e4), del, gets.
    split; [reflexivity|]. split; [exact Hne|].
    split; [|auto].
    apply since_app. rewrite T5, T4, Htr3, <- !app_assoc. reflexivity.
  - right. right. right. subst r.
    apply Run_guarded_error in Hguarded as (pod & cause & _ & Hcause & ->).
    exists pod, cause. split; [reflexivity | exact Hcause].
Qed.

End RunOutcomes.

Lemma Run_report_covers_ready_nodes_witness :
  exists report st',
    Run ctx_Caller keptStart = (Ok report, st')
    /\ NodeCount report = 2%Z
    /\ PodCount report = 2%Z
    /\ exists nodes, filterReadyNodes nodes = twoNodes.
Proof.
  pose (out := Run ctx_Caller keptStart).
  pose (report := match out.1 with Ok r => r | Err _ => mixedReport end).
  assert (Hrun : Run ctx_Caller keptStart = (Ok report, out.2))
    by (vm_compute; reflexivity).
  exists report, out.2. split; [exact Hrun|].
  destruct (Run_report_covers_ready_nodes ctx_Caller keptStart report out.2 Hrun)
    as (nodes & Hlisted & _ & Hnodes & Hpods & _).
  assert (Hnodes' : nodes = twoNodes).
  { vm_compute in Hlisted. injection Hlisted as <-. reflexivity. }
  subst nodes. split; [exact Hnodes|]. split; [exact Hpods|].
  exists twoNodes. reflexivity.
Defined.

Lemma Run_final_cleanup_context_witness :
  exists before del polls,
    trace (Run ctx_Caller keptStart).2 = trace keptStart ++ before ++ del :: polls
    /\ Forall (rooted ctx_Caller) before
    /\ isNamespacesDelete del = true
    /\ ev_ctx del = ctx_WithTimeout ctx_Background 30
    /\ Forall (fun e => isNamespacesGet e = true /\ rooted ctx_Background e)
              polls.
Proof.
  apply (Run_final_cleanup_context ctx_Caller keptStart).
  left. vm_compute. reflexivity.
Defined.

Lemma Run_errors_witness :
  exists e0 ev,
    (Run ctx_Caller (start deniedCluster [])).1
    = Err (Errorf_w "failed to create namespace: "
                    (Errorf_w "failed to create namespace: " e0))
    /\ since (start deniedCluster [])
             (Run ctx_Caller (start deniedCluster [])).2 = [ev]
    /\ ev_err ev = Some e0.
Proof.
  pose (out := Run ctx_Caller (start deniedCluster [])).
  pose (e := match out.1 with Err e => e | Ok _ => DeadlineExceeded end).
  assert (Hrun : Run ctx_Caller (start deniedCluster []) = (Err e, out.2))
    by (vm_compute; reflexivity).
  destruct (Run_errors ctx_Caller (start deniedCluster []) e out.2 Hrun)
    as [(e0 & ev & He & _ & Hsince & _ & Herr)
       |[[[(e0 & He)|He] _]
        |[(node & e0 & before & del & polls & He & _)|(pod & cause & He & _)]]].
  - exists e0, ev. rewrite Hrun. cbn [fst snd]. rewrite He. auto.
  - apply (f_equal (fun x => String.get 10 (err_Error x))) in He.
    vm_compute in He. discriminate.
  - apply (f_equal (fun x => String.get 0 (err_Error x))) in He.
    vm_compute in He. discriminate.
  - apply (f_equal (fun x => String.get 17 (err_Error x))) in He.
    vm_compute in He. discriminate.
  - apply (f_equal (fun x => String.get 0 (err_Error x))) in He.
    vm_compute in He. discriminate.
Defined.

(** ** No failure is lost between the report and the checks *)

Lemma criticalEntries_cons check checks :
  criticalEntries (check :: checks)
  = List.filter (fun r => (probe.Severity r =? probe.SeverityCritical)%Z)
                (probe.Results check)
    ++ criticalEntries checks.
Proof. unfold criticalEntries. cbn [flat_map]. apply List.filter_app. Qed.

Lemma critical_checkFor ty trs :
  List.filter (fun r => (probe.Severity r =? probe.SeverityCritical)%Z)
              (probe.Results (checkFor ty trs))
  = map (failureOf ty) (failedTests trs).
Proof.
  cbn [checkFor probe.Results]. rewrite List.filter_app.
  rewrite filter_every
    by (intros r Hr; apply in_map_iff in Hr as (tr & <- & _); reflexivity).
  destruct (forallb Success trs); cbn; apply app_nil_r.
Qed.

Lemma criticalEntries_checks results tys :
  length (criticalEntries
            (map (fun ty => checkFor ty (ofType ty results))
                 (List.filter (fun ty => hasType ty results) tys)))
  = list_sum (map (fun ty => length (failedTests (ofType ty results))) tys).
Proof.
  induction tys as [|ty tys IH]; [reflexivity|].
  cbn [List.filter map].
  change (list_sum (?n :: ?l)) with (n + list_sum l). cbv beta.
  rewrite <- IH, (hasType_ofType ty results).
  destruct (ofType ty results) as [|tr trs] eqn:Htrs; [reflexivity|].
  cbn [map]. rewrite criticalEntries_cons, length_app, critical_checkFor.
  rewrite length_map, Htrs. reflexivity.
Qed.

Lemma list_sum_indicator (x : string) tys :
  NoDup tys -> In x tys ->
  list_sum (map (fun ty => if bool_decide (x = ty) then 1 else 0) tys) = 1.
Proof.
  induction tys as [|ty tys IH]; intros Hnd Hin; [destruct Hin|].
  apply NoDup_cons in Hnd as [Hfresh Hnd].
  change (list_sum (map ?f (ty :: tys))) with (f ty + list_sum (map f tys)).
  cbv beta. destruct (bool_decide_reflect (x = ty)) as [->|Hne].
  - rewrite (list_sum_const _ tys 0); [lia|].
    intros y Hy. rewrite bool_decide_eq_false_2; [reflexivity|].
    intros ->. apply Hfresh, list_elem_of_In, Hy.
  - destruct Hin as [->|Hin]; [contradiction|]. rewrite IH by assumption. lia.
Qed.

Lemma failedTests_by_type tys results :
  NoDup tys ->
  Forall (fun r => In (TestType r) tys) results ->
  list_sum (map (fun ty => length (failedTests (ofType ty results))) tys)
  = length (failedTests results).
Proof.
  intros Hnd. induction results as [|r rest IH]; intros Htypes.
  - rewrite (list_sum_const _ tys 0) by reflexivity. simpl. lia.
  - apply Forall_cons_1 in Htypes as [Hr Hrest].
    rewrite failedTests_cons. destruct (Success r) eqn:Hok.
    + rewrite <- (IH Hrest). f_equal. apply map_ext. intros ty.
      rewrite ofType_cons.
      destruct (bool_decide (TestType r = ty)); [|reflexivity].
      rewrite failedTests_cons, Hok. reflexivity.
    + assert (Hsplit : forall l,
                 list_sum (map (fun ty => length (failedTests
                                                    (ofType ty (r :: rest)))) l)
                 = list_sum (map (fun ty => if bool_decide (TestType r = ty)
                                            then 1 else 0) l)
                   + list_sum (map (fun ty => length (failedTests
                                                        (ofType ty rest))) l)).
      { induction l as [|ty l IHl]; [reflexivity|].
        change (list_sum (map ?f (ty :: l))) with (f ty + list_sum (map f l)).
        cbv beta. rewrite IHl, ofType_cons.
        destruct (bool_decide (TestType r = ty)); [|lia].
        rewrite failedTests_cons, Hok. cbn [length]. lia. }
      rewrite Hsplit, (list_sum_indicator _ _ Hnd Hr), (IH Hrest).
      reflexivity.
Qed.

Lemma countSuccess_false_failedTests results :
  countSuccess false results = len (failedTests results).
Proof. reflexivity. Qed.

Lemma NoDup_typeOrder : NoDup typeOrder.
Proof. apply (bool_decide_unpack _). vm_compute. exact I. Qed.

(** X16: no failure is lost between a report of [Run] and the checks
    shown to the user: every failed test has its critical entry in the
    check of its type, and the checks hold as many critical entries as
    the summary counts failures.  (A result of a type outside the five
    would be counted in the summary and shown in no check; [Run] gives
    none.) *)
Theorem checks_show_every_failure {W} `{Env W} ctx (st : St W) report st' :
  Run ctx st = (Ok report, st') ->
  (len (TestResults report) <= MaxInt)%Z ->
  len (criticalEntries (convertNetworkReport report)) = Failed (Summary report)
  /\ forall r,
      In r (TestResults report) -> Success r = false ->
      exists check,
        In check (convertNetworkReport report)
        /\ probe.Check_Name check = "network-test-" +:+ TestType r
        /\ In (failureOf (TestType r) r) (probe.Results check).
Proof.
  intros Hrun Hlen.
  pose proof (Run_result_types _ _ _ _ Hrun) as Htypes.
  split.
  - rewrite (Run_summary _ _ _ _ Hrun), summarize_Failed by exact Hlen.
    rewrite countSuccess_false_failedTests, convertNetworkReport_spec by exact Hlen.
    unfold len. f_equal.
    rewrite criticalEntries_checks.
    apply failedTests_by_type; [apply NoDup_typeOrder | exact Htypes].
  - intros r Hin Hfail.
    exists (checkFor (TestType r) (ofType (TestType r) (TestResults report))).
    assert (Hr : In r (ofType (TestType r) (TestResults report)))
      by (apply In_ofType; auto).
    split; [|split; [reflexivity|]].
    + apply In_convertNetworkReport; [exact Hlen|].
      exists (TestType r). split; [|split; [|reflexivity]].
      * rewrite List.Forall_forall in Htypes. apply Htypes, Hin.
      * intros Hnil. rewrite Hnil in Hr. destruct Hr.
    + cbn [checkFor probe.Results]. apply in_app_iff. left.
      apply in_map. unfold failedTests. apply filter_In.
      split; [exact Hr|]. rewrite Hfail. reflexivity.
Qed.

Lemma checks_show_every_failure_witness :
  exists report st',
    Run ctx_Caller keptStart = (Ok report, st')
    /\ len (criticalEntries (convertNetworkReport report)) = 2%Z
    /\ Failed (Summary report) = 2%Z.
Proof.
  pose (out := Run ctx_Caller keptStart).
  pose (report := match out.1 with Ok r => r | Err _ => mixedReport end).
  assert (Hrun : Run ctx_Caller keptStart = (Ok report, out.2))
    by (vm_compute; reflexivity).
  exists report, out.2. split; [exact Hrun|].
  rewrite (proj1 (checks_show_every_failure ctx_Caller keptStart report out.2 Hrun
                    ltac:(vm_compute; discriminate))).
  split; vm_compute; reflexivity.
Defined.

(** ** The caller's tables *)

(** X17: the three tables of the caller agree: the five test types it
    groups by, in an order without repetition, are exactly the types with
    a display name and exactly the types with advice of their own; any
    other type gets the general advice. *)
Theorem caller_tables_agree ty :
  NoDup typeOrder
  /\ (In ty typeOrder <-> is_Some (typeNames !! ty))
  /\ (In ty typeOrder <-> getNetworkRemediation ty <> defaultRemediation).
Proof.
  split; [apply NoDup_typeOrder|].
  unfold typeOrder, typeNames, getNetworkRemediation, defaultRemediation.
  cbn [list_to_map foldr curry uncurry fst snd In].
  destruct (bool_decide_reflect (ty = "coredns")) as [->|H1].
  { split; (split; [intros _|auto]);
      [rewrite lookup_insert_eq; eauto | discriminate]. }
  destruct (bool_decide_reflect (ty = "dns")) as [->|H2].
  { split; (split; [intros _|auto]);
      [vm_compute; eauto | discriminate]. }
  destruct (bool_decide_reflect (ty = "external-tcp")) as [->|H3].
  { split; (split; [intros _|auto]);
      [vm_compute; eauto | discriminate]. }
  destruct (bool_decide_reflect (ty = "kubelet")) as [->|H4].
  { split; (split; [intros _|auto 6]);
      [vm_compute; eauto | discriminate]. }
  destruct (bool_decide_reflect (ty = "pod-to-pod")) as [->|H5].
  { split; (split; [intros _|auto 6]);
      [vm_compute; eauto | discriminate]. }
  split; split.
  - intros [?|[?|[?|[?|[?|[]]]]]]; congruence.
  - rewrite !lookup_insert_ne, lookup_empty by congruence.
    intros [x Hx]. discriminate.
  - intros [?|[?|[?|[?|[?|[]]]]]]; congruence.
  - intros Hne. exfalso. apply Hne. reflexivity.
Qed.

Lemma probes_skip_their_source_witness :
  exists nodeName nodeIP,
    GetNodeInternalIPs twoNodes !! nodeName = Some nodeIP
    /\ nodeName <> "node-a"
    /\ "192.168.0.2:10250 (node-b)" = nodeIP +:+ ":10250 (" +:+ nodeName +:+ ")"
    /\ nodeIP <> "192.168.0.1".
Proof.
  pose (r := {| SourceNode := "node-a"; SourcePod := "nettest-node-a";
                TestType := "kubelet"; Target := "192.168.0.2:10250 (node-b)";
                Success := true; Error := "" |}).
  assert (Hin : In r (RunAllTests ctx_Caller (map testPodFor twoNodes) []
                                  (GetNodeInternalIPs twoNodes)
                                  (start freshCluster [])).1).
  { vm_compute. repeat (try (left; reflexivity); right). }
  destruct (proj1
              (proj2 (proj2 (probes_skip_their_source (W := FakeCluster) ctx_Caller))
                 (map testPodFor twoNodes) [] (GetNodeInternalIPs twoNodes)
                 (start freshCluster []) r Hin) eq_refl)
    as (nodeName & nodeIP & Hlook & Hne & Htarget & Hip).
  exists nodeName, nodeIP.
  split; [exact Hlook|]. split; [exact Hne|]. split; [exact Htarget|].
  apply (Hip "192.168.0.1"); [reflexivity|].
  intros n1 n2 ip H1 H2.
  apply GetNodeInternalIPs_sound in H1 as (node1 & Hin1 & <- & Hf1).
  apply GetNodeInternalIPs_sound in H2 as (node2 & Hin2 & <- & Hf2).
  simpl in Hin1, Hin2.
  destruct Hin1 as [<-|[<-|[]]]; destruct Hin2 as [<-|[<-|[]]];
    try reflexivity; vm_compute in Hf1, Hf2; congruence.
Defined.

(** A wait under a cancelled context: the first pod is read once, the
    wait ends with the context's error, and that is the cause
    [WaitForPodsReady] reports. *)
Lemma WaitForPodsReady_reports_cancellation :
  let out := WaitForPodsReady ctx_Caller (map testPodFor twoNodes) 90
                              (start {| cancelled := freshCluster |} []) in
  option_map err_Error out.1.1
  = Some "pod nettest-node-a failed to become ready: context canceled"
  /\ map ev_call (trace out.2) = [CallPodsGet testNamespace "nettest-node-a"].
Proof. vm_compute. split; reflexivity. Qed.
